(** * Sales report automation: report generator and e-mail simulator

    A shallow embedding of [src/report_generator.py],
    [src/email_service.py] and the loaders of [app.py], and the properties
    of the report pipeline that follow from the code.

    Conventions of the embedding.
    - A raw row is a Python dict; the seven keys the generator reads are the
      fields of [raw_row].  A key can be absent, present with [None]
      ([Null]), or present with a value.  The label columns ([date],
      [order_id], [model]) carry strings, as [csv.DictReader] produces them.
    - Python [int] is [Z] (unbounded), and the 64-bit integers of a frame
      are written out: what does not fit raises or wraps as it does in
      numpy.  Finite [float] values are idealised as rationals [Q] compared
      with [==]; NaN is [VNaN] in a row and [None] in a column of
      [option Q].  Rounding of binary floating point and the infinities are
      not modelled.
    - pandas, numpy, matplotlib, reportlab, the clock and the parsers of
      CPython are outside the repository.  What the generator needs from
      pandas (column inference, [astype], [groupby(...).sum()],
      [sort_values], [nunique], [head]) is written out below; what a
      library leaves to its implementation or to the platform is a field of
      an environment [env], so that the theorems hold for all of them: the
      parsers [int(str)] and [float(str)] with [repr], the order numpy's
      quicksort leaves between equal keys, the outcome of the cast of a
      float that is beyond the 64-bit range, date parsing, chart rendering,
      the clock and the random names of [tempfile].
    - Exceptions are values [exn] (class name and message; a class of pandas
      that derives from a built-in one is recorded as the built-in one); a
      computation that touches the file system is a function from the file
      system to a result and the file system it leaves behind. *)

From Stdlib Require Import ZArith QArith Ascii String List Bool Lia.
From Stdlib Require Import Sorting.Sorted Sorting.Permutation.
From Stdlib Require Import Structures.OrderedTypeEx.
From Stdlib Require Import DecimalString DecimalNat.
From stdpp Require Import gmap strings list fin_maps sorting.

Import ListNotations.
Local Open Scope string_scope.
Local Open Scope list_scope.

(** ** Exceptions and results *)

Record exn := Exn { exn_class : string; exn_msg : string }.

Inductive result (A : Type) : Type :=
| Ok (a : A)
| Err (e : exn).
Arguments Ok {A} a.
Arguments Err {A} e.

Definition ValueError (msg : string) : exn := Exn "ValueError" msg.
Definition TypeError (msg : string) : exn := Exn "TypeError" msg.
Definition OverflowError (msg : string) : exn := Exn "OverflowError" msg.
Definition KeyError (key : string) : exn := Exn "KeyError" key.

Definition rbind {A B} (r : result A) (k : A -> result B) : result B :=
  match r with
  | Ok a => k a
  | Err e => Err e
  end.

(** A conversion applied to an array from its first element on; it raises
    at the first element that does not convert. *)
Fixpoint rmap {A B} (f : A -> result B) (l : list A) : result (list B) :=
  match l with
  | [] => Ok []
  | a :: l' =>
      match f a with
      | Err e => Err e
      | Ok b =>
          match rmap f l' with
          | Err e => Err e
          | Ok bs => Ok (b :: bs)
          end
      end
  end.

(** ** Raw rows *)

Inductive value :=
| VInt (z : Z)
| VFloat (q : Q)
| VStr (s : string)
| VNaN.

Inductive cell (A : Type) : Type :=
| Absent
| Null
| Val (a : A).
Arguments Absent {A}.
Arguments Null {A}.
Arguments Val {A} a.

Record raw_row := RawRow {
  date : cell string;
  order_id : cell string;
  model : cell string;
  quantity : cell value;
  unit_price : cell value;
  price : cell value;
  total : cell value
}.

Definition present {A} (c : cell A) : bool :=
  match c with
  | Absent => false
  | _ => true
  end.

(** ['k' in df.columns]: the column exists when some row has the key. *)
Definition in_columns {A} (f : raw_row -> cell A) (rows : list raw_row) : bool :=
  existsb (fun r => present (f r)) rows.

(** A label cell as pandas sees it: a missing key and [None] are both NA. *)
Definition label (c : cell string) : option string :=
  match c with
  | Val s => Some s
  | _ => None
  end.

(** ** The environment *)

Inductive datetime :=
| NaT
| Timestamp (t : Z).

Definition path := list string.

Record env := Env {
  (** [int(s)] of a string: [None] raises ValueError *)
  py_int : string -> option Z;
  (** [float(s)]: [None] raises ValueError, [Some None] is NaN *)
  py_float : string -> option (option Q);
  (** [repr(s)], whole and as [%.200R] cuts it *)
  py_repr : string -> string;
  py_repr200 : string -> string;
  (** what the cast to [int64] leaves of a float beyond its range *)
  cast_out_of_range : Q -> Z;
  (** numpy's quicksort on floats and on 64-bit integers: the rank of each
      position, which orders the equal keys *)
  float_ties : list Q -> list nat;
  int_ties : list Z -> list nat;
  (** [pd.to_datetime] on a column of strings; [None] raises *)
  to_datetime : list string -> option (list datetime);
  (** matplotlib accepts the data of the pie chart / of the line chart *)
  pie_renders : list (string * Q) -> bool;
  line_renders : list (datetime * Q) -> bool;
  (** [datetime.now()] formatted with ["%Y-%m-%d"] and with
      ["%Y-%m-%d_%H-%M-%S"] *)
  today : string;
  now_stamp : string;
  (** directory of [tempfile] and the random names it tries in turn *)
  tempdir : path;
  temp_names : list string
}.

(** ** The columns of [pd.DataFrame(rows)]

    The constructor gives each column the type that pandas'
    [maybe_convert_objects] infers from its values, read from the first
    row on.  A missing key stands as NaN.  A string makes the column an
    array of objects, and so does an integer outside the 64-bit ranges, or
    a negative integer next to one above the signed range; unless a [None]
    came before it, in which case integers are taken as floats.  Every
    integer read on the way is converted to a float, which raises
    OverflowError when it is too large for one. *)

Definition INT64_MIN : Z := - 2 ^ 63.
Definition INT64_MAX : Z := 2 ^ 63 - 1.
Definition UINT64_MAX : Z := 2 ^ 64 - 1.

Definition in_int64 (z : Z) : bool := Z.leb INT64_MIN z && Z.leb z INT64_MAX.

(** [float(z)] overflows from the least integer that rounds to [2^1024]. *)
Definition float_overflows (z : Z) : bool := Z.leb (2 ^ 1024 - 2 ^ 970) (Z.abs z).

Definition int_too_large_for_float : exn :=
  OverflowError "int too large to convert to float".

Record seen := Seen {
  null_ : bool;
  nan_ : bool;
  float_ : bool;
  int_ : bool;
  uint_ : bool;
  sint_ : bool
}.

Definition saw_int (z : Z) (s : seen) : seen :=
  Seen (null_ s) (nan_ s) (float_ s) true
       (uint_ s || (Z.ltb INT64_MAX z && Z.leb z UINT64_MAX))
       (sint_ s || (Z.leb INT64_MIN z && Z.ltb z 0)).

(** The loop of [maybe_convert_objects]: [Ok None] when it breaks off with
    an array of objects. *)
Fixpoint scan (col : list (cell value)) (s : seen) : result (option seen) :=
  match col with
  | [] => Ok (Some s)
  | c :: col' =>
      match c with
      | Null => scan col' (Seen true (nan_ s) (float_ s) (int_ s) (uint_ s) (sint_ s))
      | Absent | Val VNaN =>
          scan col' (Seen (null_ s) true (float_ s) (int_ s) (uint_ s) (sint_ s))
      | Val (VFloat _) =>
          scan col' (Seen (null_ s) (nan_ s) true (int_ s) (uint_ s) (sint_ s))
      | Val (VInt z) =>
          if float_overflows z then Err int_too_large_for_float
          else if null_ s
          then scan col' (Seen (null_ s) (nan_ s) (float_ s) true (uint_ s) (sint_ s))
          else
            let s' := saw_int z s in
            if (uint_ s' && sint_ s') || Z.ltb UINT64_MAX z || Z.ltb z INT64_MIN
            then Ok None
            else scan col' s'
      | Val (VStr _) => Ok None
      end
  end.

(** A column of a frame: 64-bit integers, signed or unsigned, floats, or
    Python objects. *)
Inductive column :=
| Int64 (a : list Z)
| UInt64 (a : list Z)
| Float64 (a : list (option Q))
| Object (a : list (cell value)).

Definition int_value (c : cell value) : Z :=
  match c with
  | Val (VInt z) => z
  | _ => 0%Z
  end.

Definition float_value (c : cell value) : option Q :=
  match c with
  | Val (VInt z) => Some (inject_Z z)
  | Val (VFloat q) => Some q
  | _ => None
  end.

Definition maybe_convert_objects (col : list (cell value)) : result column :=
  rbind (scan col (Seen false false false false false false)) (fun r =>
  Ok match r with
     | None => Object col
     | Some s =>
         if null_ s || nan_ s then
           if float_ s || int_ s || nan_ s then Float64 (map float_value col)
           else Object col
         else if float_ s then Float64 (map float_value col)
         else if int_ s then
           if uint_ s then UInt64 (map int_value col) else Int64 (map int_value col)
         else Object col
     end).

Definition column_of (f : raw_row -> cell value) (rows : list raw_row)
  : result (option column) :=
  if in_columns f rows
  then rbind (maybe_convert_objects (map f rows)) (fun c => Ok (Some c))
  else Ok None.

(** The numeric columns of the frame that the generator can reach.  The
    constructor converts the columns in the order in which their keys are
    first met; the only exception it can raise here is the same for all of
    them, so that the order plays no part. *)
Record raw_frame := RawFrame {
  c_quantity : option column;
  c_unit_price : option column;
  c_price : option column;
  c_total : option column
}.

Definition pd_DataFrame (rows : list raw_row) : result raw_frame :=
  rbind (column_of quantity rows) (fun q =>
  rbind (column_of unit_price rows) (fun u =>
  rbind (column_of price rows) (fun p =>
  rbind (column_of total rows) (fun t =>
  Ok (RawFrame q u p t))))).

(** ** [_safe_df_from_rows] *)

Record srow := SRow {
  s_date : option string;
  s_order_id : option string;
  s_model : option string;
  s_quantity : Z;
  s_unit_price : option Q;
  s_total : option Q
}.

(** The frame after normalisation: which label columns exist, and the rows.
    The columns [quantity], [unit_price] and [total] always exist. *)
Record DataFrame := Frame {
  has_date : bool;
  has_order_id : bool;
  has_model : bool;
  records : list srow
}.

(** A float cut towards zero. *)
Definition trunc (q : Q) : Z := Z.quot (Qnum q) (Zpos (Qden q)).

(** The value of an unsigned 64-bit integer read as a signed one. *)
Definition wrap64 (z : Z) : Z := ((z + 2 ^ 63) mod 2 ^ 64 - 2 ^ 63)%Z.

(** A Python [int] stored in a 64-bit array. *)
Definition to_int64 (z : Z) : result Z :=
  if in_int64 z then Ok z
  else Err (OverflowError "Python int too large to convert to C long").

Definition invalid_literal (E : env) (s : string) : exn :=
  ValueError ("invalid literal for int() with base 10: " +:+ py_repr200 E s).

Definition int_of_NoneType : exn :=
  TypeError "int() argument must be a string, a bytes-like object or a real number, not 'NoneType'".

Definition int_of_NaN : exn := ValueError "cannot convert float NaN to integer".

(** [.astype(int)] on one element of an array of objects. *)
Definition int_of_object (E : env) (c : cell value) : result Z :=
  match c with
  | Val (VInt z) => to_int64 z
  | Val (VFloat q) => to_int64 (trunc q)
  | Val (VStr s) =>
      match py_int E s with
      | Some z => to_int64 z
      | None => Err (invalid_literal E s)
      end
  | Val VNaN | Absent => Err int_of_NaN
  | Null => Err int_of_NoneType
  end.

(** [.astype(int)] on one element of an array of floats: pandas refuses a
    NaN, and the cast cuts what is left towards zero. *)
Definition int_of_float (E : env) (x : option Q) : result Z :=
  match x with
  | Some q => Ok (if in_int64 (trunc q) then trunc q else cast_out_of_range E q)
  | None => Err (ValueError "Cannot convert non-finite values (NA or inf) to integer")
  end.

Definition astype_int (E : env) (c : column) : result (list Z) :=
  match c with
  | Int64 a => Ok a
  | UInt64 a => Ok (map wrap64 a)
  | Float64 a => rmap (int_of_float E) a
  | Object a => rmap (int_of_object E) a
  end.

(** [.astype(float)] on one element of an array of objects; numpy reads
    [None] as NaN. *)
Definition float_of_object (E : env) (c : cell value) : result (option Q) :=
  match c with
  | Val (VInt z) =>
      if float_overflows z then Err int_too_large_for_float else Ok (Some (inject_Z z))
  | Val (VFloat q) => Ok (Some q)
  | Val (VStr s) =>
      match py_float E s with
      | Some f => Ok f
      | None => Err (ValueError ("could not convert string to float: " +:+ py_repr E s))
      end
  | Val VNaN | Absent | Null => Ok None
  end.

Definition astype_float (E : env) (c : column) : result (list (option Q)) :=
  match c with
  | Int64 a | UInt64 a => Ok (map (fun z => Some (inject_Z z)) a)
  | Float64 a => Ok a
  | Object a => rmap (float_of_object E) a
  end.

(** [df['quantity']] before the conversion: the column of the input, or the
    scalar [1] broadcast when no row has the key. *)
Definition quantity_column (fr : raw_frame) (rows : list raw_row) : column :=
  match c_quantity fr with
  | Some c => c
  | None => Int64 (map (fun _ => 1%Z) rows)
  end.

(** [df['unit_price']] before the conversion: the column of the input, else
    the [price] column, else the scalar [0.0]. *)
Definition unit_price_column (fr : raw_frame) (rows : list raw_row) : column :=
  match c_unit_price fr with
  | Some c => c
  | None =>
      match c_price fr with
      | Some c => c
      | None => Float64 (map (fun _ => Some 0%Q) rows)
      end
  end.

(** [df['quantity'] * df['unit_price']], NaN where the price is NaN. *)
Definition times (q : Z) (p : option Q) : option Q :=
  match p with
  | Some x => Some (inject_Z q * x)%Q
  | None => None
  end.

Fixpoint assemble (rows : list raw_row) (qs : list Z) (ps : list (option Q)) : list srow :=
  match rows, qs, ps with
  | r :: rows', q :: qs', p :: ps' =>
      SRow (label (date r)) (label (order_id r)) (label (model r)) q p (times q p)
      :: assemble rows' qs' ps'
  | _, _, _ => []
  end.

Definition _safe_df_from_rows (E : env) (rows : list raw_row) : result DataFrame :=
  rbind (pd_DataFrame rows) (fun fr =>
  rbind (astype_int E (quantity_column fr rows)) (fun qs =>
  rbind (astype_float E (unit_price_column fr rows)) (fun ps =>
  Ok (Frame (in_columns date rows) (in_columns order_id rows)
            (in_columns model rows) (assemble rows qs ps))))).

(** ** Aggregation *)

(** [Series.sum()]: NaN entries are skipped. *)
Fixpoint nansum (l : list (option Q)) : Q :=
  match l with
  | [] => 0
  | Some x :: l' => x + nansum l'
  | None :: l' => nansum l'
  end.

Definition total_revenue (df : DataFrame) : Q :=
  nansum (map s_total (records df)).

(** [df['order_id'].nunique() if 'order_id' in df.columns else len(df)];
    [nunique] counts the distinct values that are not NA. *)
Definition orders (df : DataFrame) : nat :=
  if has_order_id df then length (remove_dups (omap s_order_id (records df)))
  else length (records df).

Definition nan0 (t : option Q) : Q :=
  match t with
  | Some x => x
  | None => 0
  end.

(** [groupby(key)['total'].sum()]: one entry per distinct key, the keys in
    ascending order ([sort=True]), rows whose key is NA left out
    ([dropna=True]), NaN totals skipped by the sum. *)
Fixpoint group_add (k : string) (x : Q) (g : list (string * Q)) : list (string * Q) :=
  match g with
  | [] => [(k, x)]
  | (k', s) :: g' =>
      match String.compare k k' with
      | Eq => (k', (s + x)%Q) :: g'
      | Lt => (k, x) :: g
      | Gt => (k', s) :: group_add k x g'
      end
  end.

Definition group_step (key : srow -> option string) (g : list (string * Q)) (r : srow)
  : list (string * Q) :=
  match key r with
  | Some k => group_add k (nan0 (s_total r)) g
  | None => g
  end.

Definition groupby_sum (key : srow -> option string) (rows : list srow) : list (string * Q) :=
  fold_left (group_step key) rows [].

(** ** Sorting *)

(** A stable sort by insertion. *)
Fixpoint insert_by {A} (leb : A -> A -> bool) (x : A) (l : list A) : list A :=
  match l with
  | [] => [x]
  | y :: l' => if leb x y then x :: l else y :: insert_by leb x l'
  end.

Definition stable_sort {A} (leb : A -> A -> bool) (l : list A) : list A :=
  fold_right (insert_by leb) [] l.

(** [sort_values] sorts with numpy's [argsort(kind='quicksort')], which is
    not stable: the keys come out in ascending order, and the order of equal
    keys is what the implementation leaves.  That order is read from the
    environment, as a rank for each position of the array of keys: of two
    equal keys the one of lower rank comes first, and the earlier one when
    the ranks are equal too. *)
Definition ranked_leb {A} (leb : A -> A -> bool) (x y : nat * A) : bool :=
  leb (snd x) (snd y) && (negb (leb (snd y) (snd x)) || Nat.leb (fst x) (fst y)).

Definition ranks (ties : list nat) (n : nat) : list nat :=
  take n (ties ++ repeat 0%nat n).

Definition quicksort {A} (leb : A -> A -> bool) (ties : list nat) (l : list A) : list A :=
  map snd (stable_sort (ranked_leb leb) (combine (ranks ties (length l)) l)).

Definition revenue_leb {K} (a b : K * Q) : bool := Qle_bool (snd a) (snd b).

(** [sort_values(ascending=False)]: pandas reverses the values, sorts them
    ascending and reverses the outcome. *)
Definition sort_values_desc {K} (E : env) (g : list (K * Q)) : list (K * Q) :=
  rev (quicksort revenue_leb (float_ties E (map snd (rev g))) (rev g)).

Definition by_model (E : env) (df : DataFrame) : result (list (string * Q)) :=
  if has_model df then Ok (sort_values_desc E (groupby_sum s_model (records df)))
  else Err (KeyError "model").

(** [df.groupby('model')['total'].sum().sort_values(ascending=False).head(5)] *)
Definition top_models (E : env) (df : DataFrame) : result (list (string * Q)) :=
  rbind (by_model E df) (fun g => Ok (take 5 g)).

(** Order of [datetime64] values. *)
Definition date_leb (a b : datetime * Q) : bool :=
  match fst a, fst b with
  | Timestamp x, Timestamp y => Z.leb x y
  | _, NaT => true
  | NaT, Timestamp _ => false
  end.

Definition is_NaT (a : datetime * Q) : bool :=
  match fst a with
  | NaT => true
  | Timestamp _ => false
  end.

Definition stamp (a : datetime * Q) : Z :=
  match fst a with
  | NaT => 0%Z
  | Timestamp t => t
  end.

(** [sort_values('date')]: the rows that have a date are sorted on it, and
    the rows whose date is NaT come after them in the order they had. *)
Definition sort_by_date (E : env) (l : list (datetime * Q)) : list (datetime * Q) :=
  let dated := List.filter (fun a => negb (is_NaT a)) l in
  quicksort date_leb (int_ties E (map stamp dated)) dated ++ List.filter is_NaT l.

(** The frame [daily] of [_create_charts]: totals grouped by the date field,
    the dates parsed, the rows sorted by date.  [to_datetime] returns one
    value per entry; the length test keeps the definition total. *)
Definition daily_series (E : env) (df : DataFrame) : result (list (datetime * Q)) :=
  if has_date df then
    let g := groupby_sum s_date (records df) in
    match to_datetime E (map fst g) with
    | Some ds =>
        if Nat.eqb (length ds) (length g)
        then Ok (sort_by_date E (combine ds (map snd g)))
        else Err (ValueError "to_datetime")
    | None => Err (ValueError "to_datetime")
    end
  else Err (KeyError "date").

(** ** The file system *)

Record report := Report {
  r_title : string;
  r_total_revenue : Q;
  r_orders : nat;
  r_top_models : list (string * Q);
  r_sample_rows : list srow
}.

Record meta := Meta {
  m_id : nat;
  m_timestamp : string;
  m_from : string;
  m_to : string;
  m_subject : string;
  m_body : string;
  m_attachment : string
}.

Inductive content :=
| PieChart (data : list (string * Q))
| LineChart (data : list (datetime * Q))
| Pdf (doc : report)
| Json (m : meta)
| Raw (bytes : string).

Inductive node :=
| Dir
| File (c : content).

(** A path is the list of its components; [[]] is the current directory. *)
Definition parent (p : path) : path := removelast p.
Definition name (p : path) : string := List.last p "".

Definition stat (p : path) (fs : gmap path node) : option node :=
  match p with
  | [] => Some Dir
  | _ => fs !! p
  end.

Definition exists_ (p : path) (fs : gmap path node) : bool :=
  match stat p fs with
  | Some _ => true
  | None => false
  end.

Definition OSError (class : string) (p : path) : exn :=
  Exn class (String.concat "/" p).

(** A step on the file system: its result, and the file system afterwards
    (also when it raises). *)
Definition io (A : Type) : Type := gmap path node -> result A * gmap path node.

Definition ret {A} (a : A) : io A := fun fs => (Ok a, fs).
Definition raise {A} (e : exn) : io A := fun fs => (Err e, fs).
Definition lift {A} (r : result A) : io A := fun fs => (r, fs).
Definition bind {A B} (c : io A) (k : A -> io B) : io B :=
  fun fs =>
    match c fs with
    | (Ok a, fs') => k a fs'
    | (Err e, fs') => (Err e, fs')
    end.

Notation "'let*' x ':=' c 'in' k" := (bind c (fun x => k))
  (at level 10, x pattern, c at level 100, k at level 200).

(** [try: c except Exception: pass] *)
Definition try_pass (c : io unit) : io unit :=
  fun fs => (Ok tt, snd (c fs)).

(** [open(p, 'w')] followed by the write. *)
Definition write_file (p : path) (c : content) : io unit :=
  fun fs =>
    match stat p fs with
    | Some Dir => (Err (OSError "IsADirectoryError" p), fs)
    | _ =>
        match stat (parent p) fs with
        | Some Dir => (Ok tt, <[p := File c]> fs)
        | Some (File _) => (Err (OSError "NotADirectoryError" p), fs)
        | None => (Err (OSError "FileNotFoundError" p), fs)
        end
    end.

(** [os.remove] *)
Definition remove (p : path) : io unit :=
  fun fs =>
    match stat p fs with
    | Some (File _) => (Ok tt, delete p fs)
    | Some Dir => (Err (OSError "IsADirectoryError" p), fs)
    | None => (Err (OSError "FileNotFoundError" p), fs)
    end.

Definition child_of (d : path) (p : path) : Prop := p <> [] /\ parent p = d.

#[global] Instance child_of_dec d p : Decision (child_of d p).
Proof. unfold child_of. apply _. Defined.

Definition children (d : path) (fs : gmap path node) : gmap path node :=
  filter (fun kv => child_of d (fst kv)) fs.

(** [os.rmdir]: only an empty directory can be removed. *)
Definition rmdir (d : path) : io unit :=
  fun fs =>
    match fs !! d with
    | Some Dir =>
        if Nat.eqb (size (children d fs)) 0 then (Ok tt, delete d fs)
        else (Err (OSError "OSError" d), fs)
    | Some (File _) => (Err (OSError "NotADirectoryError" d), fs)
    | None => (Err (OSError "FileNotFoundError" d), fs)
    end.

(** [Path.mkdir(parents=True, exist_ok=True)], from the root downwards. *)
Fixpoint mkdirs (done : path) (todo : list string) : io unit :=
  fun fs =>
    match todo with
    | [] => (Ok tt, fs)
    | c :: rest =>
        let p := done ++ [c] in
        match fs !! p with
        | Some Dir => mkdirs p rest fs
        | Some (File _) =>
            (Err (OSError (match rest with
                           | [] => "FileExistsError"
                           | _ => "NotADirectoryError"
                           end) (p ++ rest)), fs)
        | None => mkdirs p rest (<[p := Dir]> fs)
        end
    end.

Definition mkdir_parents (p : path) : io unit := mkdirs [] p.

(** [tempfile.mkdtemp(prefix)]: the first candidate name that is free. *)
Fixpoint first_free (dir : path) (prefix : string) (names : list string)
    (fs : gmap path node) : option path :=
  match names with
  | [] => None
  | n :: names' =>
      let p := dir ++ [prefix +:+ n] in
      match fs !! p with
      | None => Some p
      | Some _ => first_free dir prefix names' fs
      end
  end.

Definition mkdtemp (E : env) (prefix : string) : io path :=
  fun fs =>
    match first_free (tempdir E) prefix (temp_names E) fs with
    | Some p => (Ok p, <[p := Dir]> fs)
    | None => (Err (Exn "FileExistsError" "No usable temporary directory name found"), fs)
    end.

(** ** [_create_charts] *)

Definition _create_charts (E : env) (df : DataFrame) (tmpdir : path) : io (path * path) :=
  let* g := lift (by_model E df) in
  let pie_path := tmpdir ++ ["pie.png"] in
  let* _ := (if pie_renders E g then write_file pie_path (PieChart g)
             else raise (ValueError "pie")) in
  let* daily := lift (daily_series E df) in
  let daily_path := tmpdir ++ ["daily.png"] in
  let* _ := (if line_renders E daily then write_file daily_path (LineChart daily)
             else raise (ValueError "plot")) in
  ret (pie_path, daily_path).

(** ** [generate_pdf] *)

(** [title or f"Sales Report - {today}"] *)
Definition report_title (E : env) (title : option string) : string :=
  match title with
  | Some t => if String.eqb t "" then "Sales Report - " +:+ today E else t
  | None => "Sales Report - " +:+ today E
  end.

(** The last block of [generate_pdf]: both removals and the inner [rmdir]
    sit in one [try] whose handler passes. *)
Definition cleanup (pie_img daily_img tmpdir : path) : io unit :=
  try_pass (
    let* _ := (fun fs => if exists_ pie_img fs then remove pie_img fs else (Ok tt, fs)) in
    let* _ := (fun fs => if exists_ daily_img fs then remove daily_img fs else (Ok tt, fs)) in
    try_pass (rmdir tmpdir)).

Definition generate_pdf (E : env) (rows : list raw_row) (out_pdf_path : path)
    (title : option string) : io path :=
  let* df := lift (_safe_df_from_rows E rows) in
  let revenue := total_revenue df in
  let n_orders := orders df in
  let* top := lift (top_models E df) in
  let* tmpdir := mkdtemp E "report_" in
  let* imgs := _create_charts E df tmpdir in
  let* _ := mkdir_parents (parent out_pdf_path) in
  let doc := Report (report_title E title) revenue n_orders top (take 20 (records df)) in
  let* _ := write_file out_pdf_path (Pdf doc) in
  let* _ := cleanup (fst imgs) (snd imgs) tmpdir in
  ret out_pdf_path.

(** ** [send_simulated_email] *)

Definition SENT_DIR : path := ["sent_emails"].

(** [shutil.copyfile] *)
Definition copyfile (src dst : path) : io unit :=
  fun fs =>
    if bool_decide (src = dst) && exists_ src fs
    then (Err (Exn "SameFileError" (String.concat "/" src)), fs)
    else
      match stat src fs with
      | Some (File c) => write_file dst c fs
      | Some Dir => (Err (OSError "IsADirectoryError" src), fs)
      | None => (Err (OSError "FileNotFoundError" src), fs)
      end.

(** A name matches ["*.json"] when it ends in [.json]. *)
Definition matches_json (n : string) : bool :=
  String.prefix "nosj." (string_of_list_ascii (rev (list_ascii_of_string n))).

Definition json_in (d : path) (kv : path * node) : Prop :=
  child_of d (fst kv) /\ matches_json (name (fst kv)) = true.

#[global] Instance json_in_dec d kv : Decision (json_in d kv).
Proof. unfold json_in. apply _. Defined.

(** [len(list(d.glob("*.json")))] *)
Definition count_json (d : path) (fs : gmap path node) : nat :=
  size (filter (json_in d) fs).

Definition string_of_nat (n : nat) : string :=
  NilZero.string_of_uint (Nat.to_uint n).

Definition send_simulated_email (E : env) (pdf_path : path)
    (sender recipient subject body : string) : io meta :=
  fun fs =>
    if negb (exists_ pdf_path fs)
    then (Err (OSError "FileNotFoundError" pdf_path), fs)
    else
      (let ts := now_stamp E in
       let saved_pdf_name := ts +:+ "_" +:+ name pdf_path in
       let dest_pdf := SENT_DIR ++ [saved_pdf_name] in
       let* _ := copyfile pdf_path dest_pdf in
       let* n := (fun fs' => (Ok (count_json SENT_DIR fs'), fs')) in
       let m := Meta (n + 1) ts sender recipient subject body saved_pdf_name in
       let meta_file := SENT_DIR ++ [string_of_nat (m_id m) +:+ ".json"] in
       let* _ := write_file meta_file (Json m) in
       ret m) fs.

(** ** An environment for the examples

    [iso_env] reads ASCII text: integer literals as [int] does (blanks
    around, a sign, digits with single underscores between them), plain
    decimal literals for floats, and ISO calendar dates ([YYYY-MM-DD], month
    and day with or without the leading zero, the empty string giving NaT).
    Its [repr] is that of Python on ASCII text.  It leaves equal keys in
    the order of the array, gives the least 64-bit integer for a float that
    is out of range as x86-64 does, refuses a pie chart with a negative
    wedge as matplotlib does, and draws every line chart. *)

Definition is_space (a : ascii) : bool :=
  let n := nat_of_ascii a in
  (Nat.leb 9 n && Nat.leb n 13) || Nat.eqb n 32.

Definition is_digit (a : ascii) : bool :=
  let n := nat_of_ascii a in Nat.leb 48 n && Nat.leb n 57.

Definition digit_val (a : ascii) : Z := (Z.of_nat (nat_of_ascii a) - 48)%Z.

Fixpoint lstrip (l : list ascii) : list ascii :=
  match l with
  | a :: l' => if is_space a then lstrip l' else l
  | [] => []
  end.

Definition strip (l : list ascii) : list ascii := rev (lstrip (rev (lstrip l))).

(** Digits, with single underscores allowed between digits. *)
Fixpoint parse_digits (l : list ascii) (after_digit : bool) (acc : Z) : option Z :=
  match l with
  | [] => if after_digit then Some acc else None
  | a :: l' =>
      if is_digit a then parse_digits l' true (10 * acc + digit_val a)%Z
      else if Ascii.eqb a "_"%char then
        if after_digit then parse_digits l' false acc else None
      else None
  end.

Definition ascii_int (s : string) : option Z :=
  match strip (list_ascii_of_string s) with
  | a :: l =>
      if Ascii.eqb a "-"%char then option_map Z.opp (parse_digits l false 0)
      else if Ascii.eqb a "+"%char then parse_digits l false 0
      else parse_digits (a :: l) false 0
  | [] => None
  end.

Definition double_quote : ascii := ascii_of_nat 34.
Definition backslash : ascii := ascii_of_nat 92.

Definition hex_digit (n : nat) : ascii :=
  if Nat.ltb n 10 then ascii_of_nat (48 + n) else ascii_of_nat (87 + n).

Definition escape (q : ascii) (a : ascii) : list ascii :=
  let n := nat_of_ascii a in
  if Ascii.eqb a q || Ascii.eqb a backslash then [backslash; a]
  else if Nat.eqb n 9 then [backslash; "t"%char]
  else if Nat.eqb n 10 then [backslash; "n"%char]
  else if Nat.eqb n 13 then [backslash; "r"%char]
  else if Nat.ltb n 32 || Nat.eqb n 127
  then [backslash; "x"%char; hex_digit (n / 16); hex_digit (n mod 16)]
  else [a].

Definition ascii_repr (s : string) : string :=
  let l := list_ascii_of_string s in
  let q := if existsb (Ascii.eqb "'"%char) l && negb (existsb (Ascii.eqb double_quote) l)
           then double_quote else "'"%char in
  string_of_list_ascii (q :: flat_map (escape q) l ++ [q]).

Fixpoint split_on (sep : ascii) (l : list ascii) (cur : list ascii) : list (list ascii) :=
  match l with
  | [] => [rev cur]
  | a :: l' =>
      if Ascii.eqb a sep then rev cur :: split_on sep l' []
      else split_on sep l' (a :: cur)
  end.

Fixpoint plain_digits (l : list ascii) (acc : Z) : option Z :=
  match l with
  | [] => Some acc
  | a :: l' => if is_digit a then plain_digits l' (10 * acc + digit_val a)%Z else None
  end.

Definition number (l : list ascii) : option Z :=
  match l with
  | [] => None
  | _ => plain_digits l 0
  end.

Definition decimal_float (s : string) : option (option Q) :=
  let l := strip (list_ascii_of_string s) in
  let '(neg, body) :=
    match l with
    | a :: l' => if Ascii.eqb a "-"%char then (true, l')
                 else if Ascii.eqb a "+"%char then (false, l') else (false, l)
    | [] => (false, [])
    end in
  let sign (q : Q) := if neg then Qopp q else q in
  match split_on "."%char body [] with
  | [i] => option_map (fun z => Some (sign (inject_Z z))) (number i)
  | [i; f] =>
      match plain_digits i 0, plain_digits f 0 with
      | Some zi, Some zf =>
          if Nat.eqb (length i + length f) 0 then None else
          let scale := Z.pow 10 (Z.of_nat (length f)) in
          Some (Some (sign (Qmake (zi * scale + zf)%Z (Z.to_pos scale))))
      | _, _ => None
      end
  | _ => None
  end.

Definition leap_year (y : Z) : bool :=
  (Z.eqb (y mod 4) 0 && negb (Z.eqb (y mod 100) 0)) || Z.eqb (y mod 400) 0.

Definition days_in_month (y m : Z) : Z :=
  if Z.eqb m 2 then (if leap_year y then 29%Z else 28%Z)
  else if Z.eqb m 4 || Z.eqb m 6 || Z.eqb m 9 || Z.eqb m 11 then 30%Z else 31%Z.

(** Days since 1970-01-01 in the proleptic Gregorian calendar. *)
Definition days_from_civil (y m d : Z) : Z :=
  (let y' := if m <=? 2 then y - 1 else y in
   let era := y' / 400 in
   let yoe := y' - era * 400 in
   let mp := (m + 9) mod 12 in
   let doy := (153 * mp + 2) / 5 + d - 1 in
   let doe := yoe * 365 + yoe / 4 - yoe / 100 + doy in
   era * 146097 + doe - 719468)%Z.

Definition iso_date (s : string) : option datetime :=
  match list_ascii_of_string s with
  | [] => Some NaT
  | l =>
      match split_on "-"%char l [] with
      | [ys; ms; ds] =>
          match number ys, number ms, number ds with
          | Some y, Some m, Some d =>
              if Nat.eqb (length ys) 4 && Z.leb 1 m && Z.leb m 12
                 && Z.leb 1 d && Z.leb d (days_in_month y m)
              then Some (Timestamp (days_from_civil y m d))
              else None
          | _, _, _ => None
          end
      | _ => None
      end
  end.

Fixpoint all_some {A} (l : list (option A)) : option (list A) :=
  match l with
  | [] => Some []
  | Some a :: l' => option_map (cons a) (all_some l')
  | None :: _ => None
  end.

Definition iso_env_at (stamp : string) : env :=
  Env ascii_int decimal_float
      ascii_repr (fun s => String.substring 0 200 (ascii_repr s))
      (fun _ => INT64_MIN)
      (fun _ => []) (fun _ => [])
      (fun col => all_some (map iso_date col))
      (fun g => forallb (fun kv => Qle_bool 0 (snd kv)) g)
      (fun _ => true)
      "2024-02-01" stamp
      ["tmp"] ["k3x9q2"; "p7m1zt"].

Definition iso_env : env := iso_env_at "2024-02-01_09-30-00".

Definition row (d o m : string) (q : Z) (p : Q) : raw_row :=
  RawRow (Val d) (Val o) (Val m) (Val (VInt q)) (Val (VFloat p)) Absent Absent.

Definition scenario_rows : list raw_row :=
  [row "2024-01-01" "A1" "X" 2 10; row "2024-01-01" "A2" "Y" 1 5].


(** ** Quantities the statements refer to *)




(** The product of a row, quantity times unit price: NaN when the unit
    price is NaN. *)
Definition product (r : srow) : option Q := times (s_quantity r) (s_unit_price r).


Definition qsum (l : list Q) : Q := fold_right Qplus 0%Q l.

(** The sum of quantity times unit price over the rows whose unit price is
    a number. *)
Definition sum_priced_products (l : list srow) : Q :=
  qsum (map (fun r => inject_Z (s_quantity r) * nan0 (s_unit_price r))%Q
            (filter (fun r => is_Some (s_unit_price r)) l)).

Definition column_length (c : column) : nat :=
  match c with
  | Int64 a | UInt64 a => length a
  | Float64 a => length a
  | Object a => length a
  end.

(** A value that the frame constructor can read: not an integer too large
    for a float. *)
Definition readable (c : cell value) : Prop :=
  match c with
  | Val (VInt z) => float_overflows z = false
  | _ => True
  end.


(** The row that carries in [unit_price] what [r] carries in [price]. *)
Definition price_as_unit_price (r : raw_row) : raw_row :=
  RawRow (date r) (order_id r) (model r) (quantity r) (price r) Absent (total r).

(** The [total] cell of row [i] after normalisation ([None] when the
    normalisation raises or the table has no such row). *)
Definition total_at (E : env) (rows : list raw_row) (i : nat) : option (option Q) :=
  match _safe_df_from_rows E rows with
  | Ok df => s_total <$> records df !! i
  | Err _ => None
  end.


Definition price_only (q : Z) (p : Q) : raw_row :=
  RawRow Absent Absent Absent (Val (VInt q)) Absent (Val (VFloat p)) Absent.

Definition unit_price_only (q : Z) (p : Q) : raw_row :=
  RawRow Absent Absent Absent (Val (VInt q)) (Val (VFloat p)) Absent Absent.


(** The sum of the totals of the rows whose key is [k], NaN skipped. *)
Definition sum_for (key : srow -> option string) (k : string) (rows : list srow) : Q :=
  nansum (map s_total (filter (fun r => key r = Some k) rows)).

(** The strict, code point by code point, order of Python strings. *)
Definition klt (a b : string) : Prop := String_as_OT.lt a b.

(** Order of a list sorted on [leb] by a stable sort: where two elements tie,
    they stand as the relation [T] of the input had them. *)
Definition ordered_with_ties {A} (leb : A -> A -> bool) (T : A -> A -> Prop) (a b : A) : Prop :=
  leb a b = true /\ (leb b a = true -> T a b).

(** The sum of the entries of a grouped series that carry the label [k]. *)
Definition assoc_sum (k : string) (g : list (string * Q)) : Q :=
  qsum (map snd (filter (fun kv => fst kv = k) g)).

(** Index of the first row whose model is [k]. *)
Fixpoint first_seen (k : string) (rows : list srow) : option nat :=
  match rows with
  | [] => None
  | r :: rows' =>
      if decide (s_model r = Some k) then Some 0%nat
      else S <$> first_seen k rows'
  end.

(** Ties broken by first-seen order: of two entries with the same revenue
    the one that stands first is the one whose label the input has first. *)
Definition ties_first_seen (df : DataFrame) (top : list (string * Q)) : Prop :=
  forall i j a b,
    top !! i = Some a -> top !! j = Some b -> (i < j)%nat -> (snd a == snd b)%Q ->
    exists m n, first_seen (fst a) (records df) = Some m /\
                first_seen (fst b) (records df) = Some n /\ (m < n)%nat.

Definition no_model_row (d o : string) (q : Z) (p : Q) : raw_row :=
  RawRow (Val d) (Val o) Absent (Val (VInt q)) (Val (VFloat p)) Absent Absent.

Definition tie_rows : list raw_row :=
  [row "2024-01-01" "A1" "B" 1 10; row "2024-01-02" "A2" "A" 1 10;
   no_model_row "2024-01-03" "A3" (-1) 5].

Definition tie_frame : DataFrame :=
  Frame true true true
    [SRow (Some "2024-01-01") (Some "A1") (Some "B") 1 (Some 10%Q) (Some 10%Q);
     SRow (Some "2024-01-02") (Some "A2") (Some "A") 1 (Some 10%Q) (Some 10%Q);
     SRow (Some "2024-01-03") (Some "A3") None (-1) (Some 5%Q) (Some (-5)%Q)].

(** The same rows, the first two in the other order. *)
Definition swapped_tie_rows : list raw_row :=
  [row "2024-01-02" "A2" "A" 1 10; row "2024-01-01" "A1" "B" 1 10;
   no_model_row "2024-01-03" "A3" (-1) 5].

Definition swapped_tie_frame : DataFrame :=
  Frame true true true
    [SRow (Some "2024-01-02") (Some "A2") (Some "A") 1 (Some 10%Q) (Some 10%Q);
     SRow (Some "2024-01-01") (Some "A1") (Some "B") 1 (Some 10%Q) (Some 10%Q);
     SRow (Some "2024-01-03") (Some "A3") None (-1) (Some 5%Q) (Some (-5)%Q)].

(** A frame in which two models tie behind a third. *)
Definition tied_frame : DataFrame :=
  Frame true true true
    [SRow (Some "2024-01-01") (Some "A1") (Some "B") 1 (Some 10%Q) (Some 10%Q);
     SRow (Some "2024-01-02") (Some "A2") (Some "A") 1 (Some 10%Q) (Some 10%Q);
     SRow (Some "2024-01-03") (Some "A3") (Some "C") 3 (Some 10%Q) (Some 30%Q)].

(** An [order_id] that is present and not the empty string. *)
Definition nonempty_id (c : cell string) : Prop :=
  exists s, c = Val s /\ s <> "".

Definition blank_id_rows : list raw_row :=
  [row "2024-01-01" "" "X" 1 10; row "2024-01-02" "" "Y" 1 5].

Definition with_model (m : cell string) (r : raw_row) : raw_row :=
  RawRow (date r) (order_id r) m (quantity r) (unit_price r) (price r) (total r).

Definition mixed_model_rows : list raw_row :=
  [row "2024-01-01" "A1" "X" 2 10; no_model_row "2024-01-01" "A2" 1 5].

(** Strictly earlier, NaT after every timestamp. *)
Definition date_lt (a b : datetime) : Prop :=
  match a, b with
  | Timestamp x, Timestamp y => (x < y)%Z
  | Timestamp _, NaT => True
  | NaT, _ => False
  end.

Definition two_spellings_rows : list raw_row :=
  [row "2024-01-01" "A1" "X" 2 10; row "2024-1-1" "A2" "Y" 1 5].

(** The path the copy of [pdf_path] is saved at. *)
Definition dest_pdf (E : env) (pdf_path : path) : path :=
  SENT_DIR ++ [now_stamp E +:+ "_" +:+ name pdf_path].

(** Whether the copy adds an entry that [glob("*.json")] counts. *)
Definition copy_counts (E : env) (pdf_path : path) (fs : gmap path node) : nat :=
  if matches_json (now_stamp E +:+ "_" +:+ name pdf_path)
  then match fs !! dest_pdf E pdf_path with
       | None => 1
       | Some _ => 0
       end
  else 0.

Definition sent_store : gmap path node :=
  <[ ["generated_reports"; "jan.pdf"] := File (Raw "%PDF") ]>
  (<[ ["generated_reports"] := Dir ]> (<[ SENT_DIR := Dir ]> ∅)).

Definition json_named_store : gmap path node :=
  <[ ["data"; "jan.json"] := File (Raw "[]") ]>
  (<[ ["data"] := Dir ]> (<[ SENT_DIR := Dir ]> ∅)).

(** A file system in which [generated_reports] is a regular file, so that
    the directory of the report cannot be made. *)
Definition blocked_store : gmap path node :=
  <[ ["generated_reports"] := File (Raw "") ]> ∅.

(** A file system in which the path of the report is a directory. *)
Definition directory_store : gmap path node :=
  <[ ["generated_reports"; "jan.pdf"] := Dir ]> (<[ ["generated_reports"] := Dir ]> ∅).

Definition jan_pdf : path := ["generated_reports"; "jan.pdf"].
Definition jan_tmpdir : path := ["tmp"; "report_k3x9q2"].

(** Rows that carry labels only: no quantity, no unit price, no price. *)
Definition label_only_row (d o m : string) : raw_row :=
  RawRow (Val d) (Val o) (Val m) Absent Absent Absent Absent.

Definition no_quantity_row (d o m : string) (p : Q) : raw_row :=
  RawRow (Val d) (Val o) (Val m) Absent (Val (VFloat p)) Absent Absent.

(** A file system in which every entry lies in a directory. *)
Definition well_formed (fs : gmap path node) : Prop :=
  forall p, is_Some (fs !! p) -> stat (parent p) fs = Some Dir.

Definition reports_store : gmap path node :=
  <[ ["generated_reports"; "old.pdf"] := File (Raw "%PDF") ]>
  (<[ ["generated_reports"] := Dir ]> ∅).

(** The path of the metadata file of the e-mail with identifier [k]. *)
Definition meta_path (k : nat) : path := SENT_DIR ++ [string_of_nat k +:+ ".json"].

(** A store in which the place of the next metadata file is taken by a
    directory. *)
Definition dir_named_json_store : gmap path node :=
  <[ SENT_DIR ++ ["2.json"] := Dir ]> sent_store.

(** The same environment one minute later. *)
Definition iso_env_later : env := iso_env_at "2024-02-01_09-31-00".

(** ** [load_rows_from_sample] of [app.py]

    The paths of [app.py] are taken relative to its own directory.  The
    decoders of the [csv] and [json] modules are parameters: [csv.DictReader]
    yields its rows one at a time, each read of the file possibly raising,
    and [json.load] decodes the whole file or raises. *)

Record decoders := Decoders {
  csv_DictReader : content -> list (result raw_row);
  json_load : content -> result (list raw_row)
}.

Definition SAMPLE : path := ["sample_data"].

(** [PurePath.suffix]: the name from its last dot on, when that dot is
    neither the first nor the last character. *)
Fixpoint split_last_dot (rl : list ascii) (ext : list ascii) : option (list ascii * list ascii) :=
  match rl with
  | [] => None
  | a :: rl' =>
      if Ascii.eqb a "."%char then Some (rev rl', a :: ext)
      else split_last_dot rl' (a :: ext)
  end.

Definition suffix (n : string) : string :=
  match split_last_dot (rev (list_ascii_of_string n)) [] with
  | Some (a :: _, (d :: b :: ext)) => string_of_list_ascii (d :: b :: ext)
  | _ => ""
  end.

(** [str.lower] on ASCII letters. *)
Definition lower_ascii (a : ascii) : ascii :=
  let n := nat_of_ascii a in
  if Nat.leb 65 n && Nat.leb n 90 then ascii_of_nat (n + 32) else a.

Definition lower (s : string) : string :=
  string_of_list_ascii (map lower_ascii (list_ascii_of_string s)).

(** [int(x)] and [float(x)] of Python on a value of a row; [None] is not a
    number. *)
Definition py_int_value (E : env) (c : cell value) : result Z :=
  match c with
  | Val (VInt z) => Ok z
  | Val (VFloat q) => Ok (trunc q)
  | Val (VStr s) =>
      match py_int E s with
      | Some z => Ok z
      | None => Err (invalid_literal E s)
      end
  | Val VNaN => Err int_of_NaN
  | _ => Err int_of_NoneType
  end.

Definition py_float_value (E : env) (c : cell value) : result (option Q) :=
  match c with
  | Val (VInt z) =>
      if float_overflows z then Err int_too_large_for_float else Ok (Some (inject_Z z))
  | Val (VFloat q) => Ok (Some q)
  | Val (VStr s) =>
      match py_float E s with
      | Some f => Ok f
      | None => Err (ValueError ("could not convert string to float: " +:+ py_repr E s))
      end
  | Val VNaN => Ok None
  | _ => Err (TypeError "float() argument must be a string or a real number, not 'NoneType'")
  end.

(** [r.get('quantity', 1)] *)
Definition get_quantity (r : raw_row) : cell value :=
  match quantity r with
  | Absent => Val (VInt 1)
  | c => c
  end.

(** [r.get('unit_price', r.get('price', 0))] *)
Definition get_unit_price (r : raw_row) : cell value :=
  match unit_price r with
  | Absent => match price r with
              | Absent => Val (VInt 0)
              | c => c
              end
  | c => c
  end.

(** A float stored back in the row. *)
Definition float_cell (p : option Q) : cell value :=
  match p with
  | Some x => Val (VFloat x)
  | None => Val VNaN
  end.

(** The two assignments made to each row. *)
Definition convert_row (E : env) (r : raw_row) : result raw_row :=
  rbind (py_int_value E (get_quantity r)) (fun z =>
  rbind (py_float_value E (get_unit_price r)) (fun p =>
  Ok (RawRow (date r) (order_id r) (model r) (Val (VInt z)) (float_cell p)
             (price r) (total r)))).

(** The loop over the rows of a CSV file: a row is read, converted and
    appended before the next one is read. *)
Fixpoint load_csv (E : env) (reader : list (result raw_row)) : result (list raw_row) :=
  match reader with
  | [] => Ok []
  | Err e :: _ => Err e
  | Ok r :: rest =>
      rbind (convert_row E r) (fun r' =>
      rbind (load_csv E rest) (fun rs => Ok (r' :: rs)))
  end.

(** The loop over the decoded objects of a JSON file. *)
Definition load_json (E : env) (data : list raw_row) : result (list raw_row) :=
  rmap (convert_row E) data.

Definition load_rows_from_sample (D : decoders) (E : env) (filename : path)
    (fs : gmap path node) : result (list raw_row) :=
  let p := SAMPLE ++ filename in
  if negb (exists_ p fs) then Ok []
  else
    match stat p fs with
    | Some (File c) =>
        if String.eqb (lower (suffix (name p))) ".csv"
        then load_csv E (csv_DictReader D c)
        else rbind (json_load D c) (load_json E)
    | Some Dir => Err (OSError "IsADirectoryError" p)
    | None => Ok []
    end.

(** Decoders for the examples: the content of a sample file stands for the
    rows written in it. *)
Definition sample_rows_of (c : content) : list raw_row :=
  match c with
  | Raw "mixed" =>
      [RawRow (Val "2024-01-01") (Val "A1") (Val "X") (Val (VStr "2")) Absent
              (Val (VStr "9.99")) Absent;
       RawRow (Val "2024-01-02") (Val "A2") (Val "Y") Absent (Val (VStr "5"))
              Absent Absent]
  | Raw "table" =>
      [RawRow (Val "2024-01-01") (Val "A1") (Val "X") (Val (VStr "2")) Absent
              (Val (VStr "9.99")) Absent;
       RawRow (Val "2024-01-02") (Val "A2") (Val "Y") (Val (VStr "1")) Absent
              (Val (VStr "5")) Absent]
  | _ => []
  end.

Definition sample_decoders : decoders :=
  Decoders (fun c => map Ok (sample_rows_of c)) (fun c => Ok (sample_rows_of c)).

Definition sample_store : gmap path node :=
  <[ SAMPLE ++ ["mixed.json"] := File (Raw "mixed") ]>
  (<[ SAMPLE ++ ["table.csv"] := File (Raw "table") ]>
  (<[ SAMPLE ++ ["TABLE.CSV"] := File (Raw "table") ]>
  (<[ SAMPLE ++ [".csv"] := File (Raw "mixed") ]>
  (<[ SAMPLE ++ ["old.json"] := Dir ]>
  (<[ SAMPLE ++ ["notes.txt"] := File (Raw "") ]>
  (<[ SAMPLE := Dir ]> ∅)))))).

(** ** [list_sample_files] of [app.py] *)

Definition matches_csv (n : string) : bool :=
  String.prefix "vsc." (string_of_list_ascii (rev (list_ascii_of_string n))).

Definition glob_in (m : string -> bool) (d : path) (kv : path * node) : Prop :=
  child_of d (fst kv) /\ m (name (fst kv)) = true.

#[global] Instance glob_in_dec m d kv : Decision (glob_in m d kv).
Proof. unfold glob_in. apply _. Defined.

(** [d.glob("*" + ext)]: the entries of [d] whose name matches, hidden ones
    included, in the order the directory is scanned; nothing unless [d] is
    a directory. *)
Definition glob (m : string -> bool) (d : path) (fs : gmap path node) : list path :=
  match stat d fs with
  | Some Dir => map fst (map_to_list (filter (glob_in m d) fs))
  | _ => []
  end.

Definition list_sample_files (fs : gmap path node) : list string :=
  stable_sort String.leb
    (map name (glob matches_csv SAMPLE fs) ++ map name (glob matches_json SAMPLE fs)).

(** The quantity and the unit price a converted row carries. *)
Definition quantity_of (r : raw_row) : Z :=
  match quantity r with
  | Val (VInt z) => z
  | _ => 0%Z
  end.

Definition unit_price_of (r : raw_row) : option Q :=
  match unit_price r with
  | Val (VFloat x) => Some x
  | _ => None
  end.

(** A row as the loader leaves it: an [int] quantity, a [float] unit price. *)
Definition converted (r : raw_row) : Prop :=
  quantity r = Val (VInt (quantity_of r)) /\ unit_price r = float_cell (unit_price_of r).

(** * Properties *)

(** ** Normalisation *)

Lemma rbind_Ok {A B} (r : result A) (k : A -> result B) (b : B) :
  rbind r k = Ok b -> exists a, r = Ok a /\ k a = Ok b.
Proof. destruct r as [a|e]; simpl; [eauto | discriminate]. Qed.

Lemma rmap_length {A B} (f : A -> result B) (l : list A) (bs : list B) :
  rmap f l = Ok bs -> length bs = length l.
Proof.
  revert bs. induction l as [|a l IH]; simpl; intros bs H.
  - inversion H. reflexivity.
  - destruct (f a) as [b|e]; [|discriminate].
    destruct (rmap f l) as [bs'|e]; [|discriminate].
    inversion H. simpl. f_equal. apply IH. reflexivity.
Qed.

Lemma rmap_Err {A B} (f : A -> result B) (l : list A) (a : A) (e0 : exn) :
  In a l -> f a = Err e0 ->
  exists a' e, In a' l /\ f a' = Err e /\ rmap f l = Err e.
Proof.
  induction l as [|x l IH]; simpl; [tauto|].
  intros [->|Hin] Ha.
  - exists a, e0. rewrite Ha. auto.
  - destruct (f x) as [b|e] eqn:Hx.
    + destruct (IH Hin Ha) as (a' & e & Hin' & Ha' & Hr).
      exists a', e. rewrite Hr. auto.
    + exists x, e. auto.
Qed.

Lemma rmap_Err_In {A B} (f : A -> result B) (l : list A) (e : exn) :
  rmap f l = Err e -> exists a, In a l /\ f a = Err e.
Proof.
  induction l as [|x l IH]; simpl; [discriminate|].
  destruct (f x) as [b|e'] eqn:Hx.
  - destruct (rmap f l) as [bs|e'']; [discriminate|].
    intros [= <-]. destruct (IH eq_refl) as (a & Ha & Hf). eauto.
  - intros [= <-]. eauto.
Qed.


Lemma rmap_all_Ok {A B} (f : A -> result B) (g : A -> B) (l : list A) :
  Forall (fun a => f a = Ok (g a)) l -> rmap f l = Ok (map g l).
Proof.
  induction 1 as [|a l Ha _ IH]; simpl; [reflexivity|]. rewrite Ha, IH. reflexivity.
Qed.

Lemma rmap_Forall2 {A B} (f : A -> result B) (l : list A) (bs : list B) :
  rmap f l = Ok bs -> Forall2 (fun a b => f a = Ok b) l bs.
Proof.
  revert bs. induction l as [|a l IH]; simpl; intros bs H.
  - injection H as <-. constructor.
  - destruct (f a) as [b|e] eqn:Ha; [|discriminate].
    destruct (rmap f l) as [bs'|e]; [|discriminate].
    injection H as <-. constructor; auto.
Qed.

(** *** The inference of the column types *)

Lemma scan_Err col s e : scan col s = Err e -> e = int_too_large_for_float.
Proof.
  revert s. induction col as [|c col IH]; intros s; cbn [scan]; [discriminate|].
  destruct c as [| |[z|q|str|]]; eauto.
  - destruct (float_overflows z); [congruence|].
    destruct (null_ s); [eauto|].
    match goal with |- context [if ?b then Ok None else _] => destruct b end;
      [discriminate|eauto].
  - discriminate.
Qed.

Lemma in_int64_float z : in_int64 z = true -> float_overflows z = false.
Proof.
  unfold in_int64, float_overflows, INT64_MIN, INT64_MAX.
  rewrite andb_true_iff, !Z.leb_le, Z.leb_gt. intros [H1 H2].
  assert (Hc : (2 ^ 63 < 2 ^ 1024 - 2 ^ 970)%Z) by reflexivity.
  lia.
Qed.

(** When the loop runs to its end: no flag was lowered, the column holds no
    string, and if it met no [None], no NaN and no float, the column holds
    integers only, which fit 64 signed bits unless the flag [uint_] is
    up. *)
Lemma scan_Some col s s' :
  scan col s = Ok (Some s') ->
  ((null_ s = true -> null_ s' = true) /\ (nan_ s = true -> nan_ s' = true) /\
   (float_ s = true -> float_ s' = true) /\ (int_ s = true -> int_ s' = true) /\
   (uint_ s = true -> uint_ s' = true)) /\
  Forall (fun c => forall str, c <> Val (VStr str)) col /\
  (null_ s' = false -> nan_ s' = false -> float_ s' = false ->
   Forall (fun c => exists z, c = Val (VInt z) /\
                              (INT64_MIN <= z <= UINT64_MAX)%Z /\
                              (uint_ s' = false -> in_int64 z = true)) col /\
   (col <> [] -> int_ s' = true)).
Proof.
  revert s. induction col as [|c col IH]; intros s; cbn [scan].
  - intros [= <-]. repeat split; auto; congruence.
  - destruct c as [| |[z|q|str|]].
    + intros H. destruct (IH _ H) as ((H1 & H2 & H3 & H4 & H5) & Hs & Hi). simpl in *.
      split; [repeat split; auto|]. split; [constructor; [discriminate|exact Hs]|].
      intros _ Hn. rewrite H2 in Hn by reflexivity. discriminate.
    + intros H. destruct (IH _ H) as ((H1 & H2 & H3 & H4 & H5) & Hs & Hi). simpl in *.
      split; [repeat split; auto|]. split; [constructor; [discriminate|exact Hs]|].
      intros Hn. rewrite H1 in Hn by reflexivity. discriminate.
    + destruct (float_overflows z) eqn:Hf; [discriminate|].
      destruct (null_ s) eqn:Hnull.
      * intros H. destruct (IH _ H) as ((H1 & H2 & H3 & H4 & H5) & Hs & Hi). simpl in *.
        split; [repeat split; auto|]. split; [constructor; [discriminate|exact Hs]|].
        intros Hn. rewrite H1 in Hn by reflexivity. discriminate.
      * destruct ((uint_ (saw_int z s) && sint_ (saw_int z s)) || Z.ltb UINT64_MAX z
                  || Z.ltb z INT64_MIN) eqn:Hbrk; [discriminate|].
        intros H. destruct (IH _ H) as ((H1 & H2 & H3 & H4 & H5) & Hs & Hi).
        cbn [saw_int null_ nan_ float_ int_ uint_ sint_] in H1, H2, H3, H4, H5.
        split.
        { split; [discriminate|]. split; [exact H2|]. split; [exact H3|].
          split; [intros _; apply H4; reflexivity|].
          intros Hu. apply H5. rewrite Hu. reflexivity. }
        split; [constructor; [discriminate|exact Hs]|].
        intros Hn Hnan Hfl. destruct (Hi Hn Hnan Hfl) as [Hall Hint].
        apply orb_false_iff in Hbrk as [Hbrk Hlo]. apply orb_false_iff in Hbrk as [_ Hhi].
        apply Z.ltb_ge in Hlo, Hhi.
        split; [|intros _; apply H4; reflexivity].
        constructor; [|exact Hall]. exists z. split; [reflexivity|]. split; [lia|].
        intros Hu. unfold in_int64. apply andb_true_iff. rewrite !Z.leb_le.
        split; [exact Hlo|].
        destruct (Z.ltb INT64_MAX z) eqn:Hz; [|apply Z.ltb_ge in Hz; exact Hz].
        assert (Hup : uint_ s' = true); [|congruence].
        apply H5. apply orb_true_iff. right. apply Z.leb_le. exact Hhi.
    + intros H. destruct (IH _ H) as ((H1 & H2 & H3 & H4 & H5) & Hs & Hi). simpl in *.
      split; [repeat split; auto|]. split; [constructor; [discriminate|exact Hs]|].
      intros _ _ Hn. rewrite H3 in Hn by reflexivity. discriminate.
    + discriminate.
    + intros H. destruct (IH _ H) as ((H1 & H2 & H3 & H4 & H5) & Hs & Hi). simpl in *.
      split; [repeat split; auto|]. split; [constructor; [discriminate|exact Hs]|].
      intros _ Hn. rewrite H2 in Hn by reflexivity. discriminate.
Qed.

(** What the inference has found, by the type it gives. *)
Lemma maybe_convert_objects_Ok col c :
  maybe_convert_objects col = Ok c ->
  match c with
  | Int64 a =>
      a = map int_value col /\
      Forall (fun c => exists z, c = Val (VInt z) /\ in_int64 z = true) col
  | UInt64 a =>
      a = map int_value col /\
      Forall (fun c => exists z, c = Val (VInt z) /\ (INT64_MIN <= z <= UINT64_MAX)%Z) col
  | Float64 a =>
      a = map float_value col /\ Forall (fun c => forall str, c <> Val (VStr str)) col /\
      ~ Forall (fun c => exists z, c = Val (VInt z)) col
  | Object a => a = col
  end.
Proof.
  unfold maybe_convert_objects. intros H. apply rbind_Ok in H as (r & Hscan & H).
  injection H as <-. destruct r as [s'|]; [|reflexivity].
  destruct (scan_Some _ _ _ Hscan) as (_ & Hstr & Hint).
  assert (Hfloat : null_ s' || nan_ s' || float_ s' = true ->
                   ~ Forall (fun c => exists z, c = Val (VInt z)) col).
  { clear Hint Hstr. intros Hflag Hall. revert Hflag.
    assert (Hgen : forall s, scan col s = Ok (Some s') ->
                     null_ s' || nan_ s' || float_ s' = null_ s || nan_ s || float_ s).
    { clear Hscan. induction Hall as [|c col [z ->] _ IH]; intros s; cbn [scan].
      - intros [= <-]. reflexivity.
      - destruct (float_overflows z); [discriminate|].
        destruct (null_ s) eqn:Hn.
        + intros H. rewrite (IH _ H). simpl. rewrite ?Hn. reflexivity.
        + match goal with |- context [if ?b then Ok None else _] => destruct b end;
            [discriminate|].
          intros H. rewrite (IH _ H). simpl. rewrite ?Hn. reflexivity. }
    rewrite (Hgen _ Hscan). discriminate. }
  destruct (null_ s') eqn:Hn; simpl in *.
  - destruct (float_ s' || int_ s' || nan_ s'); [|reflexivity]. auto.
  - destruct (nan_ s') eqn:Hnan; simpl in *.
    + rewrite !orb_true_r. auto.
    + destruct (float_ s') eqn:Hfl; [auto|].
      destruct (Hint eq_refl eq_refl eq_refl) as [Hall _].
      destruct (int_ s'); [|reflexivity].
      destruct (uint_ s') eqn:Hu; (split; [reflexivity|]).
      * eapply Forall_impl; [exact Hall|]. intros c0 (z & -> & Hr & _). eauto.
      * eapply Forall_impl; [exact Hall|]. intros c0 (z & -> & _ & Hr). eauto.
Qed.

Lemma maybe_convert_objects_Err col e :
  maybe_convert_objects col = Err e -> e = int_too_large_for_float.
Proof.
  unfold maybe_convert_objects. destruct (scan col _) eqn:Hs; [discriminate|].
  simpl. intros [= <-]. exact (scan_Err _ _ _ Hs).
Qed.

Lemma maybe_convert_objects_length col c :
  maybe_convert_objects col = Ok c -> column_length c = length col.
Proof.
  intros H. apply maybe_convert_objects_Ok in H.
  destruct c; simpl; [destruct H as [-> _]|destruct H as [-> _]|destruct H as [-> _]|subst];
    rewrite ?length_map; reflexivity.
Qed.


(** A column of integers that fit 64 signed bits is an [int64] column. *)
Lemma scan_int64 col s :
  Forall (fun c => exists z, c = Val (VInt z) /\ in_int64 z = true) col ->
  null_ s = false -> uint_ s = false ->
  exists s', scan col s = Ok (Some s') /\
             null_ s' = false /\ nan_ s' = nan_ s /\ float_ s' = float_ s /\
             uint_ s' = false /\ (col <> [] -> int_ s' = true) /\
             (int_ s = true -> int_ s' = true).
Proof.
  intros Hall. revert s. induction Hall as [|c col (z & -> & Hz) _ IH]; intros s Hn Hu; simpl.
  - exists s. repeat split; auto; congruence.
  - rewrite (in_int64_float z Hz), Hn.
    assert (Hr := Hz). unfold in_int64 in Hr. apply andb_true_iff in Hr as [Hlo Hhi].
    apply Z.leb_le in Hlo, Hhi.
    assert (Hmax : Z.ltb INT64_MAX z = false) by (apply Z.ltb_ge; exact Hhi).
    assert (Hmin : Z.ltb z INT64_MIN = false) by (apply Z.ltb_ge; exact Hlo).
    assert (Hbig : Z.ltb UINT64_MAX z = false).
    { apply Z.ltb_ge. unfold UINT64_MAX, INT64_MAX in *. lia. }
    unfold saw_int. cbn [uint_ sint_]. rewrite Hu, Hmax, Hmin, Hbig. cbn [andb orb].
    destruct (IH (Seen (null_ s) (nan_ s) (float_ s) true false
                       (sint_ s || (Z.leb INT64_MIN z && Z.ltb z 0))) Hn eq_refl)
      as (s' & Hs & H1 & H2 & H3 & H4 & H5 & H6).
    exists s'. simpl in *. repeat split; auto.
Qed.

Lemma maybe_convert_objects_int64 col :
  Forall (fun c => exists z, c = Val (VInt z) /\ in_int64 z = true) col -> col <> [] ->
  maybe_convert_objects col = Ok (Int64 (map int_value col)).
Proof.
  intros Hall Hne. unfold maybe_convert_objects.
  destruct (scan_int64 col (Seen false false false false false false) Hall eq_refl eq_refl)
    as (s' & -> & H1 & H2 & H3 & H4 & H5 & _).
  simpl in *. rewrite H1, H2, H3, H4, (H5 Hne). reflexivity.
Qed.

(** A column of floats is a [float64] column. *)
Lemma scan_floats col s :
  Forall (fun c => float_value c = None -> c = Val VNaN) col ->
  Forall (fun c => forall z, c <> Val (VInt z)) col ->
  exists s', scan col s = Ok (Some s') /\ null_ s' = null_ s /\
             (nan_ s = true -> nan_ s' = true) /\ (float_ s = true -> float_ s' = true) /\
             (col <> [] -> nan_ s' = true \/ float_ s' = true).
Proof.
  intros Hall. revert s. induction Hall as [|c col Hc _ IH]; intros s Hni; simpl.
  - exists s. repeat split; auto; congruence.
  - apply Forall_cons in Hni as [Hc' Hni].
    destruct c as [| |[z|q|str|]]; try (specialize (Hc eq_refl); discriminate Hc).
    + exfalso. exact (Hc' z eq_refl).
    + destruct (IH (Seen (null_ s) (nan_ s) true (int_ s) (uint_ s) (sint_ s)) Hni)
        as (s' & Hs & H1 & H2 & H3 & _).
      exists s'. simpl in *. repeat split; auto.
    + destruct (IH (Seen (null_ s) true (float_ s) (int_ s) (uint_ s) (sint_ s)) Hni)
        as (s' & Hs & H1 & H2 & H3 & _).
      exists s'. simpl in *. repeat split; auto.
Qed.

Lemma maybe_convert_objects_floats col :
  Forall (fun c => float_value c = None -> c = Val VNaN) col ->
  Forall (fun c => forall z, c <> Val (VInt z)) col -> col <> [] ->
  maybe_convert_objects col = Ok (Float64 (map float_value col)).
Proof.
  intros Hall Hni Hne. unfold maybe_convert_objects.
  destruct (scan_floats col (Seen false false false false false false) Hall Hni)
    as (s' & -> & H1 & _ & _ & H4).
  simpl in *. rewrite H1. simpl.
  destruct (H4 Hne) as [H|H]; rewrite H; simpl; rewrite ?orb_true_r; [reflexivity|].
  destruct (nan_ s'); simpl; rewrite ?orb_true_r; reflexivity.
Qed.

(** A column without too large an integer is read. *)
Lemma scan_readable col s :
  Forall readable col -> exists r, scan col s = Ok r.
Proof.
  intros Hall. revert s. induction Hall as [|c col Hc _ IH]; intros s; cbn [scan]; [eauto|].
  destruct c as [| |[z|q|str|]]; eauto.
  simpl in Hc. rewrite Hc. destruct (null_ s); [eauto|].
  match goal with |- context [if ?b then Ok None else _] => destruct b end; eauto.
Qed.

Lemma maybe_convert_objects_readable col :
  Forall readable col -> exists c, maybe_convert_objects col = Ok c.
Proof.
  intros H. unfold maybe_convert_objects.
  destruct (scan_readable col (Seen false false false false false false) H) as [r ->].
  simpl. eauto.
Qed.

Lemma wrap64_id z : in_int64 z = true -> wrap64 z = z.
Proof.
  unfold in_int64, wrap64, INT64_MIN, INT64_MAX.
  rewrite andb_true_iff, !Z.leb_le. intros [H1 H2].
  rewrite Z.mod_small; lia.
Qed.

Lemma to_int64_Ok z z' : to_int64 z = Ok z' -> z' = z /\ in_int64 z = true.
Proof.
  unfold to_int64. destruct (in_int64 z); [|discriminate]. intros [= <-]. auto.
Qed.

(** *** The frame *)

Lemma column_of_Ok f rows oc :
  column_of f rows = Ok oc ->
  match oc with
  | Some c => in_columns f rows = true /\ maybe_convert_objects (map f rows) = Ok c
  | None => in_columns f rows = false
  end.
Proof.
  unfold column_of. destruct (in_columns f rows); [|intros [= <-]; reflexivity].
  destruct (maybe_convert_objects (map f rows)) as [c|e]; [|discriminate].
  simpl. intros [= <-]. auto.
Qed.

Lemma column_of_Err f rows e : column_of f rows = Err e -> e = int_too_large_for_float.
Proof.
  unfold column_of. destruct (in_columns f rows); [|discriminate].
  destruct (maybe_convert_objects (map f rows)) as [c|e'] eqn:H; [discriminate|].
  simpl. intros [= <-]. exact (maybe_convert_objects_Err _ _ H).
Qed.

Lemma column_of_length f rows c :
  column_of f rows = Ok (Some c) -> column_length c = length rows.
Proof.
  intros H. apply column_of_Ok in H as [_ H].
  apply maybe_convert_objects_length in H. rewrite H. apply length_map.
Qed.

Lemma pd_DataFrame_Ok rows fr :
  pd_DataFrame rows = Ok fr ->
  column_of quantity rows = Ok (c_quantity fr) /\
  column_of unit_price rows = Ok (c_unit_price fr) /\
  column_of price rows = Ok (c_price fr) /\
  column_of total rows = Ok (c_total fr).
Proof.
  unfold pd_DataFrame. intros H.
  apply rbind_Ok in H as (q & Hq & H). apply rbind_Ok in H as (u & Hu & H).
  apply rbind_Ok in H as (p & Hp & H). apply rbind_Ok in H as (t & Ht & H).
  injection H as <-. auto.
Qed.

(** The constructor can only raise the OverflowError of an integer too
    large for a float. *)
Lemma pd_DataFrame_Err rows e : pd_DataFrame rows = Err e -> e = int_too_large_for_float.
Proof.
  unfold pd_DataFrame.
  destruct (column_of quantity rows) eqn:Hq; simpl;
    [|intros [= <-]; exact (column_of_Err _ _ _ Hq)].
  destruct (column_of unit_price rows) eqn:Hu; simpl;
    [|intros [= <-]; exact (column_of_Err _ _ _ Hu)].
  destruct (column_of price rows) eqn:Hp; simpl;
    [|intros [= <-]; exact (column_of_Err _ _ _ Hp)].
  destruct (column_of total rows) eqn:Ht; simpl;
    [discriminate|intros [= <-]; exact (column_of_Err _ _ _ Ht)].
Qed.

Lemma quantity_column_length rows fr :
  pd_DataFrame rows = Ok fr -> column_length (quantity_column fr rows) = length rows.
Proof.
  intros H. apply pd_DataFrame_Ok in H as (Hq & _). unfold quantity_column.
  destruct (c_quantity fr); [exact (column_of_length _ _ _ Hq)|apply length_map].
Qed.

Lemma unit_price_column_length rows fr :
  pd_DataFrame rows = Ok fr -> column_length (unit_price_column fr rows) = length rows.
Proof.
  intros H. apply pd_DataFrame_Ok in H as (_ & Hu & Hp & _). unfold unit_price_column.
  destruct (c_unit_price fr); [exact (column_of_length _ _ _ Hu)|].
  destruct (c_price fr); [exact (column_of_length _ _ _ Hp)|apply length_map].
Qed.

Lemma astype_int_length E c qs : astype_int E c = Ok qs -> length qs = column_length c.
Proof.
  destruct c; simpl.
  - intros [= <-]. reflexivity.
  - intros [= <-]. apply length_map.
  - apply rmap_length.
  - apply rmap_length.
Qed.

Lemma astype_float_length E c ps : astype_float E c = Ok ps -> length ps = column_length c.
Proof.
  destruct c; simpl.
  - intros [= <-]. apply length_map.
  - intros [= <-]. apply length_map.
  - intros [= <-]. reflexivity.
  - apply rmap_length.
Qed.

Lemma assemble_length rows qs ps :
  length qs = length rows -> length ps = length rows ->
  length (assemble rows qs ps) = length rows.
Proof.
  revert qs ps. induction rows as [|r rows IH]; intros [|q qs] [|p ps]; simpl;
    try discriminate; auto.
Qed.

Lemma assemble_total rows qs ps :
  Forall (fun r => s_total r = product r) (assemble rows qs ps).
Proof.
  revert qs ps. induction rows as [|r rows IH]; intros [|q qs] [|p ps]; simpl;
    constructor; auto.
Qed.

(** What [_safe_df_from_rows] returns when it returns. *)
Lemma _safe_df_from_rows_Ok E rows df :
  _safe_df_from_rows E rows = Ok df ->
  exists fr qs ps,
    pd_DataFrame rows = Ok fr /\
    astype_int E (quantity_column fr rows) = Ok qs /\
    astype_float E (unit_price_column fr rows) = Ok ps /\
    length qs = length rows /\ length ps = length rows /\
    df = Frame (in_columns date rows) (in_columns order_id rows)
               (in_columns model rows) (assemble rows qs ps).
Proof.
  unfold _safe_df_from_rows. intros H.
  apply rbind_Ok in H as (fr & Hfr & H).
  apply rbind_Ok in H as (qs & Hq & H).
  apply rbind_Ok in H as (ps & Hp & H).
  exists fr, qs, ps. repeat split; auto.
  - rewrite (astype_int_length _ _ _ Hq). apply quantity_column_length, Hfr.
  - rewrite (astype_float_length _ _ _ Hp). apply unit_price_column_length, Hfr.
  - congruence.
Qed.

(** The exceptions of [_safe_df_from_rows]. *)
Lemma int_of_object_class E c e :
  int_of_object E c = Err e ->
  exn_class e = "ValueError" \/ exn_class e = "TypeError" \/ exn_class e = "OverflowError".
Proof.
  unfold int_of_object, to_int64.
  destruct c as [| |[z|q|str|]]; try (intros [= <-]; auto).
  - destruct (in_int64 z); [discriminate|]. intros [= <-]. auto.
  - destruct (in_int64 (trunc q)); [discriminate|]. intros [= <-]. auto.
  - destruct (py_int E str) as [z|].
    + destruct (in_int64 z); [discriminate|]. intros [= <-]. auto.
    + intros [= <-]. auto.
Qed.

Lemma astype_int_class E c e :
  astype_int E c = Err e ->
  exn_class e = "ValueError" \/ exn_class e = "TypeError" \/ exn_class e = "OverflowError".
Proof.
  destruct c as [a|a|a|a]; simpl; try discriminate; intros H.
  - apply rmap_Err_In in H as ([q|] & _ & H); simpl in H; [discriminate|].
    injection H as <-. auto.
  - apply rmap_Err_In in H as (c & _ & H). exact (int_of_object_class _ _ _ H).
Qed.

(** A column with a cell that is neither an integer nor a float cannot be
    converted to integers. *)
Lemma astype_int_fails E col c x :
  maybe_convert_objects col = Ok c -> In x col ->
  float_value x = None -> (exists e0, int_of_object E x = Err e0) ->
  exists e, astype_int E c = Err e /\
            (exn_class e = "ValueError" \/ exn_class e = "TypeError"
             \/ exn_class e = "OverflowError").
Proof.
  intros Hc Hin Hx [e0 He0].
  assert (Hfail : exists e, astype_int E c = Err e).
  { apply maybe_convert_objects_Ok in Hc. destruct c as [a|a|a|a]; simpl.
    - destruct Hc as [_ H]. rewrite List.Forall_forall in H.
      destruct (H _ Hin) as (z & -> & _). discriminate Hx.
    - destruct Hc as [_ H]. rewrite List.Forall_forall in H.
      destruct (H _ Hin) as (z & -> & _). discriminate Hx.
    - destruct Hc as (-> & _ & _).
      destruct (rmap_Err (int_of_float E) (map float_value col) None
                  (ValueError "Cannot convert non-finite values (NA or inf) to integer"))
        as (_ & e & _ & _ & Hr); [|reflexivity|eauto].
      rewrite <- Hx. apply in_map. exact Hin.
    - subst a. destruct (rmap_Err (int_of_object E) col x e0 Hin He0) as (_ & e & _ & _ & Hr).
      eauto. }
  destruct Hfail as [e He]. exists e. split; [exact He|]. exact (astype_int_class _ _ _ He).
Qed.

(** *** Totals *)

Lemma nansum_products (l : list srow) :
  Forall (fun r => s_total r = product r) l ->
  (nansum (map s_total l) == sum_priced_products l)%Q.
Proof.
  unfold sum_priced_products.
  induction 1 as [|r l Hr _ IH]; [reflexivity|].
  rewrite filter_cons. cbn [map nansum]. rewrite Hr. unfold product, times.
  destruct (s_unit_price r) as [p|] eqn:Hp.
  - rewrite decide_True by eauto. cbn [map qsum fold_right]. rewrite Hp. cbn [nan0].
    apply Qplus_comp; [reflexivity|exact IH].
  - rewrite decide_False by (intros [? ?]; discriminate). exact IH.
Qed.


(** *** The [total] of the input *)






(** ** The price fallback *)

Lemma in_columns_ext {A B} (f : raw_row -> cell A) (g : raw_row -> cell B) rows rows' :
  map (fun r => present (f r)) rows = map (fun r => present (g r)) rows' ->
  in_columns f rows = in_columns g rows'.
Proof.
  unfold in_columns. revert rows'.
  induction rows as [|r rows IH]; intros [|r' rows']; simpl; try discriminate; auto.
  intros H. injection H as H1 H2. rewrite H1. f_equal. auto.
Qed.

Lemma in_columns_map {A} (f g : raw_row -> cell A) rows rows' :
  map f rows = map g rows' -> in_columns f rows = in_columns g rows'.
Proof.
  intros H. apply in_columns_ext.
  rewrite <- (List.map_map f present rows), <- (List.map_map g present rows'), H.
  reflexivity.
Qed.

(** A column depends on its cells only. *)
Lemma column_of_ext (f g : raw_row -> cell value) rows rows' :
  map f rows = map g rows' -> column_of f rows = column_of g rows'.
Proof.
  intros H. unfold column_of. rewrite (in_columns_map f g rows rows' H), H. reflexivity.
Qed.

Lemma column_of_absent (f : raw_row -> cell value) rows :
  in_columns f rows = false -> column_of f rows = Ok None.
Proof. intros H. unfold column_of. rewrite H. reflexivity. Qed.

Lemma assemble_ext rows rows' qs ps :
  map (fun r => (label (date r), label (order_id r), label (model r))) rows
  = map (fun r => (label (date r), label (order_id r), label (model r))) rows' ->
  assemble rows qs ps = assemble rows' qs ps.
Proof.
  revert rows' qs ps.
  induction rows as [|r rows IH]; intros [|r' rows'] qs ps; simpl; try discriminate; auto.
  intros H. injection H as Hd Ho Hm H.
  destruct qs, ps; auto. rewrite Hd, Ho, Hm. f_equal. auto.
Qed.

(** C4 (amended).  The fallback is decided for the column, not for the row:
    in a table no row of which has a [unit_price] key, normalisation gives
    the same frame, hence the same totals, as for the table whose rows carry
    the value of [price] in [unit_price] directly. *)
Theorem price_fallback_same_frame (E : env) (rows : list raw_row) :
  in_columns unit_price rows = false ->
  _safe_df_from_rows E (map price_as_unit_price rows) = _safe_df_from_rows E rows.
Proof.
  intros Hno.
  assert (Hq : column_of quantity (map price_as_unit_price rows) = column_of quantity rows)
    by (apply column_of_ext; rewrite List.map_map; reflexivity).
  assert (Hu : column_of unit_price (map price_as_unit_price rows) = column_of price rows)
    by (apply column_of_ext; rewrite List.map_map; reflexivity).
  assert (Hp : column_of price (map price_as_unit_price rows) = Ok None).
  { apply column_of_absent. unfold in_columns. clear. induction rows; simpl; auto. }
  assert (Ht : column_of total (map price_as_unit_price rows) = column_of total rows)
    by (apply column_of_ext; rewrite List.map_map; reflexivity).
  unfold _safe_df_from_rows, pd_DataFrame.
  rewrite Hq, Hu, Hp, Ht, (column_of_absent unit_price rows Hno).
  destruct (column_of quantity rows) as [q|e]; [|reflexivity].
  destruct (column_of price rows) as [p|e]; [|reflexivity].
  destruct (column_of total rows) as [t|e]; [|reflexivity].
  cbn [rbind]. unfold quantity_column, unit_price_column.
  cbn [c_quantity c_unit_price c_price]. rewrite !List.map_map.
  rewrite (in_columns_ext date date _ rows) by (rewrite List.map_map; reflexivity).
  rewrite (in_columns_ext order_id order_id _ rows) by (rewrite List.map_map; reflexivity).
  rewrite (in_columns_ext model model _ rows) by (rewrite List.map_map; reflexivity).
  assert (Ha : forall qs ps, assemble (map price_as_unit_price rows) qs ps = assemble rows qs ps)
    by (intros; apply assemble_ext; rewrite List.map_map; reflexivity).
  destruct p as [p|]; destruct (astype_int E _) as [qs|e]; cbn [rbind]; try reflexivity;
    destruct (astype_float E _) as [ps|e]; cbn [rbind]; try reflexivity;
    rewrite Ha; reflexivity.
Qed.

Lemma price_fallback_same_frame_witness :
  _safe_df_from_rows iso_env [unit_price_only 2 9.99]
  = _safe_df_from_rows iso_env [price_only 2 9.99] /\
  total_at iso_env [price_only 2 9.99] 0 = Some (Some (1998 # 100)) /\
  (1998 # 100 == 19.98)%Q.
Proof.
  split; [|split; reflexivity].
  apply (price_fallback_same_frame iso_env [price_only 2 9.99]). reflexivity.
Defined.

(** C4 as stated fails: next to a row that has [unit_price], the row that has
    only [price] gets a NaN unit price and a NaN total, whereas the row with
    the same value in [unit_price] gets 19.98. *)
Lemma price_fallback_not_per_row :
  ~ (forall (E : env) (rows : list raw_row) (i : nat) (r : raw_row),
       rows !! i = Some r -> unit_price r = Absent -> present (price r) = true ->
       total_at E (<[i := price_as_unit_price r]> rows) i = total_at E rows i).
Proof.
  intros H.
  specialize (H iso_env [price_only 2 9.99; unit_price_only 1 5] 0%nat
                (price_only 2 9.99) eq_refl eq_refl eq_refl).
  vm_compute in H. discriminate H.
Qed.

(** ** A quantity that is not a number *)



Lemma in_columns_In {A} (f : raw_row -> cell A) rows r :
  In r rows -> present (f r) = true -> in_columns f rows = true.
Proof.
  intros Hin Hp. unfold in_columns. apply existsb_exists. eauto.
Qed.

(** A cell of the [quantity] column that cannot be converted to an integer
    makes normalisation raise. *)
Lemma bad_quantity_raises E rows r :
  In r rows -> in_columns quantity rows = true ->
  float_value (quantity r) = None -> (exists e0, int_of_object E (quantity r) = Err e0) ->
  exists e, _safe_df_from_rows E rows = Err e /\
            (exn_class e = "ValueError" \/ exn_class e = "TypeError"
             \/ exn_class e = "OverflowError").
Proof.
  intros Hin Hpres Hfl Hbad. unfold _safe_df_from_rows.
  destruct (pd_DataFrame rows) as [fr|e] eqn:Hfr.
  - destruct (pd_DataFrame_Ok _ _ Hfr) as (Cq & _).
    destruct (c_quantity fr) as [c|] eqn:Hc; apply column_of_Ok in Cq.
    + destruct Cq as [_ Cq].
      destruct (astype_int_fails E (map quantity rows) c (quantity r) Cq
                  (in_map quantity rows r Hin) Hfl Hbad) as (e & He & Hclass).
      exists e. cbn [rbind]. unfold quantity_column. rewrite Hc, He. auto.
    + rewrite Hpres in Cq. discriminate Cq.
  - exists e. split; [reflexivity|].
    rewrite (pd_DataFrame_Err _ _ Hfr). auto.
Qed.




(** ** Stable sorting *)

Section StableSort.
Context {A : Type} (leb : A -> A -> bool).
Hypothesis leb_total : forall a b, leb a b = true \/ leb b a = true.
Hypothesis leb_trans : forall a b c, leb a b = true -> leb b c = true -> leb a c = true.

Lemma insert_by_perm x l : Permutation (insert_by leb x l) (x :: l).
Proof.
  induction l as [|y l IH]; simpl; [reflexivity|].
  destruct (leb x y); [reflexivity|].
  rewrite IH. apply perm_swap.
Qed.

Lemma stable_sort_perm l : Permutation (stable_sort leb l) l.
Proof.
  induction l as [|x l IH]; simpl; [reflexivity|].
  rewrite insert_by_perm. constructor. exact IH.
Qed.

Variable T : A -> A -> Prop.

Lemma insert_by_sorted x l :
  Forall (T x) l ->
  StronglySorted (ordered_with_ties leb T) l ->
  StronglySorted (ordered_with_ties leb T) (insert_by leb x l).
Proof.
  induction l as [|y l IH]; simpl; intros HT Hs.
  - repeat constructor.
  - apply StronglySorted_inv in Hs as [Hs Hy].
    apply Forall_cons in HT as [HTy HT].
    destruct (leb x y) eqn:Hxy.
    + constructor; [constructor; assumption|].
      constructor; [split; auto|].
      rewrite List.Forall_forall in *. intros z Hz. split; [|auto].
      destruct (Hy z Hz) as [Hyz _]. eauto.
    + constructor; [auto|].
      apply (Permutation_Forall (Permutation_sym (insert_by_perm x l))).
      constructor; [|assumption].
      split; [|congruence].
      destruct (leb_total x y); congruence.
Qed.

Lemma stable_sort_sorted l :
  StronglySorted T l -> StronglySorted (ordered_with_ties leb T) (stable_sort leb l).
Proof.
  induction l as [|x l IH]; simpl; intros Hs; [constructor|].
  apply StronglySorted_inv in Hs as [Hs Hx].
  apply insert_by_sorted; [|auto].
  apply (Permutation_Forall (Permutation_sym (stable_sort_perm l))). exact Hx.
Qed.
End StableSort.

Lemma StronglySorted_weaken {A} (R R' : A -> A -> Prop) l :
  (forall a b, R a b -> R' a b) -> StronglySorted R l -> StronglySorted R' l.
Proof.
  intros HR. induction 1 as [|a l Hs IH Ha]; constructor; auto.
  eapply Forall_impl; [exact Ha|]. auto.
Qed.

Lemma StronglySorted_rev {A} (R : A -> A -> Prop) l :
  StronglySorted R l -> StronglySorted (fun a b => R b a) (rev l).
Proof.
  induction 1 as [|a l Hs IH Ha]; simpl; [constructor|].
  apply StronglySorted_app. split; [|split; [exact IH | repeat constructor]].
  intros x1 x2 H1 H2. apply list_elem_of_In in H1, H2.
  destruct H2 as [<-|[]]. apply in_rev in H1.
  rewrite List.Forall_forall in Ha. auto.
Qed.

Lemma StronglySorted_take {A} (R : A -> A -> Prop) n l :
  StronglySorted R l -> StronglySorted R (take n l).
Proof.
  intros H. rewrite <- (take_drop n l) in H.
  eapply StronglySorted_app_1_l. exact H.
Qed.

Lemma StronglySorted_map_fst {K V} (R : K -> K -> Prop) (l : list (K * V)) :
  StronglySorted R (map fst l) <-> StronglySorted (fun a b => R (fst a) (fst b)) l.
Proof.
  induction l as [|a l IH]; simpl.
  - split; constructor.
  - rewrite !StronglySorted_cons, IH, !List.Forall_forall. split.
    + intros [H1 H2]; split; [|auto].
      intros x Hx. apply H1. apply in_map, Hx.
    + intros [H1 H2]; split; [|auto].
      intros k Hk. apply in_map_iff in Hk as ((k' & v) & <- & Hk).
      apply (H1 (k', v)). exact Hk.
Qed.

(** ** Quicksort *)

Lemma StronglySorted_map {A B} (f : A -> B) (R : B -> B -> Prop) (l : list A) :
  StronglySorted (fun x y => R (f x) (f y)) l -> StronglySorted R (map f l).
Proof.
  induction 1 as [|a l Hs IH Ha]; simpl; constructor; [exact IH|].
  apply List.Forall_forall. intros b Hb. apply in_map_iff in Hb as (x & <- & Hx).
  rewrite List.Forall_forall in Ha. auto.
Qed.

Lemma all_unordered {A} (l : list A) : StronglySorted (fun _ _ => True) l.
Proof.
  induction l; constructor; [assumption|]. apply List.Forall_forall. auto.
Qed.

Lemma map_snd_combine {A B} (l : list A) (k : list B) :
  length l = length k -> map snd (combine l k) = k.
Proof.
  revert k. induction l as [|a l IH]; intros [|b k]; simpl; try discriminate; auto.
  intros [= H]. rewrite IH by exact H. reflexivity.
Qed.

Lemma ranks_length (ties : list nat) (n : nat) : length (ranks ties n) = n.
Proof.
  unfold ranks. rewrite length_take, length_app, repeat_length. lia.
Qed.

Lemma quicksort_perm {A} (leb : A -> A -> bool) (ties : list nat) (l : list A) :
  Permutation (quicksort leb ties l) l.
Proof.
  unfold quicksort.
  rewrite (Permutation_map snd (stable_sort_perm (ranked_leb leb) _)).
  rewrite map_snd_combine by apply ranks_length. reflexivity.
Qed.

Section Quicksort.
Context {A : Type} (leb : A -> A -> bool).
Hypothesis leb_total : forall a b, leb a b = true \/ leb b a = true.
Hypothesis leb_trans : forall a b c, leb a b = true -> leb b c = true -> leb a c = true.

Lemma ranked_leb_total (x y : nat * A) :
  ranked_leb leb x y = true \/ ranked_leb leb y x = true.
Proof.
  unfold ranked_leb.
  destruct (leb (snd x) (snd y)) eqn:Hxy, (leb (snd y) (snd x)) eqn:Hyx; simpl; auto.
  - destruct (Nat.leb_spec (fst x) (fst y)); [auto|].
    right. apply Nat.leb_le. lia.
  - destruct (leb_total (snd x) (snd y)); congruence.
Qed.

Lemma ranked_leb_trans (x y z : nat * A) :
  ranked_leb leb x y = true -> ranked_leb leb y z = true -> ranked_leb leb x z = true.
Proof.
  unfold ranked_leb. rewrite !andb_true_iff, !orb_true_iff, !negb_true_iff, !Nat.leb_le.
  intros [Hxy Rxy] [Hyz Ryz]. split; [eauto|].
  destruct (leb (snd z) (snd x)) eqn:Hzx; [right|left; reflexivity].
  assert (Hzy : leb (snd z) (snd y) = true) by eauto.
  assert (Hyx : leb (snd y) (snd x) = true) by eauto.
  destruct Rxy as [Rxy|Rxy]; [congruence|].
  destruct Ryz as [Ryz|Ryz]; [congruence|]. lia.
Qed.

(** Whatever the ranks, the keys come out in ascending order. *)
Lemma quicksort_sorted (ties : list nat) (l : list A) :
  StronglySorted (fun a b => leb a b = true) (quicksort leb ties l).
Proof.
  unfold quicksort. apply StronglySorted_map.
  eapply StronglySorted_weaken;
    [|apply (stable_sort_sorted (ranked_leb leb) ranked_leb_total ranked_leb_trans
               (fun _ _ => True)), all_unordered].
  intros x y [H _]. unfold ranked_leb in H. apply andb_true_iff in H as [H _]. exact H.
Qed.
End Quicksort.

(** ** Group-by *)

Lemma compare_Lt a b : String.compare a b = Lt <-> klt a b.
Proof. apply String_as_OT.cmp_lt. Qed.

Lemma compare_Gt a b : String.compare a b = Gt -> klt b a.
Proof.
  intros H. apply compare_Lt. rewrite String.compare_antisym, H. reflexivity.
Qed.

Lemma klt_irrefl a : ~ klt a a.
Proof. intros H. exact (String_as_OT.lt_not_eq _ _ H eq_refl). Qed.

Lemma klt_trans a b c : klt a b -> klt b c -> klt a c.
Proof. apply String_as_OT.lt_trans. Qed.

Lemma group_add_keys k x g k0 :
  In k0 (map fst (group_add k x g)) <-> k0 = k \/ In k0 (map fst g).
Proof.
  induction g as [|[k' s] g IH]; simpl; [intuition|].
  destruct (String.compare k k') eqn:Hc; simpl.
  - apply String.compare_eq_iff in Hc. subst. intuition.
  - intuition.
  - rewrite IH. intuition.
Qed.

Lemma group_add_sorted k x g :
  StronglySorted klt (map fst g) -> StronglySorted klt (map fst (group_add k x g)).
Proof.
  induction g as [|[k' s] g IH]; simpl; intros Hs.
  - repeat constructor.
  - destruct (String.compare k k') eqn:Hc; simpl.
    + exact Hs.
    + apply compare_Lt in Hc. constructor; [exact Hs|].
      apply StronglySorted_inv in Hs as [_ Hk'].
      constructor; [exact Hc|].
      eapply Forall_impl; [exact Hk'|]. intros c. apply klt_trans. exact Hc.
    + apply compare_Gt in Hc.
      apply StronglySorted_inv in Hs as [Hs Hk'].
      constructor; [auto|].
      rewrite List.Forall_forall in *. intros c Hc'.
      apply group_add_keys in Hc' as [->|Hc']; [exact Hc|].
      apply Hk', Hc'.
Qed.

Lemma group_step_sorted key g r :
  StronglySorted klt (map fst g) -> StronglySorted klt (map fst (group_step key g r)).
Proof. unfold group_step. destruct (key r); [apply group_add_sorted|auto]. Qed.

Lemma fold_group_sorted key rows g :
  StronglySorted klt (map fst g) ->
  StronglySorted klt (map fst (fold_left (group_step key) rows g)).
Proof.
  revert g. induction rows as [|r rows IH]; simpl; intros g Hg; [exact Hg|].
  apply IH, group_step_sorted, Hg.
Qed.

(** The labels of [groupby_sum] are in strictly ascending order. *)
Lemma groupby_sum_sorted key rows :
  StronglySorted klt (map fst (groupby_sum key rows)).
Proof. apply fold_group_sorted. constructor. Qed.

Lemma fold_group_keys key rows g k :
  In k (map fst (fold_left (group_step key) rows g))
  <-> In k (map fst g) \/ exists r, In r rows /\ key r = Some k.
Proof.
  revert g. induction rows as [|r rows IH]; simpl; intros g.
  - split; [auto|]. intros [H|(r & [] & _)]. exact H.
  - rewrite IH. unfold group_step. destruct (key r) as [k'|] eqn:Hk.
    + rewrite group_add_keys. split.
      * intros [[->|H]|(r' & Hin & Hr')]; eauto 6.
      * intros [H|(r' & [<-|Hin] & Hr')]; eauto 6.
        left. left. congruence.
    + split.
      * intros [H|(r' & Hin & Hr')]; eauto 6.
      * intros [H|(r' & [<-|Hin] & Hr')]; eauto 6. congruence.
Qed.

(** A label is in the outcome exactly when some row has it as its key. *)
Lemma groupby_sum_keys key rows k :
  In k (map fst (groupby_sum key rows)) <-> exists r, In r rows /\ key r = Some k.
Proof.
  unfold groupby_sum. rewrite fold_group_keys. simpl. intuition.
Qed.

Lemma assoc_sum_cons k0 k s g :
  assoc_sum k0 ((k, s) :: g)
  = if decide (k = k0) then (s + assoc_sum k0 g)%Q else assoc_sum k0 g.
Proof.
  unfold assoc_sum. rewrite filter_cons. simpl.
  destruct (decide (k = k0)); reflexivity.
Qed.

Lemma group_add_assoc_sum k x g k0 :
  (assoc_sum k0 (group_add k x g)
   == assoc_sum k0 g + (if decide (k = k0) then x else 0))%Q.
Proof.
  induction g as [|[k' s] g IH]; simpl.
  - rewrite assoc_sum_cons. unfold assoc_sum. simpl.
    destruct (decide (k = k0)); ring.
  - destruct (String.compare k k') eqn:Hc.
    + apply String.compare_eq_iff in Hc. subst k'.
      rewrite !assoc_sum_cons. destruct (decide (k = k0)); ring.
    + rewrite !assoc_sum_cons.
      destruct (decide (k = k0)), (decide (k' = k0)); ring.
    + rewrite !assoc_sum_cons.
      destruct (decide (k' = k0)); rewrite IH; ring.
Qed.

Lemma sum_for_cons key k r rows :
  sum_for key k (r :: rows)
  = if decide (key r = Some k)
    then nansum (s_total r :: map s_total (filter (fun r => key r = Some k) rows))
    else sum_for key k rows.
Proof.
  unfold sum_for. rewrite filter_cons.
  destruct (decide (key r = Some k)); reflexivity.
Qed.

Lemma nansum_cons t l : (nansum (t :: l) == nan0 t + nansum l)%Q.
Proof. destruct t; simpl; ring. Qed.

Lemma fold_group_assoc_sum key rows g k :
  (assoc_sum k (fold_left (group_step key) rows g)
   == assoc_sum k g + sum_for key k rows)%Q.
Proof.
  revert g. induction rows as [|r rows IH]; simpl; intros g.
  - unfold sum_for. simpl. ring.
  - rewrite IH, sum_for_cons. unfold group_step.
    destruct (key r) as [k'|] eqn:Hk.
    + rewrite group_add_assoc_sum.
      destruct (decide (k' = k)) as [->|Hne].
      * rewrite decide_True by reflexivity. rewrite nansum_cons. unfold sum_for. ring.
      * rewrite decide_False by congruence. ring.
    + rewrite decide_False by discriminate. reflexivity.
Qed.

Lemma assoc_sum_absent k g : ~ In k (map fst g) -> assoc_sum k g = 0%Q.
Proof.
  induction g as [|[k' s] g IH]; simpl; intros Hk; [reflexivity|].
  rewrite assoc_sum_cons. destruct (decide (k' = k)); [tauto|]. apply IH. tauto.
Qed.

Lemma assoc_sum_In k v g :
  List.NoDup (map fst g) -> In (k, v) g -> (assoc_sum k g == v)%Q.
Proof.
  induction g as [|[k' s] g IH]; simpl; intros Hnd Hin; [tauto|].
  rewrite assoc_sum_cons. apply List.NoDup_cons_iff in Hnd as [Hk' Hnd].
  destruct Hin as [[= -> ->]|Hin].
  - rewrite decide_True by reflexivity. rewrite assoc_sum_absent by exact Hk'. ring.
  - rewrite decide_False; [auto|].
    intros ->. apply Hk'. apply (in_map fst _ _ Hin).
Qed.

Lemma StronglySorted_klt_NoDup l : StronglySorted klt l -> List.NoDup l.
Proof.
  induction 1 as [|a l Hs IH Ha]; constructor; [|exact IH].
  intros Hin. rewrite List.Forall_forall in Ha. exact (klt_irrefl _ (Ha _ Hin)).
Qed.

(** Each entry of [groupby_sum] is the sum of the totals of the rows with
    that key. *)
Lemma groupby_sum_value key rows k v :
  In (k, v) (groupby_sum key rows) -> (v == sum_for key k rows)%Q.
Proof.
  intros Hin.
  rewrite <- (assoc_sum_In k v (groupby_sum key rows)).
  - unfold groupby_sum. rewrite fold_group_assoc_sum. unfold assoc_sum. simpl. ring.
  - apply StronglySorted_klt_NoDup, groupby_sum_sorted.
  - exact Hin.
Qed.

Lemma group_add_qsum k x g :
  (qsum (map snd (group_add k x g)) == qsum (map snd g) + x)%Q.
Proof.
  induction g as [|[k' s] g IH]; simpl; [ring|].
  destruct (String.compare k k'); simpl; [ring|ring|]. rewrite IH. ring.
Qed.

Lemma fold_group_qsum key rows g :
  (qsum (map snd (fold_left (group_step key) rows g))
   == qsum (map snd g)
      + nansum (map s_total (filter (fun r => is_Some (key r)) rows)))%Q.
Proof.
  revert g. induction rows as [|r rows IH]; simpl; intros g; [ring|].
  rewrite IH, filter_cons. unfold group_step.
  destruct (key r) as [k|] eqn:Hk.
  - rewrite decide_True by eauto. rewrite group_add_qsum.
    change (map s_total (r :: ?l)) with (s_total r :: map s_total l).
    rewrite nansum_cons. ring.
  - rewrite decide_False by (intros [? ?]; discriminate). reflexivity.
Qed.

Lemma Qplus_nonneg (a b : Q) : (0 <= a -> 0 <= b -> 0 <= a + b)%Q.
Proof. intros Ha Hb. exact (Qplus_le_compat 0 a 0 b Ha Hb). Qed.

Lemma group_add_nonneg k x g :
  (0 <= x)%Q -> Forall (fun kv => 0 <= snd kv)%Q g ->
  Forall (fun kv => 0 <= snd kv)%Q (group_add k x g).
Proof.
  intros Hx. induction 1 as [|[k' s] g Hs Hg IH]; simpl.
  - repeat constructor. exact Hx.
  - destruct (String.compare k k'); repeat constructor; simpl in *; auto.
    apply Qplus_nonneg; assumption.
Qed.

Lemma fold_group_nonneg key rows g :
  Forall (fun r => 0 <= nan0 (s_total r))%Q rows ->
  Forall (fun kv => 0 <= snd kv)%Q g ->
  Forall (fun kv => 0 <= snd kv)%Q (fold_left (group_step key) rows g).
Proof.
  intros Hrows. revert g. induction Hrows as [|r rows Hr _ IH]; simpl; intros g Hg; [exact Hg|].
  apply IH. unfold group_step. destruct (key r); [|exact Hg].
  apply group_add_nonneg; assumption.
Qed.

(** ** Sums *)

Lemma qsum_perm l l' : Permutation l l' -> (qsum l == qsum l')%Q.
Proof.
  induction 1; simpl; try ring.
  - rewrite IHPermutation. reflexivity.
  - etransitivity; eassumption.
Qed.

Lemma qsum_nonneg l : Forall (fun x => 0 <= x)%Q l -> (0 <= qsum l)%Q.
Proof.
  induction 1; simpl; [apply Qle_refl|]. apply Qplus_nonneg; assumption.
Qed.

Lemma qsum_take_le n l :
  Forall (fun x => 0 <= x)%Q l -> (qsum (take n l) <= qsum l)%Q.
Proof.
  intros H. rewrite <- (take_drop n l) at 2.
  rewrite <- (take_drop n l) in H. apply Forall_app in H as [_ H].
  unfold qsum. rewrite fold_right_app.
  fold (qsum (drop n l)). generalize (qsum_nonneg _ H). generalize (qsum (drop n l)).
  intros q Hq. induction (take n l) as [|x t IH]; simpl; [exact Hq|].
  apply Qplus_le_r. exact IH.
Qed.

Lemma nansum_filter_le (P : srow -> Prop) `{forall r, Decision (P r)} rows :
  Forall (fun r => 0 <= nan0 (s_total r))%Q rows ->
  (nansum (map s_total (filter P rows)) <= nansum (map s_total rows))%Q.
Proof.
  induction 1 as [|r rows Hr _ IH]; simpl; [apply Qle_refl|].
  rewrite filter_cons. rewrite (nansum_cons (s_total r) (map s_total rows)).
  destruct (decide (P r)).
  - change (map s_total (r :: ?l)) with (s_total r :: map s_total l).
    rewrite nansum_cons. apply Qplus_le_r. exact IH.
  - rewrite <- (Qplus_0_l (nansum _)) at 1.
    apply Qplus_le_compat; assumption.
Qed.

(** ** The top categories *)

Lemma revenue_leb_total {K} (a b : K * Q) :
  revenue_leb a b = true \/ revenue_leb b a = true.
Proof.
  unfold revenue_leb. rewrite !Qle_bool_iff.
  destruct (Qlt_le_dec (snd b) (snd a)); [right; apply Qlt_le_weak|left]; assumption.
Qed.

Lemma revenue_leb_trans {K} (a b c : K * Q) :
  revenue_leb a b = true -> revenue_leb b c = true -> revenue_leb a c = true.
Proof. unfold revenue_leb. rewrite !Qle_bool_iff. apply Qle_trans. Qed.

Lemma sort_values_desc_perm {K} (E : env) (g : list (K * Q)) :
  Permutation (sort_values_desc E g) g.
Proof.
  unfold sort_values_desc.
  rewrite <- Permutation_rev, quicksort_perm, <- Permutation_rev. reflexivity.
Qed.

(** The sorted series is in descending order of revenue, whatever the sort
    does with equal revenues. *)
Lemma sort_values_desc_sorted {K} (E : env) (g : list (K * Q)) :
  StronglySorted (fun a b => snd b <= snd a)%Q (sort_values_desc E g).
Proof.
  unfold sort_values_desc.
  eapply StronglySorted_weaken;
    [|apply StronglySorted_rev,
        (quicksort_sorted revenue_leb revenue_leb_total revenue_leb_trans)].
  intros a b H. simpl in H. unfold revenue_leb in H. apply Qle_bool_iff in H. exact H.
Qed.

Lemma groupby_total_le key rows :
  Forall (fun r => 0 <= nan0 (s_total r))%Q rows ->
  (qsum (map snd (groupby_sum key rows)) <= nansum (map s_total rows))%Q.
Proof.
  intros H. unfold groupby_sum. rewrite fold_group_qsum. simpl.
  rewrite Qplus_0_l. apply nansum_filter_le. exact H.
Qed.

Lemma In_take {A} (x : A) n l : In x (take n l) -> In x l.
Proof.
  intros H. rewrite <- (take_drop n l). apply in_or_app. left. exact H.
Qed.

Lemma NoDup_take {A} (n : nat) (l : list A) : List.NoDup l -> List.NoDup (take n l).
Proof.
  intros H. rewrite <- (take_drop n l) in H. exact (NoDup_app_remove_r _ _ H).
Qed.

(** C3 (amended).  Whenever [top_models] is computed, it has at most five
    entries, one per category, each the sum of the totals of the rows of
    its category, in descending order of revenue; and if no row has a
    negative total, the revenues of the entries add to at most
    [total_revenue].  The order of the categories that tie is what the sort
    of pandas leaves: it is fixed by the sums of the categories, so that two
    tables with the same sums get the same list whatever the order of their
    rows. *)
Theorem top_models_properties (E : env) (df : DataFrame) (top : list (string * Q)) :
  top_models E df = Ok top ->
  (length top <= 5)%nat /\
  StronglySorted (fun a b => snd b <= snd a)%Q top /\
  List.NoDup (map fst top) /\
  (forall k v, In (k, v) top -> (v == sum_for s_model k (records df))%Q) /\
  (Forall (fun r => 0 <= nan0 (s_total r))%Q (records df) ->
   (qsum (map snd top) <= total_revenue df)%Q) /\
  (forall df' : DataFrame,
     has_model df' = true ->
     groupby_sum s_model (records df') = groupby_sum s_model (records df) ->
     top_models E df' = Ok top).
Proof.
  unfold top_models, by_model. destruct (has_model df); [|discriminate].
  simpl. intros [= <-].
  set (g := groupby_sum s_model (records df)).
  split; [rewrite length_take; lia|].
  split; [apply StronglySorted_take, sort_values_desc_sorted|].
  split.
  { rewrite <- firstn_map. apply (NoDup_take 5).
    apply (Permutation_NoDup (Permutation_sym (Permutation_map fst (sort_values_desc_perm E g)))).
    apply StronglySorted_klt_NoDup, groupby_sum_sorted. }
  split.
  - intros k v Hin. apply In_take in Hin.
    apply (Permutation_in _ (sort_values_desc_perm E g)) in Hin.
    apply groupby_sum_value. exact Hin.
  - split.
    + intros Hpos.
      assert (Hg : Forall (fun kv : string * Q => 0 <= snd kv)%Q g).
      { apply fold_group_nonneg; [exact Hpos | constructor]. }
      assert (Hs : Forall (fun x => 0 <= x)%Q (map snd (sort_values_desc E g))).
      { apply Forall_map.
        apply (Permutation_Forall (Permutation_sym (sort_values_desc_perm E g))). exact Hg. }
      rewrite <- firstn_map. fold (take 5 (map snd (sort_values_desc E g))).
      eapply Qle_trans; [apply qsum_take_le; exact Hs|].
      rewrite (qsum_perm _ (map snd g)) by (apply Permutation_map, sort_values_desc_perm).
      apply groupby_total_le. exact Hpos.
    + intros df' Hm Hg. rewrite Hm, Hg. reflexivity.
Qed.

Lemma top_models_properties_witness :
  exists top, top_models iso_env tied_frame = Ok top /\
              (length top <= 5)%nat /\
              StronglySorted (fun a b => snd b <= snd a)%Q top /\
              (qsum (map snd top) <= 50)%Q.
Proof.
  destruct (top_models iso_env tied_frame) as [top|e] eqn:Htop;
    [|vm_compute in Htop; discriminate Htop].
  destruct (top_models_properties iso_env tied_frame top Htop)
    as (Hlen & Hsorted & _ & _ & Hsum & _).
  exists top. split; [reflexivity|]. split; [exact Hlen|]. split; [exact Hsorted|].
  apply Hsum. repeat constructor; discriminate.
Defined.

(** C3 as stated fails, in every environment.  [tie_rows] and
    [swapped_tie_rows] have the same rows, with the models A and B, which
    both earn 10, in the two orders.  The sums of the categories are the
    same, so [top_models] is the same list for both tables, while the order
    in which the models are first seen is not: whatever the sort does with
    the tie, one of the two tables has its tie in the other order.  The
    third row has no model and a negative quantity: the revenues of the top
    add to 20, the total revenue is 15. *)
Lemma top_models_ties_not_first_seen :
  (forall E : env,
     _safe_df_from_rows E tie_rows = Ok tie_frame /\
     _safe_df_from_rows E swapped_tie_rows = Ok swapped_tie_frame) /\
  (forall E : env,
     exists top,
       top_models E tie_frame = Ok top /\ top_models E swapped_tie_frame = Ok top /\
       ~ (ties_first_seen tie_frame top /\ ties_first_seen swapped_tie_frame top) /\
       ~ (qsum (map snd top) <= total_revenue tie_frame)%Q).
Proof.
  split; [intros E; split; reflexivity|].
  intros E. exists (take 5 (sort_values_desc E [("A", 10%Q); ("B", 10%Q)])).
  split; [reflexivity|]. split; [reflexivity|].
  pose proof (sort_values_desc_perm E [("A", 10%Q); ("B", 10%Q)]) as Hperm.
  apply Permutation_sym, Permutation_length_2_inv in Hperm.
  destruct Hperm as [-> | ->]; cbn [take firstn].
  - split.
    + intros [H _].
      destruct (H 0%nat 1%nat ("A", 10%Q) ("B", 10%Q) eq_refl eq_refl)
        as (m & n & Hm & Hn & Hlt); [lia|reflexivity|].
      vm_compute in Hm, Hn. injection Hm as <-. injection Hn as <-. lia.
    + vm_compute. intros H. apply H. reflexivity.
  - split.
    + intros [_ H].
      destruct (H 0%nat 1%nat ("B", 10%Q) ("A", 10%Q) eq_refl eq_refl)
        as (m & n & Hm & Hn & Hlt); [lia|reflexivity|].
      vm_compute in Hm, Hn. injection Hm as <-. injection Hn as <-. lia.
    + vm_compute. intros H. apply H. reflexivity.
Qed.

(** ** The order count *)

Lemma assemble_order_ids rows qs ps :
  length qs = length rows -> length ps = length rows ->
  omap s_order_id (assemble rows qs ps) = omap (fun r => label (order_id r)) rows.
Proof.
  revert qs ps. induction rows as [|r rows IH]; intros [|q qs] [|p ps];
    try discriminate; auto.
  intros [= Hq] [= Hp]. specialize (IH _ _ Hq Hp).
  cbn [assemble]. unfold omap in *. cbn [list_omap s_order_id]. rewrite IH. reflexivity.
Qed.

Lemma label_Some c s : label c = Some s <-> c = Val s.
Proof. destruct c; simpl; split; congruence. Qed.

(** C9 (amended).  When some row has the key [order_id], the order count is
    the number of distinct [order_id] values of the table, the empty string
    being a value like any other and rows without a value not being counted;
    when no row has the key, it is the number of rows. *)
Theorem orders_counts_distinct_ids (E : env) (rows : list raw_row) (df : DataFrame) :
  _safe_df_from_rows E rows = Ok df ->
  (in_columns order_id rows = true ->
   exists ids : list string,
     NoDup ids /\
     (forall s, In s ids <-> exists r, In r rows /\ order_id r = Val s) /\
     orders df = length ids) /\
  (in_columns order_id rows = false -> orders df = length rows).
Proof.
  intros H.
  destruct (_safe_df_from_rows_Ok _ _ _ H) as (fr & qs & ps & Hfr & _ & _ & Lq & Lp & ->).
  unfold orders; cbn [records has_order_id]. split; intros Hcol; rewrite Hcol.
  - exists (remove_dups (omap (fun r => label (order_id r)) rows)).
    split; [apply NoDup_remove_dups|]. split.
    + intros s. rewrite <- list_elem_of_In, elem_of_remove_dups, list_elem_of_omap.
      split; intros (r & Hr & Hs); exists r.
      * apply list_elem_of_In in Hr. apply label_Some in Hs. auto.
      * split; [apply list_elem_of_In; exact Hr | apply label_Some; exact Hs].
    + rewrite assemble_order_ids by assumption. reflexivity.
  - apply assemble_length; assumption.
Qed.

Lemma orders_counts_distinct_ids_witness :
  exists df, _safe_df_from_rows iso_env scenario_rows = Ok df /\ orders df = 2%nat.
Proof.
  destruct (_safe_df_from_rows iso_env scenario_rows) as [df|e] eqn:H; [|discriminate H].
  exists df. split; [reflexivity|].
  destruct (orders_counts_distinct_ids iso_env scenario_rows df H) as [Hsome _].
  destruct (Hsome eq_refl) as (ids & _ & _ & Hlen).
  vm_compute in H. injection H as <-. reflexivity.
Defined.

(** C9 as stated fails: in [blank_id_rows] no row has a non-empty
    [order_id], so the count should be the number of rows, 2; the column
    exists and holds one distinct value, the empty string, so the count
    is 1. *)
Lemma orders_counts_blank_id :
  ~ (forall (E : env) (rows : list raw_row) (df : DataFrame),
       _safe_df_from_rows E rows = Ok df ->
       ~ (exists r, In r rows /\ nonempty_id (order_id r)) ->
       orders df = length rows).
Proof.
  intros H.
  destruct (_safe_df_from_rows iso_env blank_id_rows) as [df|e] eqn:Hdf; [|discriminate Hdf].
  specialize (H iso_env blank_id_rows df Hdf).
  vm_compute in Hdf. injection Hdf as <-.
  assert (Hn : orders (Frame true true true
                 [SRow (Some "2024-01-01") (Some "") (Some "X") 1 (Some 10%Q) (Some 10%Q);
                  SRow (Some "2024-01-02") (Some "") (Some "Y") 1 (Some 5%Q) (Some 5%Q)])
               = 1%nat) by reflexivity.
  rewrite Hn in H. simpl in H.
  assert (1 = 2)%nat as Habs; [|discriminate Habs].
  apply H. intros (r & [<-|[<-|[]]] & (s & Hs & Hne)); simpl in Hs; congruence.
Qed.

(** ** Rows without a model *)

(** The numeric columns do not depend on the [model] cells. *)
Lemma with_model_accepted (E : env) (f : raw_row -> cell string) rows df :
  _safe_df_from_rows E rows = Ok df ->
  exists df', _safe_df_from_rows E (map (fun r => with_model (f r) r) rows) = Ok df'.
Proof.
  intros H.
  destruct (_safe_df_from_rows_Ok _ _ _ H) as (fr & qs & ps & Hfr & Hq & Hp & _ & _ & _).
  assert (Hfr' : pd_DataFrame (map (fun r => with_model (f r) r) rows) = Ok fr).
  { rewrite <- Hfr. unfold pd_DataFrame.
    rewrite (column_of_ext quantity quantity _ rows) by (rewrite List.map_map; reflexivity).
    rewrite (column_of_ext unit_price unit_price _ rows) by (rewrite List.map_map; reflexivity).
    rewrite (column_of_ext price price _ rows) by (rewrite List.map_map; reflexivity).
    rewrite (column_of_ext total total _ rows) by (rewrite List.map_map; reflexivity).
    reflexivity. }
  unfold _safe_df_from_rows. rewrite Hfr'. cbn [rbind].
  unfold quantity_column, unit_price_column in *. rewrite !List.map_map.
  rewrite Hq. cbn [rbind]. rewrite Hp. cbn [rbind]. eauto.
Qed.

Lemma assemble_models rows qs ps r' :
  In r' (assemble rows qs ps) ->
  exists r, In r rows /\ s_model r' = label (model r).
Proof.
  revert qs ps. induction rows as [|r rows IH]; intros [|q qs] [|p ps]; simpl; try tauto.
  intros [<-|Hin].
  - exists r. auto.
  - destruct (IH _ _ Hin) as (r0 & Hr0 & Hm). exists r0. auto.
Qed.

Lemma fold_group_dropna key rows g :
  fold_left (group_step key) rows g
  = fold_left (group_step key) (filter (fun r => is_Some (key r)) rows) g.
Proof.
  revert g. induction rows as [|r rows IH]; intros g; [reflexivity|].
  rewrite filter_cons. destruct (decide (is_Some (key r))) as [Hs|Hn]; simpl.
  - apply IH.
  - unfold group_step at 2. destruct (key r); [|apply IH].
    exfalso. apply Hn. eauto.
Qed.

(** Without a [model] column the group-by raises KeyError. *)
Lemma by_model_without_column (E : env) rows df :
  _safe_df_from_rows E rows = Ok df -> in_columns model rows = false ->
  by_model E df = Err (KeyError "model").
Proof.
  intros H Hcol.
  destruct (_safe_df_from_rows_Ok _ _ _ H) as (fr & qs & ps & _ & _ & _ & _ & _ & ->).
  unfold by_model. simpl. rewrite Hcol. reflexivity.
Qed.

(** Without a [model] column [generate_pdf] raises KeyError before it
    touches the file system. *)
Lemma generate_pdf_without_model_column E rows out_pdf_path title fs df :
  _safe_df_from_rows E rows = Ok df -> in_columns model rows = false ->
  generate_pdf E rows out_pdf_path title fs = (Err (KeyError "model"), fs).
Proof.
  intros Hdf Hcol. unfold generate_pdf, bind, lift. rewrite Hdf.
  unfold top_models. rewrite (by_model_without_column E rows df Hdf Hcol). reflexivity.
Qed.

(** C6 (amended).  The [model] cells play no part in normalisation: a table
    that normalises still does whatever its model cells are.  A row without
    a model is left out of the grouping by model, which is that of the rows
    that have one; its total still counts in [total_revenue].  Every label
    of the grouped series is the model of some input row, so no bucket is
    made for the rows without a model. *)
Theorem rows_without_model_are_left_out (E : env) (rows : list raw_row) (df : DataFrame) :
  _safe_df_from_rows E rows = Ok df ->
  (forall f : raw_row -> cell string,
     exists df', _safe_df_from_rows E (map (fun r => with_model (f r) r) rows) = Ok df') /\
  (total_revenue df == sum_priced_products (records df))%Q /\
  groupby_sum s_model (records df)
  = groupby_sum s_model (filter (fun r => is_Some (s_model r)) (records df)) /\
  (forall g k v, by_model E df = Ok g -> In (k, v) g ->
     exists r, In r rows /\ model r = Val k).
Proof.
  intros H.
  pose proof (fun f => with_model_accepted E f rows df H) as Hmodel.
  destruct (_safe_df_from_rows_Ok _ _ _ H) as (fr & qs & ps & Hfr & Hq & Hp & Lq & Lp & ->).
  split; [exact Hmodel|]. split; [|split].
  - apply nansum_products, assemble_total.
  - apply fold_group_dropna.
  - intros g k v Hg Hin. unfold by_model in Hg. simpl in Hg.
    destruct (in_columns model rows); [|discriminate]. injection Hg as <-.
    apply (Permutation_in _ (sort_values_desc_perm E _)) in Hin.
    apply (in_map fst) in Hin. simpl in Hin.
    apply groupby_sum_keys in Hin as (r' & Hr' & Hk).
    destruct (assemble_models _ _ _ _ Hr') as (r & Hr & Hm).
    exists r. split; [exact Hr|]. apply label_Some. congruence.
Qed.

Lemma rows_without_model_are_left_out_witness :
  exists df, _safe_df_from_rows iso_env mixed_model_rows = Ok df /\
             (total_revenue df == 25)%Q /\
             by_model iso_env df = Ok [("X", 20%Q)].
Proof.
  destruct (_safe_df_from_rows iso_env mixed_model_rows) as [df|e] eqn:H; [|discriminate H].
  exists df.
  destruct (rows_without_model_are_left_out iso_env mixed_model_rows df H)
    as (_ & Hrev & _ & _).
  split; [reflexivity|].
  vm_compute in H. injection H as <-.
  split; reflexivity.
Defined.

(** C6 as stated fails: [mixed_model_rows] has a row without a model next to
    a row of model X; normalisation succeeds and the top categories are X
    alone, with no entry labelled "unknown" and with the revenue of the
    other row in no entry. *)
Lemma no_unknown_bucket :
  ~ (forall (E : env) (rows : list raw_row) (df : DataFrame) (r : raw_row),
       _safe_df_from_rows E rows = Ok df -> In r rows -> label (model r) = None ->
       exists top v, top_models E df = Ok top /\ In ("unknown", v) top).
Proof.
  intros H.
  destruct (_safe_df_from_rows iso_env mixed_model_rows) as [df|e] eqn:Hdf; [|discriminate Hdf].
  destruct (H iso_env mixed_model_rows df (no_model_row "2024-01-01" "A2" 1 5) Hdf)
    as (top & v & Htop & Hin).
  - simpl. auto.
  - reflexivity.
  - vm_compute in Hdf. injection Hdf as <-.
    vm_compute in Htop. injection Htop as <-.
    destruct Hin as [Hin|[]]. discriminate Hin.
Qed.

(** ** The empty table *)

(** C2 (amended).  On the empty list normalisation succeeds with an empty
    frame, the total revenue is 0 and the order count 0; [generate_pdf] then
    raises KeyError at the group-by on the missing [model] column.  Nothing
    has touched the file system by then: it is left as it was, so the call
    creates no file at [out_pdf_path]. *)
Theorem generate_pdf_empty_input (E : env) (out_pdf_path : path) (title : option string)
    (fs : gmap path node) :
  _safe_df_from_rows E [] = Ok (Frame false false false []) /\
  (total_revenue (Frame false false false []) == 0)%Q /\
  orders (Frame false false false []) = 0%nat /\
  generate_pdf E [] out_pdf_path title fs = (Err (KeyError "model"), fs).
Proof. repeat split. Qed.

(** C2 as stated fails: the exception is not EmptyInputError, and a file
    that was at [out_pdf_path] before the call is still there. *)
Lemma generate_pdf_empty_not_EmptyInputError :
  ~ (forall (E : env) (out_pdf_path : path) (title : option string) (fs : gmap path node),
       exists msg fs',
         generate_pdf E [] out_pdf_path title fs = (Err (Exn "EmptyInputError" msg), fs') /\
         fs' !! out_pdf_path = None).
Proof.
  intros H.
  destruct (H iso_env ["generated_reports"; "jan.pdf"] (Some "t") ∅) as (msg & fs' & Hrun & _).
  vm_compute in Hrun. discriminate Hrun.
Qed.

(** ** The daily series *)

Lemma date_leb_total (a b : datetime * Q) : date_leb a b = true \/ date_leb b a = true.
Proof.
  unfold date_leb. destruct (fst a) as [|x], (fst b) as [|y]; auto.
  destruct (Z.leb_spec x y); [left; reflexivity|right]. apply Z.leb_le. lia.
Qed.

Lemma date_leb_trans (a b c : datetime * Q) :
  date_leb a b = true -> date_leb b c = true -> date_leb a c = true.
Proof.
  unfold date_leb. destruct (fst a) as [|x], (fst b) as [|y], (fst c) as [|z];
    try reflexivity; try discriminate.
  rewrite !Z.leb_le. lia.
Qed.

Lemma date_leb_lt (a b : datetime * Q) :
  date_leb a b = true -> fst a <> fst b -> date_lt (fst a) (fst b).
Proof.
  unfold date_leb, date_lt. destruct (fst a) as [|x], (fst b) as [|y]; try congruence; auto.
  rewrite Z.leb_le. intros Hle Hne.
  assert (x <> y) by congruence. lia.
Qed.

Lemma filter_partition_perm {A} (f : A -> bool) (l : list A) :
  Permutation (List.filter (fun a => negb (f a)) l ++ List.filter f l) l.
Proof.
  induction l as [|a l IH]; simpl; [reflexivity|].
  destruct (f a); simpl.
  - rewrite <- Permutation_middle. constructor. exact IH.
  - constructor. exact IH.
Qed.

Lemma sort_by_date_perm (E : env) (l : list (datetime * Q)) :
  Permutation (sort_by_date E l) l.
Proof. unfold sort_by_date. rewrite quicksort_perm. apply filter_partition_perm. Qed.

(** Whatever the sort does with equal dates, the series comes out in
    ascending order of date, NaT last. *)
Lemma sort_by_date_sorted (E : env) (l : list (datetime * Q)) :
  StronglySorted (fun a b => date_leb a b = true) (sort_by_date E l).
Proof.
  assert (Hlast : forall a b, is_NaT b = true -> date_leb a b = true).
  { intros a b Hb. unfold is_NaT in Hb. unfold date_leb.
    destruct (fst b); [|discriminate]. destruct (fst a); reflexivity. }
  unfold sort_by_date. apply StronglySorted_app. split; [|split].
  - intros a b _ Hb. apply list_elem_of_In, List.filter_In in Hb as [_ Hb]. auto.
  - apply (quicksort_sorted date_leb date_leb_total date_leb_trans).
  - induction l as [|a l IH]; simpl; [constructor|].
    destruct (is_NaT a); [|exact IH]. constructor; [exact IH|].
    apply List.Forall_forall. intros b Hb. apply List.filter_In in Hb as [_ Hb]. auto.
Qed.

Lemma StronglySorted_NoDup_strict (l : list (datetime * Q)) :
  StronglySorted (fun a b => date_leb a b = true) l ->
  NoDup (map fst l) ->
  StronglySorted (fun a b => date_lt (fst a) (fst b)) l.
Proof.
  induction 1 as [|a l Hs IH Ha]; simpl; intros Hnd; [constructor|].
  apply NoDup_cons in Hnd as [Hnotin Hnd].
  constructor; [auto|].
  rewrite List.Forall_forall in *. intros b Hb.
  apply date_leb_lt; [auto|].
  intros Heq. apply Hnotin. rewrite Heq. apply list_elem_of_In, in_map, Hb.
Qed.

(** C7 (amended).  The daily series groups the rows on equality of the date
    field as it is written: the raw dates of the groups are pairwise
    distinct (strictly ascending as strings), they are the dates that occur
    in the table, and the revenue of each is the sum of the totals of its
    rows.  The dates are parsed after the grouping, and the series is then
    sorted by parsed date: it is in ascending order, NaT last, and strictly
    ascending (no two entries with the same date) exactly when the raw dates
    of the table parse to distinct dates. *)
Theorem daily_series_properties (E : env) (df : DataFrame) (daily : list (datetime * Q)) :
  daily_series E df = Ok daily ->
  let g := groupby_sum s_date (records df) in
  StronglySorted klt (map fst g) /\
  (forall k, In k (map fst g) <-> exists r, In r (records df) /\ s_date r = Some k) /\
  (forall k v, In (k, v) g -> (v == sum_for s_date k (records df))%Q) /\
  (exists ds, to_datetime E (map fst g) = Some ds /\ length ds = length g /\
              Permutation daily (combine ds (map snd g))) /\
  StronglySorted (fun a b => date_leb a b = true) daily /\
  (NoDup (map fst daily) <-> StronglySorted (fun a b => date_lt (fst a) (fst b)) daily).
Proof.
  unfold daily_series. destruct (has_date df); [|discriminate].
  set (g := groupby_sum s_date (records df)). intros H.
  destruct (to_datetime E (map fst g)) as [ds|] eqn:Hds; [|discriminate].
  destruct (Nat.eqb_spec (length ds) (length g)) as [Hlen|]; [|discriminate].
  injection H as <-.
  assert (Hsorted : StronglySorted (fun a b => date_leb a b = true)
                      (sort_by_date E (combine ds (map snd g))))
    by apply sort_by_date_sorted.
  split; [apply groupby_sum_sorted|].
  split; [apply groupby_sum_keys|].
  split; [apply groupby_sum_value|].
  split; [exists ds; split; [reflexivity|split; [exact Hlen|apply sort_by_date_perm]]|].
  split; [exact Hsorted|].
  split; [apply StronglySorted_NoDup_strict; exact Hsorted|].
  generalize (sort_by_date E (combine ds (map snd g))). clear.
  induction 1 as [|a l Hs IH Ha]; simpl; constructor; [|exact IH].
  intros Hin. apply list_elem_of_In, in_map_iff in Hin as (b & Hb & Hin).
  rewrite List.Forall_forall in Ha. specialize (Ha b Hin). rewrite Hb in Ha.
  destruct (fst a) as [|x]; simpl in Ha; [exact Ha|lia].
Qed.

Lemma daily_series_properties_witness :
  StronglySorted (fun a b => date_leb a b = true) [(Timestamp 19723, 25%Q)] /\
  exists r, In r [SRow (Some "2024-01-01") (Some "A1") (Some "X") 2 (Some 10%Q) (Some 20%Q);
                  SRow (Some "2024-01-01") (Some "A2") (Some "Y") 1 (Some 5%Q) (Some 5%Q)]
            /\ s_date r = Some "2024-01-01".
Proof.
  pose (df := Frame true true true
                [SRow (Some "2024-01-01") (Some "A1") (Some "X") 2 (Some 10%Q) (Some 20%Q);
                 SRow (Some "2024-01-01") (Some "A2") (Some "Y") 1 (Some 5%Q) (Some 5%Q)]).
  destruct (daily_series_properties iso_env df [(Timestamp 19723, 25%Q)] eq_refl)
    as (_ & Hkeys & _ & _ & Hsorted & _).
  split; [exact Hsorted|].
  apply (Hkeys "2024-01-01"). simpl. auto.
Defined.

(** C7 as stated fails: [two_spellings_rows] writes the first of January
    2024 in two ways.  The group-by, on the strings, keeps two groups; both
    parse to the same date, so the sorted series has that date twice. *)
Lemma daily_series_duplicate_date :
  ~ (forall (E : env) (rows : list raw_row) (df : DataFrame) (daily : list (datetime * Q)),
       _safe_df_from_rows E rows = Ok df -> daily_series E df = Ok daily ->
       StronglySorted (fun a b => date_lt (fst a) (fst b)) daily).
Proof.
  intros H.
  destruct (_safe_df_from_rows iso_env two_spellings_rows) as [df|e] eqn:Hdf; [|discriminate Hdf].
  destruct (daily_series iso_env df) as [daily|e] eqn:Hdaily;
    [|vm_compute in Hdf; injection Hdf as <-; discriminate Hdaily].
  specialize (H iso_env two_spellings_rows df daily Hdf Hdaily).
  vm_compute in Hdf. injection Hdf as <-.
  vm_compute in Hdaily. injection Hdaily as <-.
  apply StronglySorted_inv in H as [_ H].
  apply Forall_cons in H as [H _]. simpl in H. lia.
Qed.

(** ** The e-mail simulator *)

Lemma append_cons a s t : String a s +:+ t = String a (s +:+ t).
Proof. reflexivity. Qed.

Lemma length_append s t : String.length (s +:+ t) = (String.length s + String.length t)%nat.
Proof.
  induction s as [|a s IH]; [reflexivity|].
  rewrite append_cons. simpl. rewrite IH. reflexivity.
Qed.

Lemma list_ascii_append s t :
  list_ascii_of_string (s +:+ t) = list_ascii_of_string s ++ list_ascii_of_string t.
Proof.
  induction s as [|a s IH]; [reflexivity|].
  rewrite append_cons. simpl. rewrite IH. reflexivity.
Qed.

Lemma string_of_uint_digits d :
  Forall (fun a => is_digit a = true) (list_ascii_of_string (NilEmpty.string_of_uint d)).
Proof. induction d; simpl; constructor; auto. Qed.

Lemma string_of_nat_digits n :
  Forall (fun a => is_digit a = true) (list_ascii_of_string (string_of_nat n)).
Proof.
  unfold string_of_nat, NilZero.string_of_uint.
  destruct (Nat.to_uint n); try apply string_of_uint_digits.
  repeat constructor.
Qed.

(** The name of a metadata file has no underscore; the name of a saved copy
    has one. *)
Lemma meta_name_ne_saved_name n ts nm :
  string_of_nat n +:+ ".json" <> ts +:+ "_" +:+ nm.
Proof.
  intros Heq. apply (f_equal list_ascii_of_string) in Heq.
  rewrite !list_ascii_append in Heq.
  assert (Hin : In "_"%char (list_ascii_of_string (string_of_nat n) ++ list_ascii_of_string ".json")).
  { rewrite Heq. apply in_or_app. right. simpl. auto. }
  apply in_app_or in Hin as [Hin|Hin].
  - pose proof (string_of_nat_digits n) as Hd. rewrite List.Forall_forall in Hd.
    specialize (Hd _ Hin). discriminate Hd.
  - simpl in Hin. repeat (destruct Hin as [Hin|Hin]; [discriminate Hin|]). exact Hin.
Qed.

Lemma name_snoc (d : path) (n : string) : name (d ++ [n]) = n.
Proof. unfold name. apply List.last_last. Qed.

Lemma parent_snoc (d : path) (n : string) : parent (d ++ [n]) = d.
Proof. unfold parent. apply List.removelast_last. Qed.

Lemma snoc_ne_nil (d : path) (n : string) : d ++ [n] <> [].
Proof. destruct d; discriminate. Qed.

Lemma stat_snoc (d : path) (n : string) fs : stat (d ++ [n]) fs = fs !! (d ++ [n]).
Proof. unfold stat. destruct (d ++ [n]) eqn:H; [|reflexivity]. destruct d; discriminate. Qed.

(** The copy is never saved over its source. *)
Lemma dest_pdf_ne_source E p : p <> dest_pdf E p.
Proof.
  intros Heq. apply (f_equal name) in Heq. unfold dest_pdf in Heq.
  rewrite name_snoc in Heq. apply (f_equal String.length) in Heq.
  rewrite !length_append in Heq. simpl in Heq. lia.
Qed.

Lemma write_file_ok (d : path) (n : string) c fs :
  fs !! (d ++ [n]) <> Some Dir -> stat d fs = Some Dir ->
  write_file (d ++ [n]) c fs = (Ok tt, <[d ++ [n] := File c]> fs).
Proof.
  intros Hnd Hd. unfold write_file. rewrite stat_snoc, parent_snoc, Hd.
  destruct (fs !! (d ++ [n])) as [[|c']|]; [congruence|reflexivity|reflexivity].
Qed.

(** Writing a file at [p] adds one to the count when the name of [p] ends in
    [.json], [p] is an entry of [d] and nothing was at [p]. *)
Lemma count_json_insert (d p : path) (x : node) (fs : gmap path node) :
  count_json d (<[p := x]> fs)
  = (count_json d fs
     + if decide (json_in d (p, x))
       then match fs !! p with None => 1 | Some _ => 0 end
       else 0)%nat.
Proof.
  unfold count_json. rewrite map_filter_insert.
  destruct (decide (json_in d (p, x))) as [Hj|Hj].
  - rewrite map_size_insert, map_lookup_filter.
    destruct (fs !! p) as [y|] eqn:Hp; simpl.
    + rewrite option_guard_True by exact Hj. simpl. lia.
    + lia.
  - rewrite map_filter_delete_not; [lia|].
    intros y _ Hy. apply Hj. exact Hy.
Qed.

Lemma copyfile_ok E p c fs :
  stat p fs = Some (File c) -> fs !! SENT_DIR = Some Dir ->
  fs !! dest_pdf E p <> Some Dir ->
  copyfile p (dest_pdf E p) fs = (Ok tt, <[dest_pdf E p := File c]> fs).
Proof.
  intros Hp Hd Hnd. unfold copyfile.
  rewrite bool_decide_eq_false_2 by apply dest_pdf_ne_source. simpl.
  rewrite Hp. unfold dest_pdf in *. apply write_file_ok; [exact Hnd|exact Hd].
Qed.

Lemma child_of_snoc (d : path) (n : string) : child_of d (d ++ [n]).
Proof. split; [apply snoc_ne_nil | apply parent_snoc]. Qed.

Lemma copy_counts_insert E p c fs :
  count_json SENT_DIR (<[dest_pdf E p := File c]> fs)
  = (count_json SENT_DIR fs + copy_counts E p fs)%nat.
Proof.
  rewrite count_json_insert. unfold copy_counts. f_equal.
  destruct (matches_json (now_stamp E +:+ "_" +:+ name p)) eqn:Hm.
  - rewrite decide_True; [reflexivity|].
    split; [apply child_of_snoc|]. simpl. unfold dest_pdf. rewrite name_snoc. exact Hm.
  - rewrite decide_False; [reflexivity|].
    intros [_ Hj]. simpl in Hj. unfold dest_pdf in Hj. rewrite name_snoc in Hj. congruence.
Qed.

(** C10 (amended).  If nothing exists at [pdf_path], [send_simulated_email]
    raises FileNotFoundError and the file system is as before: no copy, no
    metadata file.  If [pdf_path] is a file, [sent_emails] is a directory and
    none of its entries is a directory, the call returns the metadata; its
    [attachment] is the name of the copy, which is in [sent_emails] with the
    content of the source; the metadata is written under [<id>.json]; and
    [id] is one more than the number of entries of [sent_emails] that match
    [*.json] once the copy is made, that is one more than their number before
    the call, plus one if the copy itself matches and is new. *)
Theorem send_simulated_email_properties (E : env) (pdf_path : path)
    (sender recipient subject body : string) (fs : gmap path node) :
  (exists_ pdf_path fs = false ->
   send_simulated_email E pdf_path sender recipient subject body fs
   = (Err (OSError "FileNotFoundError" pdf_path), fs)) /\
  (forall c, stat pdf_path fs = Some (File c) ->
     fs !! SENT_DIR = Some Dir ->
     (forall q, child_of SENT_DIR q -> fs !! q <> Some Dir) ->
     exists m fs',
       send_simulated_email E pdf_path sender recipient subject body fs = (Ok m, fs') /\
       m_attachment m = name (dest_pdf E pdf_path) /\
       fs' !! dest_pdf E pdf_path = Some (File c) /\
       fs' !! (SENT_DIR ++ [string_of_nat (m_id m) +:+ ".json"]) = Some (File (Json m)) /\
       m_id m = (count_json SENT_DIR fs + copy_counts E pdf_path fs + 1)%nat).
Proof.
  split.
  - intros Hno. unfold send_simulated_email. rewrite Hno. reflexivity.
  - intros c Hp Hd Hfiles.
    set (dest := dest_pdf E pdf_path).
    set (fs1 := <[dest := File c]> fs).
    set (n := count_json SENT_DIR fs1).
    set (m := Meta (n + 1) (now_stamp E) sender recipient subject body
                (now_stamp E +:+ "_" +:+ name pdf_path)).
    set (meta_file := SENT_DIR ++ [string_of_nat (n + 1) +:+ ".json"]).
    assert (Hne : dest <> meta_file).
    { unfold dest, dest_pdf, meta_file. intros Heq. apply app_inv_head in Heq.
      injection Heq as Heq. symmetry in Heq. exact (meta_name_ne_saved_name _ _ _ Heq). }
    assert (Hcopy : copyfile pdf_path dest fs = (Ok tt, fs1)).
    { apply copyfile_ok; [exact Hp|exact Hd|]. apply Hfiles, child_of_snoc. }
    assert (Hwrite : write_file meta_file (Json m) fs1 = (Ok tt, <[meta_file := File (Json m)]> fs1)).
    { apply write_file_ok.
      - unfold fs1. rewrite lookup_insert_ne by exact Hne. apply Hfiles, child_of_snoc.
      - unfold fs1, stat, SENT_DIR. rewrite lookup_insert_ne by discriminate. exact Hd. }
    exists m, (<[meta_file := File (Json m)]> fs1).
    split; [|split; [|split; [|split]]].
    + unfold send_simulated_email, exists_. rewrite Hp. cbn [negb].
      unfold bind.
      change (SENT_DIR ++ [now_stamp E +:+ "_" +:+ name pdf_path]) with dest.
      rewrite Hcopy. cbn [m_id]. fold n. fold m. fold meta_file.
      rewrite Hwrite. reflexivity.
    + unfold dest, dest_pdf. rewrite name_snoc. reflexivity.
    + rewrite lookup_insert_ne by congruence. apply lookup_insert_eq.
    + apply lookup_insert_eq.
    + simpl. unfold n, fs1, dest. rewrite copy_counts_insert. reflexivity.
Qed.

Lemma send_simulated_email_properties_witness :
  send_simulated_email iso_env ["generated_reports"; "feb.pdf"] "a@x" "b@x" "s" "b" sent_store
  = (Err (OSError "FileNotFoundError" ["generated_reports"; "feb.pdf"]), sent_store) /\
  exists m fs',
    send_simulated_email iso_env ["generated_reports"; "jan.pdf"] "a@x" "b@x" "s" "b" sent_store
    = (Ok m, fs') /\
    m_attachment m = "2024-02-01_09-30-00_jan.pdf" /\
    fs' !! (SENT_DIR ++ ["2024-02-01_09-30-00_jan.pdf"]) = Some (File (Raw "%PDF")) /\
    m_id m = 1%nat.
Proof.
  destruct (send_simulated_email_properties iso_env ["generated_reports"; "feb.pdf"]
              "a@x" "b@x" "s" "b" sent_store) as [Hmissing _].
  split; [apply Hmissing; reflexivity|].
  destruct (send_simulated_email_properties iso_env ["generated_reports"; "jan.pdf"]
              "a@x" "b@x" "s" "b" sent_store) as [_ Hsend].
  destruct (Hsend (Raw "%PDF")) as (m & fs' & Hrun & Hatt & Hcopy & _ & Hid).
  - reflexivity.
  - reflexivity.
  - intros q [Hq1 Hq2] Hdir. unfold sent_store in Hdir.
    apply lookup_insert_Some in Hdir as [[_ [=]]|[_ Hdir]].
    apply lookup_insert_Some in Hdir as [[<- _]|[_ Hdir]]; [discriminate Hq2|].
    apply lookup_insert_Some in Hdir as [[<- _]|[_ Hdir]]; [discriminate Hq2|].
    rewrite lookup_empty in Hdir. discriminate Hdir.
  - exists m, fs'. split; [exact Hrun|]. split; [exact Hatt|]. split; [exact Hcopy|].
    rewrite Hid. reflexivity.
Defined.

(** C10 as stated fails for the id: when the file sent is itself named
    [*.json], its copy is in [sent_emails] before the metadata files are
    counted.  With no metadata file present before the call the id is 2,
    not 1. *)
Lemma send_simulated_email_counts_the_copy :
  ~ (forall (E : env) (pdf_path : path) (sender recipient subject body : string)
            (fs fs' : gmap path node) (m : meta),
       send_simulated_email E pdf_path sender recipient subject body fs = (Ok m, fs') ->
       m_id m = S (count_json SENT_DIR fs)).
Proof.
  intros H.
  pose proof (surjective_pairing
                (send_simulated_email iso_env ["data"; "jan.json"] "a@x" "b@x" "s" "b"
                   json_named_store)) as Hrun.
  assert (Hfst : fst (send_simulated_email iso_env ["data"; "jan.json"] "a@x" "b@x" "s" "b"
                        json_named_store)
                 = Ok (Meta 2 "2024-02-01_09-30-00" "a@x" "b@x" "s" "b"
                         "2024-02-01_09-30-00_jan.json")) by (vm_compute; reflexivity).
  rewrite Hfst in Hrun.
  specialize (H _ _ _ _ _ _ _ _ _ Hrun). cbn [m_id] in H.
  assert (Hcount : count_json SENT_DIR json_named_store = 0%nat) by (vm_compute; reflexivity).
  rewrite Hcount in H. discriminate H.
Qed.

(** ** Temporary chart files *)

(** On the path without failure the two images and their directory are
    gone when [generate_pdf] returns: only the report and its directory are
    left. *)
Lemma generate_pdf_success_cleans_up :
  let run := generate_pdf iso_env scenario_rows jan_pdf (Some "Sales Report - jan") ∅ in
  fst run = Ok jan_pdf /\
  snd run !! jan_tmpdir = None /\
  snd run !! (jan_tmpdir ++ ["pie.png"]) = None /\
  snd run !! (jan_tmpdir ++ ["daily.png"]) = None /\
  (exists doc, snd run !! jan_pdf = Some (File (Pdf doc)) /\ (r_total_revenue doc == 25)%Q).
Proof.
  repeat split; try (vm_compute; reflexivity).
  eexists. split; vm_compute; reflexivity.
Qed.

(** C8.  The clean-up of [generate_pdf] is its last block and nothing runs it
    when an earlier statement raises.  With [generated_reports] a regular
    file, [mkdir] raises FileExistsError after the charts were made; with
    the report path a directory, writing the document raises
    IsADirectoryError.  Either way the temporary directory and both images
    are still there when the exception leaves [generate_pdf]. *)
Theorem generate_pdf_failure_leaves_charts :
  (let run := generate_pdf iso_env scenario_rows jan_pdf (Some "Sales Report - jan")
                blocked_store in
   (exists msg, fst run = Err (Exn "FileExistsError" msg)) /\
   snd run !! jan_tmpdir = Some Dir /\
   (exists c, snd run !! (jan_tmpdir ++ ["pie.png"]) = Some (File c)) /\
   (exists c, snd run !! (jan_tmpdir ++ ["daily.png"]) = Some (File c))) /\
  (let run := generate_pdf iso_env scenario_rows jan_pdf (Some "Sales Report - jan")
                directory_store in
   (exists msg, fst run = Err (Exn "IsADirectoryError" msg)) /\
   snd run !! jan_tmpdir = Some Dir /\
   (exists c, snd run !! (jan_tmpdir ++ ["pie.png"]) = Some (File c)) /\
   (exists c, snd run !! (jan_tmpdir ++ ["daily.png"]) = Some (File c))).
Proof.
  repeat split; try (vm_compute; reflexivity); eexists; vm_compute; reflexivity.
Qed.

(** * Further properties of the generator *)

(** ** Normalisation, row by row *)

Lemma rmap_lookup {A B} (f : A -> result B) (l : list A) (bs : list B) i a :
  rmap f l = Ok bs -> l !! i = Some a ->
  exists b, bs !! i = Some b /\ f a = Ok b.
Proof.
  revert bs i. induction l as [|x l IH]; intros bs i H Hi; [discriminate Hi|].
  simpl in H. destruct (f x) as [b|e] eqn:Hx; [|discriminate].
  destruct (rmap f l) as [bs'|e] eqn:Hl; [|discriminate].
  injection H as <-. destruct i as [|i]; simpl in *.
  - injection Hi as <-. eauto.
  - eapply IH; eauto.
Qed.

Lemma assemble_lookup rows qs ps i r q p :
  rows !! i = Some r -> qs !! i = Some q -> ps !! i = Some p ->
  assemble rows qs ps !! i
  = Some (SRow (label (date r)) (label (order_id r)) (label (model r)) q p (times q p)).
Proof.
  revert qs ps i. induction rows as [|r0 rows IH]; intros [|q0 qs] [|p0 ps] [|i]; simpl;
    try discriminate.
  - intros [= ->] [= ->] [= ->]. reflexivity.
  - apply IH.
Qed.

Lemma assemble_labels rows qs ps :
  length qs = length rows -> length ps = length rows ->
  map s_date (assemble rows qs ps) = map (fun r => label (date r)) rows /\
  map s_order_id (assemble rows qs ps) = map (fun r => label (order_id r)) rows /\
  map s_model (assemble rows qs ps) = map (fun r => label (model r)) rows.
Proof.
  revert qs ps. induction rows as [|r rows IH]; intros [|q qs] [|p ps]; simpl;
    try discriminate; auto.
  intros [= Hq] [= Hp]. destruct (IH _ _ Hq Hp) as (-> & -> & ->). auto.
Qed.

Lemma assemble_numbers rows qs ps :
  length qs = length rows -> length ps = length rows ->
  map s_quantity (assemble rows qs ps) = qs /\
  map s_unit_price (assemble rows qs ps) = ps.
Proof.
  revert qs ps. induction rows as [|r rows IH]; intros [|q qs] [|p ps]; simpl;
    try discriminate; auto.
  intros [= Hq] [= Hp]. destruct (IH _ _ Hq Hp) as (-> & ->). auto.
Qed.

(** X1.  Normalisation keeps the rows in the order of the input and passes
    the three label fields through unchanged (a missing key or [None]
    becoming NA); a label column exists in the frame exactly when some row
    has the key. *)
Theorem normalisation_keeps_order_and_labels (E : env) (rows : list raw_row) (df : DataFrame) :
  _safe_df_from_rows E rows = Ok df ->
  map s_date (records df) = map (fun r => label (date r)) rows /\
  map s_order_id (records df) = map (fun r => label (order_id r)) rows /\
  map s_model (records df) = map (fun r => label (model r)) rows /\
  has_date df = in_columns date rows /\
  has_order_id df = in_columns order_id rows /\
  has_model df = in_columns model rows.
Proof.
  intros H.
  destruct (_safe_df_from_rows_Ok _ _ _ H) as (fr & qs & ps & Hfr & _ & _ & Lq & Lp & ->). simpl.
  destruct (assemble_labels rows qs ps Lq Lp) as (-> & -> & ->). repeat split.
Qed.

Lemma normalisation_keeps_order_and_labels_witness :
  exists df, _safe_df_from_rows iso_env tie_rows = Ok df /\
             map s_model (records df) = [Some "B"; Some "A"; None].
Proof.
  destruct (_safe_df_from_rows iso_env tie_rows) as [df|e] eqn:H; [|discriminate H].
  exists df. split; [reflexivity|].
  destruct (normalisation_keeps_order_and_labels iso_env tie_rows df H) as (_ & _ & -> & _).
  reflexivity.
Defined.

Lemma assemble_const rows (q : Z) (p : option Q) :
  assemble rows (map (fun _ => q) rows) (map (fun _ => p) rows)
  = map (fun r => SRow (label (date r)) (label (order_id r)) (label (model r))
                    q p (times q p)) rows.
Proof. induction rows as [|r rows IH]; simpl; [reflexivity|]. rewrite IH. reflexivity. Qed.

(** X2.  A table no row of which has a [quantity], a [unit_price] or a
    [price] key, and whose [total] cells the constructor can read, is always
    accepted: the frame has the rows of the table, in their order and with
    their labels, each with the quantity 1, the unit price 0.0 and the total
    0.0; the total revenue is 0. *)
Theorem normalisation_defaults (E : env) (rows : list raw_row) :
  in_columns quantity rows = false ->
  in_columns unit_price rows = false ->
  in_columns price rows = false ->
  (forall r, In r rows -> readable (total r)) ->
  exists df,
    _safe_df_from_rows E rows = Ok df /\
    records df
    = map (fun r => SRow (label (date r)) (label (order_id r)) (label (model r))
                      1 (Some 0%Q) (times 1 (Some 0%Q))) rows /\
    Forall (fun s => s_quantity s = 1%Z /\ s_unit_price s = Some 0%Q /\
                     exists t, s_total s = Some t /\ (t == 0)%Q) (records df) /\
    (total_revenue df == 0)%Q.
Proof.
  intros Hq Hu Hp Ht.
  assert (Hfr : exists t, pd_DataFrame rows = Ok (RawFrame None None None t)).
  { unfold pd_DataFrame.
    rewrite (column_of_absent quantity rows Hq), (column_of_absent unit_price rows Hu),
      (column_of_absent price rows Hp). cbn [rbind].
    unfold column_of. destruct (in_columns total rows); [|eauto].
    destruct (maybe_convert_objects_readable (map total rows)) as [c ->]; [|simpl; eauto].
    apply List.Forall_forall. intros c Hc. apply in_map_iff in Hc as (r & <- & Hr). auto. }
  destruct Hfr as [t Hfr].
  eexists. split; [|split; [|split]].
  - unfold _safe_df_from_rows. rewrite Hfr. cbn. rewrite assemble_const. reflexivity.
  - reflexivity.
  - cbn [records]. apply List.Forall_forall. intros s Hs.
    apply in_map_iff in Hs as (r & <- & _). cbn. repeat split. eexists. split; reflexivity.
  - unfold total_revenue. cbn [records]. clear.
    induction rows as [|r rows IH]; simpl; [reflexivity|]. rewrite IH. reflexivity.
Qed.

Lemma normalisation_defaults_witness :
  exists df,
    _safe_df_from_rows iso_env [label_only_row "2024-01-01" "A1" "X"] = Ok df /\
    records df = [SRow (Some "2024-01-01") (Some "A1") (Some "X") 1 (Some 0%Q) (Some (1 * 0)%Q)] /\
    (total_revenue df == 0)%Q.
Proof.
  destruct (normalisation_defaults iso_env [label_only_row "2024-01-01" "A1" "X"])
    as (df & Hdf & Hrec & _ & Hrev); try reflexivity.
  - intros r [<-|[]]. exact I.
  - exists df. split; [exact Hdf|]. split; [exact Hrec|exact Hrev].
Defined.

(** X3.  The default for [quantity] is for the column, not for the row: if
    some row has a [quantity] key and another row has none, the column holds
    a NaN where the key is missing and normalisation raises, with the
    ValueError, TypeError or OverflowError of the first cell that does not
    convert; it never gives the row the quantity 1. *)
Theorem partly_missing_quantity_raises (E : env) (rows : list raw_row) (r r' : raw_row) :
  In r rows -> present (quantity r) = true ->
  In r' rows -> quantity r' = Absent ->
  exists e, _safe_df_from_rows E rows = Err e /\
            (exn_class e = "ValueError" \/ exn_class e = "TypeError"
             \/ exn_class e = "OverflowError").
Proof.
  intros Hin Hpres Hin' Habs.
  apply (bad_quantity_raises E rows r' Hin' (in_columns_In quantity rows r Hin Hpres));
    rewrite Habs; simpl; eauto.
Qed.

Lemma partly_missing_quantity_raises_witness :
  exists e, _safe_df_from_rows iso_env
              [row "2024-01-01" "A1" "X" 2 10; no_quantity_row "2024-01-02" "A2" "Y" 5] = Err e /\
            (exn_class e = "ValueError" \/ exn_class e = "TypeError"
             \/ exn_class e = "OverflowError").
Proof.
  apply (partly_missing_quantity_raises iso_env _ (row "2024-01-01" "A1" "X" 2 10)
           (no_quantity_row "2024-01-02" "A2" "Y" 5)).
  - simpl. auto.
  - reflexivity.
  - simpl. auto.
  - reflexivity.
Defined.

(** A missing key is a NaN in the column of floats, whatever the type of
    the column. *)
Lemma astype_float_Absent E col c ps i :
  maybe_convert_objects col = Ok c -> astype_float E c = Ok ps ->
  col !! i = Some Absent -> ps !! i = Some None.
Proof.
  intros Hc Hps Hi. assert (Hin : In Absent col) by (apply list_elem_of_In; eapply list_elem_of_lookup_2; eauto).
  apply maybe_convert_objects_Ok in Hc. destruct c as [a|a|a|a]; simpl in Hps.
  - destruct Hc as [_ H]. rewrite List.Forall_forall in H.
    destruct (H _ Hin) as (z & Hz & _). discriminate Hz.
  - destruct Hc as [_ H]. rewrite List.Forall_forall in H.
    destruct (H _ Hin) as (z & Hz & _). discriminate Hz.
  - destruct Hc as (-> & _). injection Hps as <-.
    rewrite list_lookup_fmap, Hi. reflexivity.
  - subst a. destruct (rmap_lookup _ _ _ i Absent Hps Hi) as (p & Hpi & Hconv).
    simpl in Hconv. injection Hconv as <-. exact Hpi.
Qed.

(** X4.  Once some row has a [unit_price] key, the [price] of a row is never
    used: a row without [unit_price] gets a NaN unit price and a NaN total,
    whatever its [price], and so adds nothing to the grouped sums and to the
    total revenue. *)
Theorem missing_unit_price_is_NaN (E : env) (rows : list raw_row) (df : DataFrame)
    (i : nat) (r : raw_row) :
  _safe_df_from_rows E rows = Ok df ->
  in_columns unit_price rows = true ->
  rows !! i = Some r -> unit_price r = Absent ->
  exists s, records df !! i = Some s /\ s_unit_price s = None /\ s_total s = None.
Proof.
  intros H Hcol Hi Habs.
  destruct (_safe_df_from_rows_Ok _ _ _ H) as (fr & qs & ps & Hfr & Hq & Hp & Lq & Lp & ->). simpl.
  assert (Hlt : (i < length rows)%nat) by (apply lookup_lt_is_Some; eauto).
  destruct (lookup_lt_is_Some_2 qs i) as [q Hqi]; [lia|].
  destruct (pd_DataFrame_Ok _ _ Hfr) as (_ & Cu & _).
  unfold unit_price_column in Hp.
  destruct (c_unit_price fr) as [c|]; apply column_of_Ok in Cu; [|congruence].
  destruct Cu as [_ Cu].
  assert (Hpi : ps !! i = Some None).
  { apply (astype_float_Absent E (map unit_price rows) c ps i Cu Hp).
    rewrite list_lookup_fmap, Hi. simpl. rewrite Habs. reflexivity. }
  eexists. split; [apply (assemble_lookup rows qs ps i r q None Hi Hqi Hpi)|].
  split; reflexivity.
Qed.

Lemma missing_unit_price_is_NaN_witness :
  exists s, Some s = Some (SRow None None None 2 None None) /\
            s_unit_price s = None /\ s_total s = None.
Proof.
  destruct (missing_unit_price_is_NaN iso_env [price_only 2 9.99; unit_price_only 1 5]
              (Frame false false false
                 [SRow None None None 2 None None; SRow None None None 1 (Some 5%Q) (Some 5%Q)])
              0%nat (price_only 2 9.99) eq_refl eq_refl eq_refl eq_refl)
    as (s & Hs & Hu & Ht).
  exists s. simpl in Hs. injection Hs as <-. repeat split.
Defined.

(** ** Aggregates that add up *)

Lemma nansum_filter_all (P : srow -> Prop) `{forall r, Decision (P r)} rows :
  Forall P rows -> filter P rows = rows.
Proof.
  induction 1 as [|r rows Hr _ IH]; [reflexivity|].
  rewrite filter_cons, decide_True by exact Hr. rewrite IH. reflexivity.
Qed.

Lemma remove_dups_length_le {A} `{EqDecision A} (l : list A) :
  (length (remove_dups l) <= length l)%nat.
Proof.
  induction l as [|a l IH]; simpl; [lia|].
  destruct (decide_rel elem_of a l); simpl; lia.
Qed.

Lemma remove_dups_NoDup_id {A} `{EqDecision A} (l : list A) :
  NoDup l -> remove_dups l = l.
Proof.
  induction 1 as [|a l Ha _ IH]; simpl; [reflexivity|].
  destruct (decide_rel elem_of a l); [contradiction|]. rewrite IH. reflexivity.
Qed.

Lemma omap_length_le {A B} (f : A -> option B) (l : list A) :
  (length (omap f l) <= length l)%nat.
Proof.
  induction l as [|a l IH]; [simpl; lia|].
  change (omap f (a :: l)) with (match f a with Some y => y :: omap f l | None => omap f l end).
  destruct (f a); simpl; lia.
Qed.

Lemma omap_all_Some {A B} (f : A -> option B) (l : list A) :
  Forall (fun a => is_Some (f a)) l -> length (omap f l) = length l.
Proof.
  induction 1 as [|a l [b Hb] _ IH]; [reflexivity|].
  change (omap f (a :: l)) with (match f a with Some y => y :: omap f l | None => omap f l end).
  rewrite Hb. simpl. rewrite IH. reflexivity.
Qed.

(** The labels of a grouped series are the distinct keys of the rows. *)
Lemma groupby_sum_count key rows :
  length (groupby_sum key rows) = length (remove_dups (omap key rows)).
Proof.
  rewrite <- (length_map fst).
  apply Permutation_length, NoDup_Permutation.
  - apply NoDup_ListNoDup, StronglySorted_klt_NoDup, groupby_sum_sorted.
  - apply NoDup_remove_dups.
  - intros k. rewrite elem_of_remove_dups, list_elem_of_omap, list_elem_of_In, groupby_sum_keys.
    split; intros (r & Hr & Hk); exists r; split; auto; apply list_elem_of_In; exact Hr.
Qed.

(** X5.  The revenues of the categories of the pie chart add up to the
    totals of the rows that have a model, one category per distinct model;
    when every row has a model they add up to the total revenue, and when
    there are at most five categories the table of top models lists them
    all. *)
Theorem category_revenues_add_up (E : env) (df : DataFrame) (g : list (string * Q)) :
  by_model E df = Ok g ->
  (qsum (map snd g)
   == nansum (map s_total (filter (fun r => is_Some (s_model r)) (records df))))%Q /\
  length g = length (remove_dups (omap s_model (records df))) /\
  (Forall (fun r => is_Some (s_model r)) (records df) ->
   (qsum (map snd g) == total_revenue df)%Q) /\
  ((length g <= 5)%nat -> top_models E df = Ok g).
Proof.
  unfold by_model. destruct (has_model df) eqn:Hm; [|discriminate]. intros [= <-].
  assert (Hsum : (qsum (map snd (sort_values_desc E (groupby_sum s_model (records df))))
                  == nansum (map s_total (filter (fun r => is_Some (s_model r)) (records df))))%Q).
  { rewrite (qsum_perm _ (map snd (groupby_sum s_model (records df))))
      by (apply Permutation_map, sort_values_desc_perm).
    unfold groupby_sum. rewrite fold_group_qsum. simpl. apply Qplus_0_l. }
  split; [exact Hsum|]. split; [|split].
  - rewrite (Permutation_length (sort_values_desc_perm E _)). apply groupby_sum_count.
  - intros Hall. rewrite Hsum, nansum_filter_all by exact Hall. reflexivity.
  - intros Hlen. unfold top_models, by_model. rewrite Hm. simpl.
    rewrite take_ge by exact Hlen. reflexivity.
Qed.

Lemma category_revenues_add_up_witness :
  (qsum [20; 5] == 25)%Q /\
  top_models iso_env
    (Frame true true true
       [SRow (Some "2024-01-01") (Some "A1") (Some "X") 2 (Some 10%Q) (Some 20%Q);
        SRow (Some "2024-01-01") (Some "A2") (Some "Y") 1 (Some 5%Q) (Some 5%Q)])
  = Ok [("X", 20%Q); ("Y", 5%Q)].
Proof.
  pose (df := Frame true true true
                [SRow (Some "2024-01-01") (Some "A1") (Some "X") 2 (Some 10%Q) (Some 20%Q);
                 SRow (Some "2024-01-01") (Some "A2") (Some "Y") 1 (Some 5%Q) (Some 5%Q)]).
  destruct (category_revenues_add_up iso_env df [("X", 20%Q); ("Y", 5%Q)] eq_refl)
    as (_ & _ & Hall & Htop).
  split.
  - apply Hall. repeat constructor; eexists; reflexivity.
  - apply Htop. simpl. lia.
Defined.

(** X6.  The order count never exceeds the number of rows, and it is the
    number of rows when every row has an [order_id] value and no two rows
    have the same. *)
Theorem orders_bounded_by_rows (E : env) (rows : list raw_row) (df : DataFrame) :
  _safe_df_from_rows E rows = Ok df ->
  (orders df <= length rows)%nat /\
  (Forall (fun r => is_Some (label (order_id r))) rows ->
   NoDup (omap (fun r => label (order_id r)) rows) ->
   orders df = length rows).
Proof.
  intros H.
  destruct (_safe_df_from_rows_Ok _ _ _ H) as (fr & qs & ps & Hfr & _ & _ & Lq & Lp & ->).
  unfold orders; cbn [records has_order_id].
  rewrite assemble_order_ids, assemble_length by assumption.
  split.
  - destruct (in_columns order_id rows); [|lia].
    etransitivity; [apply remove_dups_length_le | apply omap_length_le].
  - intros Hall Hnd. destruct (in_columns order_id rows); [|reflexivity].
    rewrite remove_dups_NoDup_id by exact Hnd. apply omap_all_Some. exact Hall.
Qed.

Lemma orders_bounded_by_rows_witness :
  exists df, _safe_df_from_rows iso_env scenario_rows = Ok df /\
             (orders df <= 2)%nat /\ orders df = 2%nat.
Proof.
  destruct (_safe_df_from_rows iso_env scenario_rows) as [df|e] eqn:H; [|discriminate H].
  exists df. split; [reflexivity|].
  destruct (orders_bounded_by_rows iso_env scenario_rows df H) as [Hle Heq].
  split; [exact Hle|]. apply Heq.
  - repeat constructor; eexists; reflexivity.
  - apply NoDup_ListNoDup. repeat constructor; simpl; intuition discriminate.
Defined.

(** X7.  The daily series has one entry per distinct date string of the
    table, and its revenues add up to the totals of the rows that have a
    date: parsing and sorting the dates move entries, they neither merge nor
    drop them. *)
Theorem daily_revenues_add_up (E : env) (df : DataFrame) (daily : list (datetime * Q)) :
  daily_series E df = Ok daily ->
  length daily = length (remove_dups (omap s_date (records df))) /\
  (qsum (map snd daily)
   == nansum (map s_total (filter (fun r => is_Some (s_date r)) (records df))))%Q.
Proof.
  unfold daily_series. destruct (has_date df); [|discriminate].
  set (g := groupby_sum s_date (records df)).
  destruct (to_datetime E (map fst g)) as [ds|]; [|discriminate].
  destruct (Nat.eqb_spec (length ds) (length g)) as [Hlen|]; [|discriminate].
  intros [= <-].
  assert (Hperm := sort_by_date_perm E (combine ds (map snd g))).
  split.
  - rewrite (Permutation_length Hperm), length_combine, length_map, Hlen, Nat.min_id.
    apply groupby_sum_count.
  - rewrite (qsum_perm _ _ (Permutation_map snd Hperm)).
    rewrite map_snd_combine by (rewrite length_map; exact Hlen).
    unfold g, groupby_sum. rewrite fold_group_qsum. simpl. apply Qplus_0_l.
Qed.

Lemma daily_revenues_add_up_witness :
  length [(Timestamp 19723, 25%Q)] = 1%nat /\ (qsum [25] == 25)%Q.
Proof.
  pose (df := Frame true true true
                [SRow (Some "2024-01-01") (Some "A1") (Some "X") 2 (Some 10%Q) (Some 20%Q);
                 SRow (Some "2024-01-01") (Some "A2") (Some "Y") 1 (Some 5%Q) (Some 5%Q)]).
  destruct (daily_revenues_add_up iso_env df [(Timestamp 19723, 25%Q)] eq_refl) as [Hn Hs].
  split; [exact Hn | exact Hs].
Defined.

(** ** What [generate_pdf] does to the file system *)

Lemma write_file_inv p c fs r fs' :
  write_file p c fs = (r, fs') ->
  (exists e, r = Err e /\ fs' = fs) \/ (r = Ok tt /\ fs' = <[p := File c]> fs /\ stat p fs <> Some Dir).
Proof.
  unfold write_file. intros H.
  destruct (stat p fs) as [[|c']|] eqn:Hp.
  - injection H as <- <-. eauto.
  - destruct (stat (parent p) fs) as [[|c'']|]; injection H as <- <-; eauto.
  - destruct (stat (parent p) fs) as [[|c'']|]; injection H as <- <-; eauto.
Qed.

Lemma write_file_frame p c fs r fs' q :
  write_file p c fs = (r, fs') -> q <> p -> fs' !! q = fs !! q.
Proof.
  intros H Hq. apply write_file_inv in H as [(e & _ & ->)|(_ & -> & _)]; [reflexivity|].
  apply lookup_insert_ne. congruence.
Qed.

Lemma mkdirs_keeps done todo fs r fs' q x :
  mkdirs done todo fs = (r, fs') -> fs !! q = Some x -> fs' !! q = Some x.
Proof.
  revert done fs. induction todo as [|c rest IH]; simpl; intros done fs H Hq.
  - injection H as <- <-. exact Hq.
  - destruct (fs !! (done ++ [c])) as [[|c']|] eqn:Hp.
    + eapply IH; eauto.
    + injection H as <- <-. exact Hq.
    + eapply IH; [exact H|]. rewrite lookup_insert_ne; [exact Hq|].
      intros Heq. subst q.
      assert (@None node = Some x) as Habs; [|discriminate Habs].
      transitivity (fs !! (done ++ [c])); [symmetry; exact Hp | exact Hq].
Qed.

Lemma mkdirs_new done todo fs r fs' q x :
  mkdirs done todo fs = (r, fs') -> fs' !! q = Some x ->
  fs !! q = Some x \/ (x = Dir /\ fs !! q = None /\ q `prefix_of` (done ++ todo)).
Proof.
  revert done fs. induction todo as [|c rest IH]; simpl; intros done fs H Hq.
  - injection H as <- <-. auto.
  - destruct (fs !! (done ++ [c])) as [[|c']|] eqn:Hp.
    + destruct (IH _ _ H Hq) as [?|(-> & Hn & Hpre)]; [auto|].
      right. rewrite <- app_assoc in Hpre. auto.
    + injection H as <- <-. auto.
    + destruct (IH _ _ H Hq) as [Hq'|(-> & Hn & Hpre)].
      * apply lookup_insert_Some in Hq' as [[<- <-]|[_ Hq']]; [|auto].
        right. repeat split; [exact Hp|]. exists rest. rewrite <- app_assoc. reflexivity.
      * right. rewrite <- app_assoc in Hpre.
        apply lookup_insert_None in Hn as [Hn _]. auto.
Qed.

Lemma remove_frame p fs r fs' q :
  remove p fs = (r, fs') -> q <> p -> fs' !! q = fs !! q.
Proof.
  unfold remove. destruct (stat p fs) as [[|c]|]; intros [= <- <-] Hq; try reflexivity.
  apply lookup_delete_ne. congruence.
Qed.

Lemma rmdir_frame d fs r fs' q :
  rmdir d fs = (r, fs') -> q <> d -> fs' !! q = fs !! q.
Proof.
  unfold rmdir. destruct (fs !! d) as [[|c]|]; [|intros [= <- <-]; reflexivity..].
  destruct (Nat.eqb _ _); intros [= <- <-] Hq; [|reflexivity].
  apply lookup_delete_ne. congruence.
Qed.

(** The clean-up touches nothing but the two images and their directory. *)
Lemma cleanup_frame pie daily tmpdir fs r fs' q :
  cleanup pie daily tmpdir fs = (r, fs') ->
  q <> pie -> q <> daily -> q <> tmpdir -> fs' !! q = fs !! q.
Proof.
  unfold cleanup, try_pass, bind. intros [= _ <-] Hp Hd Ht.
  assert (Hstep1 : forall fsa fsb ra,
             (if exists_ pie fsa then remove pie fsa else (Ok tt, fsa)) = (ra, fsb) ->
             fsb !! q = fsa !! q).
  { intros fsa fsb ra. destruct (exists_ pie fsa); [|intros [= _ <-]; reflexivity].
    intros H. exact (remove_frame _ _ _ _ _ H Hp). }
  assert (Hstep2 : forall fsa fsb ra,
             (if exists_ daily fsa then remove daily fsa else (Ok tt, fsa)) = (ra, fsb) ->
             fsb !! q = fsa !! q).
  { intros fsa fsb ra. destruct (exists_ daily fsa); [|intros [= _ <-]; reflexivity].
    intros H. exact (remove_frame _ _ _ _ _ H Hd). }
  destruct (if exists_ pie fs then remove pie fs else (Ok tt, fs)) as [[[]|e] fs1] eqn:H1;
    cbn [snd]; [|exact (Hstep1 _ _ _ H1)].
  transitivity (fs1 !! q); [|exact (Hstep1 _ _ _ H1)].
  destruct (if exists_ daily fs1 then remove daily fs1 else (Ok tt, fs1)) as [[[]|e] fs2] eqn:H2;
    cbn [snd]; [|exact (Hstep2 _ _ _ H2)].
  transitivity (fs2 !! q); [|exact (Hstep2 _ _ _ H2)].
  destruct (rmdir tmpdir fs2) as [r3 fs3] eqn:H3. cbn [snd].
  exact (rmdir_frame _ _ _ _ _ H3 Ht).
Qed.

Lemma first_free_Some dir prefix names fs p :
  first_free dir prefix names fs = Some p ->
  fs !! p = None /\ exists n, In n names /\ p = dir ++ [prefix +:+ n].
Proof.
  induction names as [|n names IH]; simpl; [discriminate|].
  destruct (fs !! (dir ++ [prefix +:+ n])) eqn:Hp.
  - intros H. destruct (IH H) as (Hn & n' & Hin & ->). eauto 6.
  - intros [= <-]. eauto 6.
Qed.

Lemma mkdtemp_inv E prefix fs r fs' :
  mkdtemp E prefix fs = (r, fs') ->
  (exists e, r = Err e /\ fs' = fs) \/
  (exists tmpdir n, r = Ok tmpdir /\ fs' = <[tmpdir := Dir]> fs /\ fs !! tmpdir = None /\
                    tmpdir = tempdir E ++ [prefix +:+ n]).
Proof.
  unfold mkdtemp. destruct (first_free _ _ _ _) as [p|] eqn:Hp; intros [= <- <-].
  - right. destruct (first_free_Some _ _ _ _ _ Hp) as (Hn & n & _ & ->). eauto 8.
  - left. eauto.
Qed.

(** The charts: whatever the outcome, only the two image paths can change;
    on success both are written. *)
Lemma _create_charts_inv E df tmpdir fs r fs' :
  _create_charts E df tmpdir fs = (r, fs') ->
  (forall q, q <> tmpdir ++ ["pie.png"] -> q <> tmpdir ++ ["daily.png"] -> fs' !! q = fs !! q) /\
  (forall imgs, r = Ok imgs ->
     imgs = (tmpdir ++ ["pie.png"], tmpdir ++ ["daily.png"]) /\
     exists g daily,
       by_model E df = Ok g /\ daily_series E df = Ok daily /\
       fs' = <[tmpdir ++ ["daily.png"] := File (LineChart daily)]>
               (<[tmpdir ++ ["pie.png"] := File (PieChart g)]> fs)).
Proof.
  unfold _create_charts, bind, lift, raise, ret.
  destruct (by_model E df) as [g|e]; [|intros [= <- <-]; split; [auto|discriminate]].
  destruct (pie_renders E g); [|intros [= <- <-]; split; [auto|discriminate]].
  destruct (write_file (tmpdir ++ ["pie.png"]) (PieChart g) fs) as [[[]|e] fs1] eqn:H1;
    [|intros [= <- <-]; split; [|discriminate];
      intros q Hq _; exact (write_file_frame _ _ _ _ _ _ H1 Hq)].
  assert (F1 := fun q => write_file_frame _ _ _ _ _ q H1).
  apply write_file_inv in H1 as [(e & [=] & _)|(_ & -> & _)].
  destruct (daily_series E df) as [daily|e];
    [|intros [= <- <-]; split; [intros q Hq _; auto|discriminate]].
  destruct (line_renders E daily);
    [|intros [= <- <-]; split; [intros q Hq _; auto|discriminate]].
  destruct (write_file (tmpdir ++ ["daily.png"]) (LineChart daily) _) as [[[]|e] fs2] eqn:H2;
    intros [= <- <-].
  - assert (F2 := fun q => write_file_frame _ _ _ _ _ q H2).
    apply write_file_inv in H2 as [(e & [=] & _)|(_ & -> & _)].
    split.
    + intros q Hp Hd. rewrite F2 by exact Hd. auto.
    + intros imgs [= <-]. split; [reflexivity|]. eauto 6.
  - split; [|discriminate].
    intros q Hp Hd. etransitivity; [exact (write_file_frame _ _ _ _ _ _ H2 Hd)|auto].
Qed.

Lemma no_children (d : path) (fs : gmap path node) :
  (forall (q : path) (x : node), fs !! q = Some x -> ~ child_of d q) -> size (children d fs) = 0%nat.
Proof.
  intros H. apply map_size_empty_iff, map_empty. intros i.
  apply map_lookup_filter_None. right. intros x Hx. exact (H i x Hx).
Qed.

Lemma snoc_ne_self (d : path) (n : string) : d <> d ++ [n].
Proof.
  intros H. apply (f_equal length) in H. rewrite length_app in H. simpl in H. lia.
Qed.

Lemma snoc_inj_name (d : path) (a b : string) : d ++ [a] = d ++ [b] -> a = b.
Proof. intros H. apply app_inv_head in H. congruence. Qed.

(** When both images are files, the directory holds nothing else and is a
    directory, the clean-up removes the three of them. *)
Lemma cleanup_removes (tmpdir : path) (a b : string) (ca cb : content)
    (fs : gmap path node) :
  a <> b ->
  fs !! (tmpdir ++ [a]) = Some (File ca) ->
  fs !! (tmpdir ++ [b]) = Some (File cb) ->
  fs !! tmpdir = Some Dir ->
  (forall (q : path) (x : node),
     fs !! q = Some x -> child_of tmpdir q -> q = tmpdir ++ [a] \/ q = tmpdir ++ [b]) ->
  cleanup (tmpdir ++ [a]) (tmpdir ++ [b]) tmpdir fs
  = (Ok tt, delete tmpdir (delete (tmpdir ++ [b]) (delete (tmpdir ++ [a]) fs))).
Proof.
  intros Hab Ha Hb Hd Hch.
  assert (Hne : tmpdir ++ [a] <> tmpdir ++ [b]).
  { intros H. apply Hab. exact (snoc_inj_name _ _ _ H). }
  unfold cleanup, try_pass, bind, exists_, remove.
  rewrite !stat_snoc, Ha. cbn [snd fst].
  rewrite !stat_snoc, lookup_delete_ne, Hb by exact Hne. cbn [snd fst].
  unfold rmdir.
  rewrite !lookup_delete_ne, Hd by (apply not_eq_sym, snoc_ne_self).
  rewrite no_children; [reflexivity|].
  intros q x Hq Hc.
  apply lookup_delete_Some in Hq as [Hqb Hq].
  apply lookup_delete_Some in Hq as [Hqa Hq].
  destruct (Hch q x Hq Hc); congruence.
Qed.

(** The course of a call of [generate_pdf]: where it can stop, and the file
    system at each stop. *)
Lemma generate_pdf_run E rows out title fs r fs' :
  generate_pdf E rows out title fs = (r, fs') ->
  (exists e, r = Err e /\ fs' = fs) \/
  exists df top tmpdir n r2 fs2,
    _safe_df_from_rows E rows = Ok df /\ top_models E df = Ok top /\
    tmpdir = tempdir E ++ ["report_" +:+ n] /\ fs !! tmpdir = None /\
    _create_charts E df tmpdir (<[tmpdir := Dir]> fs) = (r2, fs2) /\
    ((exists e, r2 = Err e /\ r = Err e /\ fs' = fs2) \/
     exists r3 fs3,
       r2 = Ok (tmpdir ++ ["pie.png"], tmpdir ++ ["daily.png"]) /\
       mkdir_parents (parent out) fs2 = (r3, fs3) /\
       ((exists e, r3 = Err e /\ r = Err e /\ fs' = fs3) \/
        exists r4 fs4,
          write_file out
            (Pdf (Report (report_title E title) (total_revenue df) (orders df) top
                    (take 20 (records df)))) fs3 = (r4, fs4) /\
          ((exists e, r4 = Err e /\ r = Err e /\ fs' = fs4) \/
           (r4 = Ok tt /\ r = Ok out /\
            cleanup (tmpdir ++ ["pie.png"]) (tmpdir ++ ["daily.png"]) tmpdir fs4
            = (Ok tt, fs'))))).
Proof.
  unfold generate_pdf, bind, lift, ret.
  destruct (_safe_df_from_rows E rows) as [df|e] eqn:Hdf; [|intros [= <- <-]; eauto].
  destruct (top_models E df) as [top|e] eqn:Htop; [|intros [= <- <-]; eauto].
  destruct (mkdtemp E "report_" fs) as [r1 fs1] eqn:H1.
  apply mkdtemp_inv in H1 as [(e & -> & ->)|(tmpdir & n & -> & -> & Hfree & Htmp)];
    [intros [= <- <-]; eauto|].
  destruct (_create_charts E df tmpdir (<[tmpdir:=Dir]> fs)) as [r2 fs2] eqn:H2.
  intros H. right. exists df, top, tmpdir, n, r2, fs2.
  repeat (split; [first [reflexivity | assumption]|]).
  destruct r2 as [imgs|e]; [|injection H as <- <-; eauto].
  destruct (_create_charts_inv _ _ _ _ _ _ H2) as [_ Himgs].
  destruct (Himgs imgs eq_refl) as [-> _]. cbn [fst snd] in H.
  right.
  destruct (mkdir_parents (parent out) fs2) as [r3 fs3] eqn:H3.
  exists r3, fs3. repeat (split; [reflexivity|]).
  destruct r3 as [[]|e]; [|injection H as <- <-; eauto].
  right.
  destruct (write_file out _ fs3) as [r4 fs4] eqn:H4.
  exists r4, fs4. split; [reflexivity|].
  destruct r4 as [[]|e]; [|injection H as <- <-; eauto].
  right.
  destruct (cleanup _ _ tmpdir fs4) as [r5 fs5] eqn:H5.
  assert (r5 = Ok tt) as -> by (unfold cleanup, try_pass in H5; congruence).
  injection H as <- <-. auto.
Qed.

Lemma lookup_Some_None_ne (fs : gmap path node) (q q' : path) (x : node) :
  fs !! q = Some x -> fs !! q' = None -> q <> q'.
Proof.
  intros H1 H2 Heq. subst q'.
  assert (Some x = @None node) as Habs; [|discriminate Habs].
  transitivity (fs !! q); [symmetry; exact H1 | exact H2].
Qed.

Lemma fresh_dir_has_no_entry (fs : gmap path node) (tmpdir : path) (n : string) :
  well_formed fs -> tmpdir <> [] -> fs !! tmpdir = None -> fs !! (tmpdir ++ [n]) = None.
Proof.
  intros Hwf Hne Hfree. destruct (fs !! (tmpdir ++ [n])) as [x|] eqn:Hx; [|reflexivity].
  assert (Hp : stat (parent (tmpdir ++ [n])) fs = Some Dir) by (apply Hwf; eauto).
  rewrite parent_snoc in Hp. unfold stat in Hp. destruct tmpdir; congruence.
Qed.


(** ** The total revenue *)













(** X8.  Whatever the outcome, [generate_pdf] leaves every entry that was in
    the file system before the call as it was, except the entry at
    [out_pdf_path]: it deletes and overwrites nothing else. *)
Theorem generate_pdf_keeps_existing_entries (E : env) (rows : list raw_row)
    (out_pdf_path : path) (title : option string) (fs fs' : gmap path node)
    (r : result path) :
  well_formed fs ->
  generate_pdf E rows out_pdf_path title fs = (r, fs') ->
  forall q x, fs !! q = Some x -> q <> out_pdf_path -> fs' !! q = Some x.
Proof.
  intros Hwf Hrun q x Hq Hout.
  apply generate_pdf_run in Hrun
    as [(e & _ & ->)|(df & top & tmpdir & n & r2 & fs2 & _ & _ & Htmp & Hfree & H2 & Hrest)];
    [exact Hq|].
  assert (Hnil : tmpdir <> []) by (rewrite Htmp; apply snoc_ne_nil).
  assert (Hqt : q <> tmpdir) by exact (lookup_Some_None_ne _ _ _ _ Hq Hfree).
  assert (Hqp : q <> tmpdir ++ ["pie.png"])
    by exact (lookup_Some_None_ne _ _ _ _ Hq (fresh_dir_has_no_entry fs tmpdir _ Hwf Hnil Hfree)).
  assert (Hqd : q <> tmpdir ++ ["daily.png"])
    by exact (lookup_Some_None_ne _ _ _ _ Hq (fresh_dir_has_no_entry fs tmpdir _ Hwf Hnil Hfree)).
  assert (Hq2 : fs2 !! q = Some x).
  { destruct (_create_charts_inv _ _ _ _ _ _ H2) as [Hframe _].
    rewrite Hframe by assumption. rewrite lookup_insert_ne by congruence. exact Hq. }
  destruct Hrest as [(e & _ & _ & ->)|(r3 & fs3 & _ & H3 & Hrest)]; [exact Hq2|].
  assert (Hq3 : fs3 !! q = Some x) by exact (mkdirs_keeps _ _ _ _ _ _ _ H3 Hq2).
  destruct Hrest as [(e & _ & _ & ->)|(r4 & fs4 & H4 & Hrest)]; [exact Hq3|].
  assert (Hq4 : fs4 !! q = Some x).
  { rewrite (write_file_frame _ _ _ _ _ _ H4 Hout). exact Hq3. }
  destruct Hrest as [(e & _ & _ & ->)|(_ & _ & H5)]; [exact Hq4|].
  rewrite (cleanup_frame _ _ _ _ _ _ _ H5) by assumption. exact Hq4.
Qed.

Lemma reports_store_well_formed : well_formed reports_store.
Proof.
  intros p [x Hp]. unfold reports_store in Hp.
  apply lookup_insert_Some in Hp as [[<- _]|[_ Hp]]; [reflexivity|].
  apply lookup_insert_Some in Hp as [[<- _]|[_ Hp]]; [reflexivity|].
  rewrite lookup_empty in Hp. discriminate Hp.
Qed.

Lemma generate_pdf_keeps_existing_entries_witness :
  snd (generate_pdf iso_env scenario_rows jan_pdf None reports_store)
    !! ["generated_reports"; "old.pdf"] = Some (File (Raw "%PDF")).
Proof.
  apply (generate_pdf_keeps_existing_entries iso_env scenario_rows jan_pdf None reports_store
           _ (fst (generate_pdf iso_env scenario_rows jan_pdf None reports_store))).
  - exact reports_store_well_formed.
  - apply surjective_pairing.
  - reflexivity.
  - discriminate.
Defined.

(** X9.  When [generate_pdf] raises, either the file system is exactly as it
    was before the call (the exception came from normalisation, from the
    group-by, or from [mkdtemp]), or the temporary directory [report_...]
    that the call created is still there: no exception that comes after its
    creation removes it. *)
Theorem generate_pdf_exception_leaves_tmpdir (E : env) (rows : list raw_row)
    (out_pdf_path : path) (title : option string) (fs fs' : gmap path node) (e : exn) :
  generate_pdf E rows out_pdf_path title fs = (Err e, fs') ->
  fs' = fs \/
  exists n, fs !! (tempdir E ++ ["report_" +:+ n]) = None /\
            fs' !! (tempdir E ++ ["report_" +:+ n]) = Some Dir.
Proof.
  intros Hrun.
  apply generate_pdf_run in Hrun
    as [(e0 & _ & ->)|(df & top & tmpdir & n & r2 & fs2 & _ & _ & Htmp & Hfree & H2 & Hrest)];
    [left; reflexivity|].
  right. exists n. rewrite <- Htmp. split; [exact Hfree|].
  assert (Hq2 : fs2 !! tmpdir = Some Dir).
  { destruct (_create_charts_inv _ _ _ _ _ _ H2) as [Hframe _].
    rewrite Hframe by apply snoc_ne_self. apply lookup_insert_eq. }
  destruct Hrest as [(e0 & _ & _ & ->)|(r3 & fs3 & _ & H3 & Hrest)]; [exact Hq2|].
  assert (Hq3 : fs3 !! tmpdir = Some Dir) by exact (mkdirs_keeps _ _ _ _ _ _ _ H3 Hq2).
  destruct Hrest as [(e0 & _ & _ & ->)|(r4 & fs4 & H4 & Hrest)]; [exact Hq3|].
  destruct Hrest as [(e0 & -> & _ & ->)|(_ & [=] & _)].
  apply write_file_inv in H4 as [(e1 & _ & ->)|([=] & _)]. exact Hq3.
Qed.

Lemma generate_pdf_exception_leaves_tmpdir_witness :
  exists e fs',
    generate_pdf iso_env scenario_rows jan_pdf None blocked_store = (Err e, fs') /\
    (fs' = blocked_store \/
     exists n, blocked_store !! (["tmp"] ++ ["report_" +:+ n]) = None /\
               fs' !! (["tmp"] ++ ["report_" +:+ n]) = Some Dir).
Proof.
  pose proof (surjective_pairing (generate_pdf iso_env scenario_rows jan_pdf None blocked_store))
    as Hrun.
  assert (Hfst : fst (generate_pdf iso_env scenario_rows jan_pdf None blocked_store)
                 = Err (OSError "FileExistsError" ["generated_reports"]))
    by (vm_compute; reflexivity).
  rewrite Hfst in Hrun.
  eexists _, _. split; [exact Hrun|].
  exact (generate_pdf_exception_leaves_tmpdir iso_env scenario_rows jan_pdf None
           blocked_store _ _ Hrun).
Defined.

(** X10.  When [generate_pdf] returns, in a well-formed file system and with
    a report path that is not under the directory of temporary files, the
    report is at [out_pdf_path] and carries the title, the total revenue,
    the order count, the top models and the first twenty rows of the frame;
    the temporary directory and both images are gone; and every other entry
    of the file system was there before the call or is a directory above
    the report. *)
Theorem generate_pdf_success_leaves_only_the_report (E : env) (rows : list raw_row)
    (out_pdf_path : path) (title : option string) (fs fs' : gmap path node) (p : path) :
  well_formed fs ->
  ~ tempdir E `prefix_of` out_pdf_path ->
  generate_pdf E rows out_pdf_path title fs = (Ok p, fs') ->
  exists df top n,
    _safe_df_from_rows E rows = Ok df /\ top_models E df = Ok top /\
    fs' !! out_pdf_path
    = Some (File (Pdf (Report (report_title E title) (total_revenue df) (orders df) top
                         (take 20 (records df))))) /\
    fs !! (tempdir E ++ ["report_" +:+ n]) = None /\
    fs' !! (tempdir E ++ ["report_" +:+ n]) = None /\
    fs' !! (tempdir E ++ ["report_" +:+ n] ++ ["pie.png"]) = None /\
    fs' !! (tempdir E ++ ["report_" +:+ n] ++ ["daily.png"]) = None /\
    (forall q x, fs' !! q = Some x ->
       q = out_pdf_path \/ fs !! q = Some x \/ (x = Dir /\ q `prefix_of` parent out_pdf_path)).
Proof.
  intros Hwf Hout Hrun.
  apply generate_pdf_run in Hrun
    as [(e & [=] & _)|(df & top & tmpdir & n & r2 & fs2 & Hdf & Htop & Htmp & Hfree & H2 & Hrest)].
  destruct Hrest as [(e & _ & [=] & _)|(r3 & fs3 & -> & H3 & Hrest)].
  destruct Hrest as [(e & _ & [=] & _)|(r4 & fs4 & H4 & Hrest)].
  destruct Hrest as [(e & _ & [=] & _)|(-> & _ & H5)].
  exists df, top, n. rewrite !app_assoc, <- Htmp.
  split; [exact Hdf|]. split; [exact Htop|].
  assert (Hnil : tmpdir <> []) by (rewrite Htmp; apply snoc_ne_nil).
  destruct (_create_charts_inv _ _ _ _ _ _ H2) as [_ Himgs].
  destruct (Himgs _ eq_refl) as (_ & g & daily & _ & _ & ->).
  set (pie := tmpdir ++ ["pie.png"]) in *. set (day := tmpdir ++ ["daily.png"]) in *.
  assert (Hpd : pie <> day) by (intros H; apply snoc_inj_name in H; discriminate H).
  (* the report is not one of the temporary paths *)
  assert (Hunder : forall k, out_pdf_path <> tmpdir ++ k).
  { intros k ->. apply Hout. rewrite Htmp, <- app_assoc. eexists. reflexivity. }
  assert (Hot : out_pdf_path <> tmpdir) by (rewrite <- (app_nil_r tmpdir); apply Hunder).
  (* the state the clean-up starts from *)
  apply write_file_inv in H4 as [(e & [=] & _)|(_ & -> & _)].
  assert (Hpie3 : fs3 !! pie = Some (File (PieChart g))).
  { eapply mkdirs_keeps; [exact H3|].
    rewrite lookup_insert_ne by (apply not_eq_sym; exact Hpd). apply lookup_insert_eq. }
  assert (Hday3 : fs3 !! day = Some (File (LineChart daily))).
  { eapply mkdirs_keeps; [exact H3|]. apply lookup_insert_eq. }
  assert (Htmp3 : fs3 !! tmpdir = Some Dir).
  { eapply mkdirs_keeps; [exact H3|].
    rewrite !lookup_insert_ne by (apply not_eq_sym, snoc_ne_self). apply lookup_insert_eq. }
  assert (Horigin : forall q x, fs3 !! q = Some x ->
            q = pie \/ q = day \/ q = tmpdir \/ fs !! q = Some x \/
            (x = Dir /\ q `prefix_of` parent out_pdf_path)).
  { intros q x Hq. destruct (mkdirs_new _ _ _ _ _ _ _ H3 Hq) as [Hq2|(-> & _ & Hpre)]; [|auto 6].
    apply lookup_insert_Some in Hq2 as [[<- _]|[_ Hq2]]; [auto|].
    apply lookup_insert_Some in Hq2 as [[<- _]|[_ Hq2]]; [auto|].
    apply lookup_insert_Some in Hq2 as [[<- _]|[_ Hq2]]; auto. }
  rewrite (cleanup_removes tmpdir "pie.png" "daily.png" (PieChart g) (LineChart daily)) in H5.
  - injection H5 as <-. fold pie day.
    split; [|split; [exact Hfree|split; [|split; [|split]]]].
    + rewrite !lookup_delete_ne by (apply not_eq_sym; first [exact Hot | apply Hunder]).
      apply lookup_insert_eq.
    + apply lookup_delete_eq.
    + rewrite lookup_delete_ne by apply snoc_ne_self.
      rewrite lookup_delete_ne by (apply not_eq_sym; exact Hpd). apply lookup_delete_eq.
    + rewrite lookup_delete_ne by apply snoc_ne_self. apply lookup_delete_eq.
    + intros q x Hq.
      apply lookup_delete_Some in Hq as [Hqt Hq].
      apply lookup_delete_Some in Hq as [Hqd Hq].
      apply lookup_delete_Some in Hq as [Hqp Hq].
      apply lookup_insert_Some in Hq as [[<- _]|[_ Hq]]; [auto|].
      destruct (Horigin q x Hq) as [?|[?|[?|[?|?]]]]; try congruence; auto.
  - discriminate.
  - rewrite lookup_insert_ne by apply Hunder. exact Hpie3.
  - rewrite lookup_insert_ne by apply Hunder. exact Hday3.
  - rewrite lookup_insert_ne by exact Hot. exact Htmp3.
  - intros q x Hq [Hqn Hqp].
    apply lookup_insert_Some in Hq as [[<- _]|[_ Hq]].
    { exfalso. apply (Hunder [name out_pdf_path]). rewrite <- Hqp.
      unfold parent, name. apply app_removelast_last. exact Hqn. }
    destruct (Horigin q x Hq) as [?|[?|[->|[Hfs|(-> & Hpre)]]]]; auto.
    + exfalso. apply (snoc_ne_self (parent tmpdir) (name tmpdir)).
      rewrite Hqp at 1. unfold parent, name. apply app_removelast_last. exact Hnil.
    + exfalso. assert (Hp : stat (parent q) fs = Some Dir) by (apply Hwf; eauto).
      rewrite Hqp in Hp. unfold stat in Hp. destruct tmpdir; [congruence|].
      assert (@None node = Some Dir) as Habs; [|discriminate Habs].
      transitivity (fs !! (s :: tmpdir)); [symmetry; exact Hfree | exact Hp].
    + exfalso. apply Hout. destruct Hpre as [k Hk].
      assert (Hon : out_pdf_path <> []).
      { intros ->. simpl in Hk. destruct q; [congruence|discriminate Hk]. }
      assert (Ho : out_pdf_path = parent out_pdf_path ++ [name out_pdf_path])
        by (apply app_removelast_last; exact Hon).
      assert (Hq' : q = parent q ++ [name q]) by (apply app_removelast_last; exact Hqn).
      remember (name q) as nq eqn:Enq. remember (name out_pdf_path) as no eqn:Eno.
      exists (["report_" +:+ n] ++ [nq] ++ k ++ [no]).
      etransitivity; [exact Ho|].
      rewrite Hk, Hq', Hqp, Htmp. rewrite <- !app_assoc. reflexivity.
Qed.

Lemma generate_pdf_success_leaves_only_the_report_witness :
  exists fs',
    generate_pdf iso_env scenario_rows jan_pdf None reports_store = (Ok jan_pdf, fs') /\
    (exists doc, fs' !! jan_pdf = Some (File (Pdf doc)) /\ r_orders doc = 2%nat) /\
    fs' !! jan_tmpdir = None.
Proof.
  pose proof (surjective_pairing (generate_pdf iso_env scenario_rows jan_pdf None reports_store))
    as Hrun.
  assert (Hfst : fst (generate_pdf iso_env scenario_rows jan_pdf None reports_store) = Ok jan_pdf)
    by (vm_compute; reflexivity).
  rewrite Hfst in Hrun.
  set (fs' := snd (generate_pdf iso_env scenario_rows jan_pdf None reports_store)) in Hrun.
  destruct (generate_pdf_success_leaves_only_the_report iso_env scenario_rows jan_pdf None
              reports_store fs' jan_pdf reports_store_well_formed)
    as (df & top & n & Hdf & Htop & Hdoc & _ & _ & _ & _ & _).
  - intros [k Hk]. discriminate Hk.
  - exact Hrun.
  - eexists. split; [exact Hrun|]. split.
    + eexists. split; [exact Hdoc|]. simpl.
      vm_compute in Hdf. injection Hdf as <-. reflexivity.
    + vm_compute. reflexivity.
Defined.

(** * Further properties of the e-mail simulator *)

Lemma matches_json_suffix (s : string) : matches_json (s +:+ ".json") = true.
Proof.
  unfold matches_json. rewrite list_ascii_append, rev_app_distr.
  change (rev (list_ascii_of_string ".json")) with (list_ascii_of_string "nosj.").
  cbn [list_ascii_of_string app string_of_list_ascii String.prefix].
  destruct (string_of_list_ascii _); reflexivity.
Qed.

Lemma meta_path_json_in (k : nat) (x : node) : json_in SENT_DIR (meta_path k, x).
Proof.
  split; [apply child_of_snoc|]. simpl. unfold meta_path. rewrite name_snoc.
  apply matches_json_suffix.
Qed.

Lemma meta_path_ne_dest E p k : dest_pdf E p <> meta_path k.
Proof.
  unfold dest_pdf, meta_path. intros Heq. apply snoc_inj_name in Heq.
  symmetry in Heq. exact (meta_name_ne_saved_name _ _ _ Heq).
Qed.

Lemma write_file_Ok_parent p c fs fs' :
  write_file p c fs = (Ok tt, fs') -> stat (parent p) fs = Some Dir.
Proof.
  unfold write_file.
  destruct (stat p fs) as [[|c']|]; [discriminate| |];
    destruct (stat (parent p) fs) as [[|c'']|]; try discriminate; reflexivity.
Qed.

Lemma write_file_Err_cases p c fs e fs' :
  write_file p c fs = (Err e, fs') ->
  stat (parent p) fs = Some Dir -> stat p fs = Some Dir.
Proof.
  unfold write_file. intros H Hd. rewrite Hd in H.
  destruct (stat p fs) as [[|c']|]; [reflexivity|discriminate..].
Qed.

(** The course of a call of [send_simulated_email]. *)
Lemma send_simulated_email_run E p sender recipient subject body fs r fs' :
  send_simulated_email E p sender recipient subject body fs = (r, fs') ->
  (exists e, r = Err e /\ fs' = fs) \/
  exists c r2,
    stat p fs = Some (File c) /\ stat SENT_DIR fs = Some Dir /\
    let fs1 := <[dest_pdf E p := File c]> fs in
    let m := Meta (count_json SENT_DIR fs1 + 1) (now_stamp E) sender recipient subject body
               (now_stamp E +:+ "_" +:+ name p) in
    write_file (meta_path (m_id m)) (Json m) fs1 = (r2, fs') /\
    ((exists e, r2 = Err e /\ r = Err e /\ fs' = fs1) \/
     (r2 = Ok tt /\ r = Ok m /\ fs' = <[meta_path (m_id m) := File (Json m)]> fs1)).
Proof.
  unfold send_simulated_email.
  destruct (exists_ p fs); cbn [negb]; [|intros [= <- <-]; eauto].
  unfold bind at 1.
  destruct (copyfile p (SENT_DIR ++ [now_stamp E +:+ "_" +:+ name p]) fs) as [r1 fs1] eqn:Hcopy.
  unfold copyfile in Hcopy.
  destruct (bool_decide _ && exists_ p fs); [injection Hcopy as <- <-; intros [= <- <-]; eauto|].
  destruct (stat p fs) as [[|c]|] eqn:Hp;
    [injection Hcopy as <- <-; intros [= <- <-]; eauto| |
     injection Hcopy as <- <-; intros [= <- <-]; eauto].
  destruct r1 as [[]|e];
    [|apply write_file_inv in Hcopy as [(e0 & _ & ->)|([=] & _)]; intros [= <- <-]; eauto].
  pose proof (write_file_Ok_parent _ _ _ _ Hcopy) as Hdir. rewrite parent_snoc in Hdir.
  apply write_file_inv in Hcopy as [(e & [=] & _)|(_ & -> & _)].
  intros H. right. exists c. cbv zeta.
  unfold bind, ret in H. cbn [m_id] in H |- *.
  fold (dest_pdf E p) in H |- *.
  fold (meta_path (count_json SENT_DIR (<[dest_pdf E p:=File c]> fs) + 1)) in H.
  destruct (write_file _ _ _) as [r2 fs2] eqn:Hw.
  exists r2. split; [reflexivity|]. split; [exact Hdir|].
  pose proof Hw as Hw'.
  apply write_file_inv in Hw as [(e & -> & ->)|(-> & -> & _)]; injection H as <- <-.
  - split; [reflexivity|]. eauto.
  - split; [reflexivity|]. auto.
Qed.

(** X11.  Whatever the outcome, [send_simulated_email] changes nothing
    outside the entries of [sent_emails]: the file it is given and the rest
    of the file system stay as they are. *)
Theorem send_simulated_email_writes_in_sent_dir_only (E : env) (pdf_path : path)
    (sender recipient subject body : string) (fs fs' : gmap path node) (r : result meta)
    (q : path) :
  send_simulated_email E pdf_path sender recipient subject body fs = (r, fs') ->
  ~ child_of SENT_DIR q ->
  fs' !! q = fs !! q.
Proof.
  intros Hrun Hq.
  assert (Hd : q <> dest_pdf E pdf_path) by (intros ->; apply Hq, child_of_snoc).
  assert (Hm : forall k, q <> meta_path k) by (intros k ->; apply Hq, child_of_snoc).
  apply send_simulated_email_run in Hrun as [(e & _ & ->)|(c & r2 & _ & _ & Hrest)];
    [reflexivity|].
  cbv zeta in Hrest. destruct Hrest as [_ [(e & _ & _ & ->)|(_ & _ & ->)]].
  - apply lookup_insert_ne. congruence.
  - rewrite lookup_insert_ne by (apply not_eq_sym, Hm). apply lookup_insert_ne. congruence.
Qed.

Lemma send_simulated_email_writes_in_sent_dir_only_witness :
  snd (send_simulated_email iso_env ["generated_reports"; "jan.pdf"] "a@x" "b@x" "s" "b" sent_store)
    !! ["generated_reports"; "jan.pdf"] = Some (File (Raw "%PDF")).
Proof.
  etransitivity.
  - apply (send_simulated_email_writes_in_sent_dir_only iso_env ["generated_reports"; "jan.pdf"]
             "a@x" "b@x" "s" "b" sent_store _ _ ["generated_reports"; "jan.pdf"]
             (surjective_pairing _)).
    intros [_ Hp]. discriminate Hp.
  - reflexivity.
Defined.

(** X12.  When [send_simulated_email] raises, either nothing was written, or
    the copy of the file was made and the metadata could not be written
    because a directory stands where [<id>.json] should go: the copy then
    stays in [sent_emails] without metadata. *)
Theorem send_simulated_email_exception (E : env) (pdf_path : path)
    (sender recipient subject body : string) (fs fs' : gmap path node) (e : exn) :
  send_simulated_email E pdf_path sender recipient subject body fs = (Err e, fs') ->
  fs' = fs \/
  exists c, stat pdf_path fs = Some (File c) /\
            fs' = <[dest_pdf E pdf_path := File c]> fs /\
            fs' !! meta_path (count_json SENT_DIR fs' + 1) = Some Dir.
Proof.
  intros Hrun.
  apply send_simulated_email_run in Hrun as [(e0 & _ & ->)|(c & r2 & Hp & Hdir & Hrest)];
    [auto|].
  cbv zeta in Hrest. destruct Hrest as [Hw [(e0 & -> & _ & ->)|(_ & [=] & _)]].
  right. exists c. split; [exact Hp|]. split; [reflexivity|].
  cbn [m_id] in Hw. apply write_file_Err_cases in Hw.
  - unfold meta_path in *. rewrite stat_snoc in Hw. exact Hw.
  - unfold meta_path. rewrite parent_snoc. unfold stat, SENT_DIR in *.
    rewrite lookup_insert_ne; [exact Hdir|].
    unfold dest_pdf, SENT_DIR. discriminate.
Qed.

Lemma send_simulated_email_exception_witness :
  exists e fs',
    send_simulated_email iso_env ["generated_reports"; "jan.pdf"] "a@x" "b@x" "s" "b"
      dir_named_json_store = (Err e, fs') /\
    fs' <> dir_named_json_store.
Proof.
  pose proof (surjective_pairing
                (send_simulated_email iso_env ["generated_reports"; "jan.pdf"] "a@x" "b@x" "s" "b"
                   dir_named_json_store)) as Hrun.
  assert (Hfst : fst (send_simulated_email iso_env ["generated_reports"; "jan.pdf"]
                        "a@x" "b@x" "s" "b" dir_named_json_store)
                 = Err (OSError "IsADirectoryError" (meta_path 2)))
    by (vm_compute; reflexivity).
  rewrite Hfst in Hrun.
  eexists _, _. split; [exact Hrun|].
  destruct (send_simulated_email_exception _ _ _ _ _ _ _ _ _ Hrun)
    as [Hsame|(c & _ & Hfs' & _)].
  - exfalso.
    assert (Hcopy : snd (send_simulated_email iso_env ["generated_reports"; "jan.pdf"]
                           "a@x" "b@x" "s" "b" dir_named_json_store)
                      !! dest_pdf iso_env ["generated_reports"; "jan.pdf"]
                    = Some (File (Raw "%PDF"))) by (vm_compute; reflexivity).
    rewrite Hsame in Hcopy. vm_compute in Hcopy. discriminate Hcopy.
  - rewrite Hfs'. intros Heq.
    assert (Hl : (<[dest_pdf iso_env ["generated_reports"; "jan.pdf"] := File c]>
                    dir_named_json_store) !! dest_pdf iso_env ["generated_reports"; "jan.pdf"]
                 = Some (File c)) by apply lookup_insert_eq.
    rewrite Heq in Hl. vm_compute in Hl. discriminate Hl.
Defined.

Lemma to_uint_not_Nil n : Nat.to_uint n <> Decimal.Nil.
Proof.
  intros H. pose proof (Unsigned.of_to n) as Hn. rewrite H in Hn.
  simpl in Hn. subst n. discriminate H.
Qed.

Lemma string_of_nat_inj a b : string_of_nat a = string_of_nat b -> a = b.
Proof.
  unfold string_of_nat. intros H.
  apply (f_equal NilZero.uint_of_string) in H.
  rewrite !NilZero.usu in H by apply to_uint_not_Nil.
  injection H as H. apply Unsigned.to_uint_inj. exact H.
Qed.

Lemma append_inj_l (s t u : string) : s +:+ u = t +:+ u -> s = t.
Proof.
  intros H. apply (f_equal list_ascii_of_string) in H.
  rewrite !list_ascii_append in H. apply app_inv_tail in H.
  rewrite <- (string_of_list_ascii_of_string s), <- (string_of_list_ascii_of_string t), H.
  reflexivity.
Qed.

Lemma meta_path_inj a b : meta_path a = meta_path b -> a = b.
Proof.
  unfold meta_path. intros H. apply snoc_inj_name in H.
  apply string_of_nat_inj. exact (append_inj_l _ _ _ H).
Qed.

(** X13.  Two calls in a row: the identifier of the second e-mail is that of
    the first, plus one if the metadata file of the first was a new entry,
    plus one if the second copy is itself a new entry named [*.json].  So
    the identifiers follow one another as long as [<id>.json] is free; when
    it is not (an older metadata file was removed and the count fell), the
    first call writes over it, the second call gets the same identifier and
    writes over the metadata of the first. *)
Theorem consecutive_sends (E1 E2 : env) (p1 p2 : path)
    (s1 r1 sub1 b1 s2 r2 sub2 b2 : string) (fs fs1 fs2 : gmap path node) (m1 m2 : meta) :
  send_simulated_email E1 p1 s1 r1 sub1 b1 fs = (Ok m1, fs1) ->
  send_simulated_email E2 p2 s2 r2 sub2 b2 fs1 = (Ok m2, fs2) ->
  m_id m2 = (m_id m1
             + match fs !! meta_path (m_id m1) with None => 1 | Some _ => 0 end
             + copy_counts E2 p2 fs1)%nat /\
  fs2 !! meta_path (m_id m2) = Some (File (Json m2)) /\
  (m_id m2 <> m_id m1 -> fs2 !! meta_path (m_id m1) = Some (File (Json m1))).
Proof.
  intros H1 H2.
  apply send_simulated_email_run in H1 as [(e & [=] & _)|(c1 & ? & _ & _ & Hrest1)].
  cbv zeta in Hrest1. destruct Hrest1 as [_ [(e & _ & [=] & _)|(_ & [= ->] & ->)]].
  apply send_simulated_email_run in H2 as [(e & [=] & _)|(c2 & ? & _ & _ & Hrest2)].
  cbv zeta in Hrest2. destruct Hrest2 as [_ [(e & _ & [=] & _)|(_ & [= ->] & ->)]].
  cbn [m_id].
  set (fsa := <[dest_pdf E1 p1 := File c1]> fs).
  set (k1 := (count_json SENT_DIR fsa + 1)%nat).
  set (m1 := Meta k1 (now_stamp E1) s1 r1 sub1 b1 (now_stamp E1 +:+ "_" +:+ name p1)).
  set (fs1 := <[meta_path k1 := File (Json m1)]> fsa).
  assert (Hcount : count_json SENT_DIR (<[dest_pdf E2 p2 := File c2]> fs1)
                   = (count_json SENT_DIR fsa
                      + match fs !! meta_path k1 with None => 1 | Some _ => 0 end
                      + copy_counts E2 p2 fs1)%nat).
  { rewrite copy_counts_insert. f_equal. unfold fs1. rewrite count_json_insert.
    rewrite decide_True by apply meta_path_json_in.
    unfold fsa. rewrite lookup_insert_ne by apply meta_path_ne_dest. reflexivity. }
  split; [rewrite Hcount; unfold k1; lia|].
  split; [apply lookup_insert_eq|].
  intros Hne.
  rewrite lookup_insert_ne by (intros Heq; apply Hne; exact (meta_path_inj _ _ Heq)).
  rewrite lookup_insert_ne by apply meta_path_ne_dest.
  apply lookup_insert_eq.
Qed.

Lemma consecutive_sends_witness :
  exists m1 fs1 m2 fs2,
    send_simulated_email iso_env jan_pdf "a@x" "b@x" "s" "b" sent_store = (Ok m1, fs1) /\
    send_simulated_email iso_env_later jan_pdf "a@x" "b@x" "s" "b" fs1 = (Ok m2, fs2) /\
    m_id m1 = 1%nat /\ m_id m2 = 2%nat.
Proof.
  set (run1 := send_simulated_email iso_env jan_pdf "a@x" "b@x" "s" "b" sent_store).
  set (run2 := send_simulated_email iso_env_later jan_pdf "a@x" "b@x" "s" "b" (snd run1)).
  set (m1 := Meta 1 "2024-02-01_09-30-00" "a@x" "b@x" "s" "b" "2024-02-01_09-30-00_jan.pdf").
  set (m2 := Meta 2 "2024-02-01_09-31-00" "a@x" "b@x" "s" "b" "2024-02-01_09-31-00_jan.pdf").
  assert (Hfst1 : fst run1 = Ok m1) by (vm_compute; reflexivity).
  assert (Hfst2 : fst run2 = Ok m2) by (vm_compute; reflexivity).
  pose proof (surjective_pairing run1) as H1. rewrite Hfst1 in H1.
  pose proof (surjective_pairing run2) as H2. rewrite Hfst2 in H2.
  exists m1, (snd run1), m2, (snd run2).
  split; [exact H1|]. split; [exact H2|]. split; [reflexivity|].
  destruct (consecutive_sends iso_env iso_env_later jan_pdf jan_pdf
              "a@x" "b@x" "s" "b" "a@x" "b@x" "s" "b" sent_store (snd run1) (snd run2) m1 m2
              H1 H2) as (Hid & _ & _).
  reflexivity.
Defined.

(** * Rows that come through the loader *)

Lemma convert_row_Ok E r r' :
  convert_row E r = Ok r' ->
  exists z p,
    py_int_value E (get_quantity r) = Ok z /\
    py_float_value E (get_unit_price r) = Ok p /\
    r' = RawRow (date r) (order_id r) (model r) (Val (VInt z)) (float_cell p)
                (price r) (total r).
Proof.
  unfold convert_row. intros H.
  apply rbind_Ok in H as (z & Hz & H). apply rbind_Ok in H as (p & Hp & H).
  injection H as <-. eauto.
Qed.

Lemma convert_row_converted E r r' : convert_row E r = Ok r' -> converted r'.
Proof.
  intros H. apply convert_row_Ok in H as (z & p & _ & _ & ->).
  split; [reflexivity|]. destruct p; reflexivity.
Qed.

(** When no read of the CSV file raises, its loop does what the loop of the
    JSON branch does. *)
Lemma load_csv_as_json E (data : list raw_row) :
  load_csv E (map Ok data) = load_json E data.
Proof.
  unfold load_json. induction data as [|r data IH]; simpl; [reflexivity|].
  rewrite IH. unfold rbind. destruct (convert_row E r); reflexivity.
Qed.

Lemma load_csv_Ok E reader rows' :
  load_csv E reader = Ok rows' ->
  exists data, reader = map Ok data /\ load_json E data = Ok rows'.
Proof.
  revert rows'. induction reader as [|[r|e] reader IH]; simpl; intros rows' H.
  - injection H as <-. exists []. auto.
  - apply rbind_Ok in H as (r' & Hr & H). apply rbind_Ok in H as (rs & Hrs & H).
    injection H as <-. destruct (IH _ Hrs) as (data & -> & Hdata).
    exists (r :: data). split; [reflexivity|].
    unfold load_json in *. simpl. rewrite Hr, Hdata. reflexivity.
  - discriminate H.
Qed.

(** What [load_rows_from_sample] returns, when it returns: nothing for a
    missing file, else the converted rows of the file. *)
Lemma load_rows_from_sample_Ok D E filename fs rows' :
  load_rows_from_sample D E filename fs = Ok rows' ->
  (exists_ (SAMPLE ++ filename) fs = false /\ rows' = []) \/
  exists c data, stat (SAMPLE ++ filename) fs = Some (File c) /\
                 load_json E data = Ok rows'.
Proof.
  unfold load_rows_from_sample, exists_.
  destruct (stat (SAMPLE ++ filename) fs) as [[|c]|]; cbn [negb];
    [discriminate| |intros [= <-]; auto].
  intros H. right. exists c.
  destruct (String.eqb _ _).
  - apply load_csv_Ok in H as (data & _ & H). eauto.
  - apply rbind_Ok in H as (data & _ & H). eauto.
Qed.

(** *** The frame of converted rows *)

Lemma rmap_Ok_map {A B} (f : A -> result B) (g : A -> B) (l : list A) (bs : list B) :
  rmap f l = Ok bs -> (forall a b, In a l -> f a = Ok b -> b = g a) -> bs = map g l.
Proof.
  revert bs. induction l as [|a l IH]; simpl; intros bs H Hg.
  - injection H as <-. reflexivity.
  - destruct (f a) as [b|e] eqn:Ha; [|discriminate].
    destruct (rmap f l) as [bs'|e]; [|discriminate].
    injection H as <-. f_equal; [apply Hg; auto|]. apply IH; auto.
Qed.

Lemma converted_cells rows :
  Forall converted rows ->
  map quantity rows = map (fun r => Val (VInt (quantity_of r))) rows /\
  map unit_price rows = map (fun r => float_cell (unit_price_of r)) rows.
Proof.
  intros H. split; apply map_ext_in; intros r Hr;
    destruct (proj1 (List.Forall_forall _ _) H r Hr) as [H1 H2]; assumption.
Qed.

Lemma converted_in_columns rows :
  Forall converted rows -> rows <> [] ->
  in_columns quantity rows = true /\ in_columns unit_price rows = true.
Proof.
  intros H Hne. destruct H as [|r rows [H1 H2] _]; [congruence|].
  unfold in_columns. simpl. rewrite H1, H2.
  destruct (unit_price_of r); auto.
Qed.

(** The [unit_price] column of converted rows is a column of floats. *)
Lemma unit_price_column_converted rows :
  Forall converted rows -> rows <> [] ->
  column_of unit_price rows = Ok (Some (Float64 (map unit_price_of rows))).
Proof.
  intros H Hne. destruct (converted_in_columns rows H Hne) as [_ Hu].
  destruct (converted_cells rows H) as [_ Hcells].
  unfold column_of. rewrite Hu, Hcells.
  rewrite maybe_convert_objects_floats.
  - rewrite List.map_map. cbn [rbind]. do 3 f_equal. apply map_ext.
    intros r. destruct (unit_price_of r); reflexivity.
  - apply List.Forall_forall. intros c Hc. apply in_map_iff in Hc as (r & <- & _).
    destruct (unit_price_of r); [discriminate|reflexivity].
  - apply List.Forall_forall. intros c Hc z. apply in_map_iff in Hc as (r & <- & _).
    destruct (unit_price_of r); discriminate.
  - destruct rows; [congruence|discriminate].
Qed.

(** The conversion of the [quantity] column of converted rows: the integers
    as they are when they fit 64 signed bits, wrapped when the column is
    unsigned; the OverflowError of the first integer that does not fit when
    the column is an array of objects. *)
Lemma quantity_column_converted E rows c :
  Forall converted rows ->
  maybe_convert_objects (map quantity rows) = Ok c ->
  match astype_int E c with
  | Ok qs => qs = map (fun r => wrap64 (quantity_of r)) rows
  | Err e => exn_class e = "OverflowError"
  end.
Proof.
  intros H Hc. destruct (converted_cells rows H) as [Hcells _]. rewrite Hcells in Hc.
  assert (Hints : Forall (fun c : cell value => exists z, c = Val (VInt z))
                    (map (fun r => Val (VInt (quantity_of r))) rows)).
  { apply List.Forall_forall. intros c0 Hc0. apply in_map_iff in Hc0 as (r & <- & _). eauto. }
  apply maybe_convert_objects_Ok in Hc. destruct c as [a|a|a|a]; cbn [astype_int].
  - destruct Hc as [-> Hr]. rewrite !List.map_map. apply map_ext_in.
    intros r Hin. cbn [int_value]. symmetry. apply wrap64_id.
    rewrite List.Forall_forall in Hr.
    destruct (Hr (Val (VInt (quantity_of r)))) as (z & [= <-] & Hz); [|exact Hz].
    apply in_map_iff. eauto.
  - destruct Hc as [-> _]. rewrite !List.map_map. reflexivity.
  - destruct Hc as (_ & _ & Hc). contradiction.
  - subst a. destruct (rmap (int_of_object E) _) as [qs|e] eqn:Hq.
    + rewrite (rmap_Ok_map _ (fun c => wrap64 (int_value c)) _ _ Hq).
      * rewrite List.map_map. reflexivity.
      * intros c0 b Hin Hb. apply in_map_iff in Hin as (r & <- & _).
        cbn in Hb. apply to_int64_Ok in Hb as [-> Hr]. cbn. symmetry. apply wrap64_id, Hr.
    + apply rmap_Err_In in Hq as (c0 & Hin & He).
      apply in_map_iff in Hin as (r & <- & _). cbn in He. unfold to_int64 in He.
      destruct (in_int64 (quantity_of r)); [discriminate|]. injection He as <-. reflexivity.
Qed.

Lemma assemble_maps rows (f : raw_row -> Z) (g : raw_row -> option Q) :
  assemble rows (map f rows) (map g rows)
  = map (fun r => SRow (label (date r)) (label (order_id r)) (label (model r))
                    (f r) (g r) (times (f r) (g r))) rows.
Proof. induction rows as [|r rows IH]; simpl; [reflexivity|]. rewrite IH. reflexivity. Qed.

(** Normalisation of converted rows: it can only raise OverflowError, and
    when it returns the frame has the numbers of the rows, the quantities
    reduced to 64 bits. *)
Lemma normalise_converted E rows :
  Forall converted rows ->
  match _safe_df_from_rows E rows with
  | Ok df =>
      df = Frame (in_columns date rows) (in_columns order_id rows) (in_columns model rows)
             (map (fun r => SRow (label (date r)) (label (order_id r)) (label (model r))
                              (wrap64 (quantity_of r)) (unit_price_of r)
                              (times (wrap64 (quantity_of r)) (unit_price_of r))) rows)
  | Err e => exn_class e = "OverflowError"
  end.
Proof.
  intros H. destruct rows as [|r0 rows0] eqn:Hrows; [reflexivity|]. rewrite <- Hrows in *.
  assert (Hne : rows <> []) by (rewrite Hrows; discriminate). clear Hrows.
  unfold _safe_df_from_rows.
  destruct (pd_DataFrame rows) as [fr|e] eqn:Hfr; cbn [rbind];
    [|rewrite (pd_DataFrame_Err _ _ Hfr); reflexivity].
  destruct (pd_DataFrame_Ok _ _ Hfr) as (Cq & Cu & _).
  rewrite (unit_price_column_converted rows H Hne) in Cu. injection Cu as Cu.
  destruct (converted_in_columns rows H Hne) as [Hq _].
  apply column_of_Ok in Cq. destruct (c_quantity fr) as [c|] eqn:Hc; [|congruence].
  destruct Cq as [_ Cq].
  unfold quantity_column, unit_price_column. rewrite Hc, <- Cu.
  pose proof (quantity_column_converted E rows c H Cq) as Hqs.
  destruct (astype_int E c) as [qs|e]; cbn [rbind astype_float]; [|exact Hqs].
  subst qs. rewrite assemble_maps. reflexivity.
Qed.

(** Converted rows whose quantities fit 64 signed bits, in a table that the
    constructor can read, are accepted. *)
Lemma normalise_converted_Ok E rows :
  Forall converted rows ->
  Forall (fun r => in_int64 (quantity_of r) = true /\ readable (price r) /\ readable (total r))
         rows ->
  exists df, _safe_df_from_rows E rows = Ok df.
Proof.
  intros H Hfit. destruct rows as [|r0 rows0] eqn:Hrows; [simpl; eauto|]. rewrite <- Hrows in *.
  assert (Hne : rows <> []) by (rewrite Hrows; discriminate). clear Hrows.
  destruct (converted_in_columns rows H Hne) as [Hq _].
  destruct (converted_cells rows H) as [Hcells _].
  assert (Cq : column_of quantity rows = Ok (Some (Int64 (map int_value (map quantity rows))))).
  { unfold column_of. rewrite Hq, maybe_convert_objects_int64; [reflexivity| |].
    - rewrite Hcells. apply List.Forall_forall. intros c Hc.
      apply in_map_iff in Hc as (r & <- & Hr). exists (quantity_of r). split; [reflexivity|].
      rewrite List.Forall_forall in Hfit. apply (Hfit r Hr).
    - destruct rows; [congruence|discriminate]. }
  assert (Hread : forall f : raw_row -> cell value,
             (forall r, In r rows -> readable (f r)) -> exists oc, column_of f rows = Ok oc).
  { intros f Hf. unfold column_of. destruct (in_columns f rows); [|eauto].
    destruct (maybe_convert_objects_readable (map f rows)) as [c ->]; [|simpl; eauto].
    apply List.Forall_forall. intros c Hc. apply in_map_iff in Hc as (r & <- & Hr). auto. }
  rewrite List.Forall_forall in Hfit.
  destruct (Hread price) as [p Cp]; [intros r Hr; apply (Hfit r Hr)|].
  destruct (Hread total) as [t Ct]; [intros r Hr; apply (Hfit r Hr)|].
  unfold _safe_df_from_rows, pd_DataFrame.
  rewrite Cq, (unit_price_column_converted rows H Hne), Cp, Ct. cbn. eauto.
Qed.

Lemma load_json_converted E data rows' :
  load_json E data = Ok rows' -> Forall converted rows'.
Proof.
  intros H. apply rmap_Forall2 in H.
  induction H as [|r r' data rows' Hr _ IH]; constructor; [|exact IH].
  exact (convert_row_converted E r r' Hr).
Qed.

(** X14.  On the rows that [load_rows_from_sample] returns, the conversions
    of [_safe_df_from_rows] can only raise OverflowError.  When the frame is
    made, each of its rows has the quantity of the loaded row, reduced to 64
    bits, its unit price, and their product as total.  The frame is made
    whenever the quantities fit 64 signed bits and the table holds no
    integer too large for a float. *)
Theorem loaded_rows_are_accepted (D : decoders) (E : env) (filename : path)
    (fs : gmap path node) (rows' : list raw_row) :
  load_rows_from_sample D E filename fs = Ok rows' ->
  (forall e, _safe_df_from_rows E rows' = Err e -> exn_class e = "OverflowError") /\
  (forall df, _safe_df_from_rows E rows' = Ok df ->
     Forall2 (fun r s =>
                exists z, quantity r = Val (VInt z) /\ s_quantity s = wrap64 z /\
                          (in_int64 z = true -> s_quantity s = z) /\
                          unit_price r = float_cell (s_unit_price s) /\
                          s_total s = times (s_quantity s) (s_unit_price s))
             rows' (records df)) /\
  (Forall (fun r => in_int64 (quantity_of r) = true /\
                    readable (price r) /\ readable (total r)) rows' ->
   exists df, _safe_df_from_rows E rows' = Ok df).
Proof.
  intros H.
  assert (Hconv : Forall converted rows').
  { apply load_rows_from_sample_Ok in H as [(_ & ->)|(c & data & _ & H)]; [constructor|].
    exact (load_json_converted E data rows' H). }
  pose proof (normalise_converted E rows' Hconv) as Hn.
  split; [|split].
  - intros e He. rewrite He in Hn. exact Hn.
  - intros df Hdf. rewrite Hdf in Hn. subst df. cbn [records]. clear H Hdf.
    induction Hconv as [|r rows [Hq Hu] _ IH]; cbn [map]; constructor; [|exact IH].
    exists (quantity_of r). cbn. split; [exact Hq|]. split; [reflexivity|].
    split; [apply wrap64_id|]. split; [exact Hu|reflexivity].
  - apply normalise_converted_Ok, Hconv.
Qed.

Lemma loaded_rows_are_accepted_witness :
  exists rows' df,
    load_rows_from_sample sample_decoders iso_env ["mixed.json"] sample_store = Ok rows' /\
    _safe_df_from_rows iso_env rows' = Ok df /\
    map s_total (records df) = [Some (2 * 9.99)%Q; Some (1 * 5)%Q].
Proof.
  destruct (load_rows_from_sample sample_decoders iso_env ["mixed.json"] sample_store)
    as [rows'|e] eqn:Hload; [|vm_compute in Hload; discriminate Hload].
  destruct (loaded_rows_are_accepted sample_decoders iso_env ["mixed.json"] sample_store rows' Hload)
    as (_ & _ & Hok).
  vm_compute in Hload. injection Hload as <-.
  destruct Hok as [df Hdf].
  - repeat constructor.
  - eexists. exists df. split; [reflexivity|]. split; [exact Hdf|].
    vm_compute in Hdf. injection Hdf as <-. reflexivity.
Defined.

(** X15.  In the loader the defaults are taken row by row: whatever the
    other rows have, the frame built from the loaded rows gives each row the
    quantity [int(quantity)], 1 if the row has no quantity, reduced to 64
    bits, and the unit price [float(unit_price)], that of [price] if the row
    has no unit price, 0.0 if it has neither.  The CSV loop and the JSON
    loop convert alike. *)
Theorem loader_defaults_row_by_row (E : env) (data rows' : list raw_row) (df : DataFrame) :
  load_json E data = Ok rows' \/ load_csv E (map Ok data) = Ok rows' ->
  _safe_df_from_rows E rows' = Ok df ->
  Forall2 (fun r s =>
             exists z, py_int_value E (get_quantity r) = Ok z /\
                       s_quantity s = wrap64 z /\
                       (in_int64 z = true -> s_quantity s = z) /\
                       py_float_value E (get_unit_price r) = Ok (s_unit_price s) /\
                       s_total s = times (s_quantity s) (s_unit_price s) /\
                       s_date s = label (date r) /\ s_order_id s = label (order_id r) /\
                       s_model s = label (model r))
          data (records df).
Proof.
  intros Hload Hdf.
  assert (H : load_json E data = Ok rows')
    by (destruct Hload as [H|H]; [exact H | rewrite <- load_csv_as_json; exact H]).
  pose proof (normalise_converted E rows' (load_json_converted E data rows' H)) as Hn.
  rewrite Hdf in Hn. subst df. cbn [records].
  apply rmap_Forall2 in H. clear Hload Hdf.
  induction H as [|r r' data rows' Hr _ IH]; cbn [map]; constructor; [|exact IH].
  apply convert_row_Ok in Hr as (z & p & Hz & Hp & ->).
  exists z. unfold quantity_of, unit_price_of. cbn.
  split; [exact Hz|]. split; [reflexivity|]. split; [apply wrap64_id|].
  destruct p; cbn; repeat split; assumption.
Qed.

Lemma loader_defaults_row_by_row_witness :
  Forall2 (fun r s => py_float_value iso_env (get_unit_price r) = Ok (s_unit_price s))
    [price_only 2 9.99; unit_price_only 1 5]
    [SRow None None None 2 (Some 9.99%Q) (Some (2 * 9.99)%Q);
     SRow None None None 1 (Some 5%Q) (Some (1 * 5)%Q)].
Proof.
  pose proof (loader_defaults_row_by_row iso_env [price_only 2 9.99; unit_price_only 1 5]
                [RawRow Absent Absent Absent (Val (VInt 2)) (Val (VFloat 9.99))
                        (Val (VFloat 9.99)) Absent;
                 RawRow Absent Absent Absent (Val (VInt 1)) (Val (VFloat 5)) Absent Absent]
                (Frame false false false
                   [SRow None None None 2 (Some 9.99%Q) (Some (2 * 9.99)%Q);
                    SRow None None None 1 (Some 5%Q) (Some (1 * 5)%Q)])
                (or_introl eq_refl) eq_refl) as H.
  simpl in H. eapply Forall2_impl; [exact H|].
  intros r s (z & _ & _ & _ & Hp & _). exact Hp.
Defined.

(** * The files offered by [list_sample_files] *)

Lemma String_leb_trans (a b c : string) :
  String.leb a b = true -> String.leb b c = true -> String.leb a c = true.
Proof.
  unfold String.leb.
  destruct (String.compare a b) eqn:Hab; [|
    |discriminate].
  - apply String.compare_eq_iff in Hab. subst b. auto.
  - destruct (String.compare b c) eqn:Hbc; [| |discriminate]; intros _ _.
    + apply String.compare_eq_iff in Hbc. subst c. rewrite Hab. reflexivity.
    + apply compare_Lt in Hab, Hbc.
      pose proof (proj2 (compare_Lt a c) (String_as_OT.lt_trans _ _ _ Hab Hbc)) as ->.
      reflexivity.
Qed.

Lemma child_of_eq (d p : path) : child_of d p -> p = d ++ [name p].
Proof.
  intros [Hne <-]. unfold parent, name. apply app_removelast_last. exact Hne.
Qed.

Lemma In_glob (m : string -> bool) (d p : path) (fs : gmap path node) :
  In p (glob m d fs) <->
  stat d fs = Some Dir /\ is_Some (fs !! p) /\ child_of d p /\ m (name p) = true.
Proof.
  unfold glob. destruct (stat d fs) as [[|c]|].
  - rewrite in_map_iff. split.
    + intros ([q x] & <- & Hin). apply list_elem_of_In, elem_of_map_to_list in Hin.
      apply map_lookup_filter_Some in Hin as [Hq [Hc Hm]]. simpl in *. eauto.
    + intros (_ & [x Hx] & Hc & Hm). exists (p, x). split; [reflexivity|].
      apply list_elem_of_In, elem_of_map_to_list, map_lookup_filter_Some.
      split; [exact Hx|]. split; assumption.
  - split; [intros []|intros (H & _); discriminate H].
  - split; [intros []|intros (H & _); discriminate H].
Qed.

Lemma NoDup_glob_names (m : string -> bool) (d : path) (fs : gmap path node) :
  List.NoDup (map name (glob m d fs)).
Proof.
  apply NoDup_map_NoDup_ForallPairs.
  - intros p q Hp Hq Hn. apply In_glob in Hp as (_ & _ & Hp & _), Hq as (_ & _ & Hq & _).
    rewrite (child_of_eq d p Hp), (child_of_eq d q Hq), Hn. reflexivity.
  - unfold glob. destruct (stat d fs) as [[|c]|]; try constructor.
    apply NoDup_ListNoDup. exact (NoDup_fst_map_to_list (filter (glob_in m d) fs)).
Qed.

Lemma prefix_cons_inv (a : ascii) (s : string) (l : list ascii) :
  String.prefix (String a s) (string_of_list_ascii l) = true ->
  exists l', l = a :: l' /\ String.prefix s (string_of_list_ascii l') = true.
Proof.
  destruct l as [|b l]; simpl; [discriminate|].
  destruct (ascii_dec a b) as [<-|]; [|discriminate]. eauto.
Qed.

Lemma matches_csv_inv (n : string) :
  matches_csv n = true ->
  exists rest, rev (list_ascii_of_string n) = list_ascii_of_string "vsc." ++ rest.
Proof.
  unfold matches_csv. intros H.
  apply prefix_cons_inv in H as (l1 & -> & H). apply prefix_cons_inv in H as (l2 & -> & H).
  apply prefix_cons_inv in H as (l3 & -> & H). apply prefix_cons_inv in H as (l4 & -> & H).
  exists l4. reflexivity.
Qed.

Lemma matches_json_inv (n : string) :
  matches_json n = true ->
  exists rest, rev (list_ascii_of_string n) = list_ascii_of_string "nosj." ++ rest.
Proof.
  unfold matches_json. intros H.
  apply prefix_cons_inv in H as (l1 & -> & H). apply prefix_cons_inv in H as (l2 & -> & H).
  apply prefix_cons_inv in H as (l3 & -> & H). apply prefix_cons_inv in H as (l4 & -> & H).
  apply prefix_cons_inv in H as (l5 & -> & H).
  exists l5. reflexivity.
Qed.

Lemma matches_csv_not_json (n : string) : matches_csv n = true -> matches_json n = true -> False.
Proof.
  intros Hc Hj. apply matches_csv_inv in Hc as (r1 & H1). apply matches_json_inv in Hj as (r2 & H2).
  rewrite H1 in H2. discriminate H2.
Qed.

(** The suffix of a name that ends with [.csv] is [.csv], except for the
    name [.csv] itself, which has none. *)
Lemma suffix_csv (n : string) :
  matches_csv n = true -> n <> ".csv" -> suffix n = ".csv".
Proof.
  intros H Hne. apply matches_csv_inv in H as (rest & H).
  unfold suffix. rewrite H. cbn.
  destruct (rev rest) as [|a l] eqn:Hr; [|reflexivity].
  exfalso. apply Hne.
  assert (rest = []) as -> by (rewrite <- (rev_involutive rest), Hr; reflexivity).
  rewrite <- (string_of_list_ascii_of_string n), <- (rev_involutive (list_ascii_of_string n)), H.
  reflexivity.
Qed.

Lemma suffix_json (n : string) :
  matches_json n = true -> suffix n = ".json" \/ suffix n = "".
Proof.
  intros H. apply matches_json_inv in H as (rest & H).
  unfold suffix. rewrite H. cbn.
  destruct (rev rest) as [|a l]; auto.
Qed.

Lemma sorted_strictly (l : list string) :
  List.NoDup l ->
  StronglySorted (ordered_with_ties String.leb (fun _ _ => True)) l ->
  StronglySorted klt l.
Proof.
  induction 2 as [|a l Hs IH Ha]; [constructor|].
  apply List.NoDup_cons_iff in H as [Hnin Hnd].
  constructor; [auto|].
  rewrite List.Forall_forall in *. intros b Hb.
  destruct (Ha b Hb) as [Hle _]. unfold String.leb in Hle.
  destruct (String.compare a b) eqn:Hc; [| |discriminate].
  - apply String.compare_eq_iff in Hc. subst b. contradiction.
  - apply compare_Lt. exact Hc.
Qed.

(** X16.  [list_sample_files] offers exactly the entries of [sample_data],
    files or directories, hidden ones included, whose name ends with [.csv]
    or [.json] in lower case; it offers nothing when [sample_data] is not a
    directory.  The names come in strictly ascending order, none twice,
    however the directory is scanned. *)
Theorem listed_files_are_the_matching_entries (fs : gmap path node) :
  (forall n : string,
     In n (list_sample_files fs) <->
     fs !! SAMPLE = Some Dir /\ is_Some (fs !! (SAMPLE ++ [n])) /\
     (matches_csv n = true \/ matches_json n = true)) /\
  StronglySorted klt (list_sample_files fs).
Proof.
  pose proof (stable_sort_perm String.leb
                (map name (glob matches_csv SAMPLE fs) ++ map name (glob matches_json SAMPLE fs)))
    as Hperm.
  fold (list_sample_files fs) in Hperm.
  assert (Hin : forall m n, In n (map name (glob m SAMPLE fs)) <->
                  fs !! SAMPLE = Some Dir /\ is_Some (fs !! (SAMPLE ++ [n])) /\ m n = true).
  { intros m n. rewrite in_map_iff. split.
    - intros (p & <- & Hp). apply In_glob in Hp as (Hd & Hp & Hc & Hm).
      rewrite <- (child_of_eq SAMPLE p Hc). auto.
    - intros (Hd & Hp & Hm). exists (SAMPLE ++ [n]). rewrite name_snoc. split; [reflexivity|].
      apply In_glob. rewrite name_snoc. repeat split; try assumption. apply snoc_ne_nil. }
  split.
  - intros n. split.
    + intros H. apply (Permutation_in _ Hperm), in_app_or in H.
      destruct H as [H|H]; apply Hin in H as (Hd & Hp & Hm); auto.
    + intros (Hd & Hp & Hm). apply (Permutation_in _ (Permutation_sym Hperm)), in_or_app.
      destruct Hm as [Hm|Hm]; [left|right]; apply Hin; auto.
  - apply sorted_strictly.
    + apply (Permutation_NoDup (Permutation_sym Hperm)).
      apply List.NoDup_app; try apply NoDup_glob_names.
      intros n H1 H2. apply Hin in H1 as (_ & _ & H1), H2 as (_ & _ & H2).
      exact (matches_csv_not_json n H1 H2).
    + apply (stable_sort_sorted String.leb String.leb_total String_leb_trans).
      apply all_unordered.
Qed.

(** X17.  A name offered by [list_sample_files] is never taken for a missing
    file by [load_rows_from_sample]: a file is read as CSV when its name
    ends with [.csv] and is not [.csv] itself, else as JSON ([.csv] alone
    has no suffix); an offered directory makes the loader raise. *)
Theorem listed_file_is_loaded (D : decoders) (E : env) (fs : gmap path node) (n : string) :
  In n (list_sample_files fs) ->
  is_Some (fs !! (SAMPLE ++ [n])) /\
  (forall c, fs !! (SAMPLE ++ [n]) = Some (File c) ->
     load_rows_from_sample D E [n] fs
     = if matches_csv n && negb (String.eqb n ".csv")
       then load_csv E (csv_DictReader D c)
       else rbind (json_load D c) (load_json E)) /\
  (fs !! (SAMPLE ++ [n]) = Some Dir ->
     load_rows_from_sample D E [n] fs = Err (OSError "IsADirectoryError" (SAMPLE ++ [n]))).
Proof.
  intros Hin.
  pose proof (stable_sort_perm String.leb
                (map name (glob matches_csv SAMPLE fs) ++ map name (glob matches_json SAMPLE fs)))
    as Hperm.
  apply (Permutation_in _ Hperm), in_app_or in Hin.
  assert (Hn : is_Some (fs !! (SAMPLE ++ [n])) /\
               (matches_csv n = true \/ matches_json n = true)).
  { destruct Hin as [H|H]; apply in_map_iff in H as (p & <- & Hp);
      apply In_glob in Hp as (_ & Hp & Hc & Hm);
      rewrite <- (child_of_eq SAMPLE p Hc); auto. }
  destruct Hn as [Hsome Hm]. split; [exact Hsome|].
  unfold load_rows_from_sample, exists_. rewrite stat_snoc, name_snoc.
  split.
  - intros c ->. cbn [negb].
    destruct (String.eqb n ".csv") eqn:Heq.
    + apply String.eqb_eq in Heq. subst n. rewrite andb_false_r. reflexivity.
    + apply String.eqb_neq in Heq. rewrite andb_true_r.
      destruct (matches_csv n) eqn:Hc.
      * rewrite (suffix_csv n Hc Heq). reflexivity.
      * destruct Hm as [Hm|Hm]; [discriminate|].
        destruct (suffix_json n Hm) as [-> | ->]; reflexivity.
  - intros ->. reflexivity.
Qed.

Lemma listed_file_is_loaded_witness :
  In ".csv" (list_sample_files sample_store) /\
  load_rows_from_sample sample_decoders iso_env [".csv"] sample_store
  = rbind (json_load sample_decoders (Raw "mixed")) (load_json iso_env).
Proof.
  assert (Hin : In ".csv" (list_sample_files sample_store))
    by (vm_compute; left; reflexivity).
  split; [exact Hin|].
  destruct (listed_file_is_loaded sample_decoders iso_env sample_store ".csv" Hin)
    as (_ & Hfile & _).
  apply (Hfile (Raw "mixed")). vm_compute. reflexivity.
Defined.
